(** * vcpsave: the backup program of [main.go]

    A shallow embedding of the program.  The cleanup half comes first:
    the name codec ([generateFileName], [parseFileName]), the age test
    ([isFileOlderThanDays]), the whitelist test ([isWhitelisted]) and the
    cleanup pass ([performCleanup]) together with the helpers they call.
    The rest follows: the settings ([parseSourcePaths],
    [getNextCleanupTime]), the directory marker ([ensureCOSDirectory]) and
    the backup itself ([performBackup]).

    Go strings are byte sequences and are modelled by [string] (a list of
    8-bit [ascii] characters).  [int] is the 64-bit integer of the usual
    amd64/arm64 targets and is modelled by [Z] with the wrap-around written
    out.  [float64] is IEEE 754 binary64, modelled by the Standard Library's
    [spec_float] with precision 53 and maximal exponent 1024. *)

From Stdlib Require Import Bool Arith ZArith Lia List Ascii String.
From Stdlib Require Import SpecFloat.
Import ListNotations.

Local Open Scope string_scope.

(** ** Bytes and strings *)

Definition byte_of (c : ascii) : nat := nat_of_ascii c.

(** ['0' <= c && c <= '9'] *)
Definition isDigit (c : ascii) : bool :=
  (48 <=? byte_of c)%nat && (byte_of c <=? 57)%nat.

Definition newline : ascii := "010"%char.

Fixpoint all_chars (p : ascii -> bool) (s : string) : bool :=
  match s with
  | EmptyString => true
  | String c s' => p c && all_chars p s'
  end.

(** [s[n:]] for [n <= len(s)] *)
Fixpoint drop (n : nat) (s : string) : string :=
  match n, s with
  | O, _ => s
  | S n', String _ s' => drop n' s'
  | S _, EmptyString => EmptyString
  end.

(** [s[:n]] for [n <= len(s)] *)
Fixpoint take (n : nat) (s : string) : string :=
  match n, s with
  | O, _ => EmptyString
  | S n', String c s' => String c (take n' s')
  | S _, EmptyString => EmptyString
  end.

(** [s[a:b]] *)
Definition slice (s : string) (a b : nat) : string := take (b - a) (drop a s).

(** ** A backtracking matcher for the regular expressions of [regexp]

    Package [regexp] returns the leftmost match and, among the leftmost
    ones, the one a backtracking search finds first.  The matcher below is
    that backtracking search.  A program is the sequence of the pieces of a
    pattern; [Cap n] records the current offset in capture slot [n], slots
    [2*i] and [2*i+1] delimiting group [i] (group 0 is the whole match).

    The pattern is matched byte by byte.  [regexp] matches rune by rune,
    but in the pattern of this program every piece next to a [.] is an
    ASCII byte or the end of the text, and an ASCII byte is never part of a
    multi-byte rune, so both readings accept the same texts with the same
    group boundaries. *)

Inductive class : Type :=
| AnyCharNotNL               (* .   (flag s is off) *)
| Digit                      (* \d  *)
| Lit (c : ascii).           (* a literal byte *)

Definition class_matches (k : class) (c : ascii) : bool :=
  match k with
  | AnyCharNotNL => negb (Ascii.eqb c newline)
  | Digit => isDigit c
  | Lit x => Ascii.eqb c x
  end.

Inductive inst : Type :=
| BeginText                          (* ^  (flag m is off) *)
| EndText                            (* $  (flag m is off) *)
| Repeat (n : nat) (k : class)       (* k{n} *)
| PlusLazy (k : class)               (* k+? *)
| PlusGreedy (k : class)             (* k+  *)
| Cap (slot : nat).

Definition captures : Type := list (nat * nat).
Definition cont : Type := nat -> string -> captures -> option captures.

Fixpoint repeat_n (n : nat) (k : class) (K : cont)
    (pos : nat) (s : string) (c : captures) : option captures :=
  match n with
  | O => K pos s c
  | S n' =>
      match s with
      | String x s' =>
          if class_matches k x then repeat_n n' k K (S pos) s' c else None
      | EmptyString => None
      end
  end.

(** One or more, preferring fewer: try the rest of the pattern after each
    character, and take one more character only when the rest fails. *)
Fixpoint plus_lazy (k : class) (K : cont)
    (pos : nat) (s : string) (c : captures) : option captures :=
  match s with
  | EmptyString => None
  | String x s' =>
      if class_matches k x then
        match K (S pos) s' c with
        | Some r => Some r
        | None => plus_lazy k K (S pos) s' c
        end
      else None
  end.

(** One or more, preferring more. *)
Fixpoint plus_greedy (k : class) (K : cont)
    (pos : nat) (s : string) (c : captures) : option captures :=
  match s with
  | EmptyString => None
  | String x s' =>
      if class_matches k x then
        match plus_greedy k K (S pos) s' c with
        | Some r => Some r
        | None => K (S pos) s' c
        end
      else None
  end.

Fixpoint run (prog : list inst) (pos : nat) (s : string) (c : captures)
    : option captures :=
  match prog with
  | [] => Some c
  | i :: rest =>
      match i with
      | BeginText => if (pos =? 0)%nat then run rest pos s c else None
      | EndText =>
          match s with
          | EmptyString => run rest pos s c
          | String _ _ => None
          end
      | Repeat n k => repeat_n n k (run rest) pos s c
      | PlusLazy k => plus_lazy k (run rest) pos s c
      | PlusGreedy k => plus_greedy k (run rest) pos s c
      | Cap slot => run rest pos s ((slot, pos) :: c)
      end
  end.

(** The unanchored search: the leftmost start offset at which the program
    matches. *)
Fixpoint search (prog : list inst) (pos : nat) (s : string)
    : option captures :=
  match run prog pos s [] with
  | Some c => Some c
  | None =>
      match s with
      | String _ s' => search prog (S pos) s'
      | EmptyString => None
      end
  end.

Fixpoint slot (c : captures) (n : nat) : nat :=
  match c with
  | [] => 0
  | (m, p) :: c' => if (m =? n)%nat then p else slot c' n
  end.

(** [re.FindStringSubmatch(s)]: [nil] when there is no match, otherwise the
    text of the whole match followed by the text of each of the [nsub]
    groups. *)
Definition FindStringSubmatch (prog : list inst) (nsub : nat) (s : string)
    : list string :=
  match search prog 0 s with
  | None => []
  | Some c =>
      map (fun i => slice s (slot c (2 * i)) (slot c (2 * i + 1)))
          (seq 0 (S nsub))
  end.

(** ** [parseFileName] *)

(** [regexp.MustCompile(`^(.+?)_(\d{8}_\d{6})\..+$`)] *)
Definition re : list inst :=
  [ Cap 0; BeginText;
    Cap 2; PlusLazy AnyCharNotNL; Cap 3;
    Repeat 1 (Lit "_");
    Cap 4; Repeat 8 Digit; Repeat 1 (Lit "_"); Repeat 6 Digit; Cap 5;
    Repeat 1 (Lit "."); PlusGreedy AnyCharNotNL;
    EndText; Cap 1 ].

Definition parseFileName (fileName : string) : string * string * bool :=
  let matches := FindStringSubmatch re 2 fileName in
  if (List.length matches =? 3)%nat
  then (nth 1 matches "", nth 2 matches "", true)
  else ("", "", false).

(** ** Paths ([path/filepath] on a Unix target) *)

(** [os.IsPathSeparator] *)
Definition IsPathSeparator (c : ascii) : bool := Ascii.eqb c "/".

(** The loop of [filepath.Ext]: [i] is one more than the loop index, which
    runs down from [len(path)-1] while the byte is not a separator. *)
Fixpoint Ext_loop (path : string) (i : nat) : string :=
  match i with
  | O => ""
  | S j =>
      match get j path with
      | Some c =>
          if IsPathSeparator c then ""
          else if Ascii.eqb c "." then drop j path
          else Ext_loop path j
      | None => ""
      end
  end.

Definition Ext (path : string) : string := Ext_loop path (length path).

(** [for len(path) > 0 && os.IsPathSeparator(path[len(path)-1])
      { path = path[0 : len(path)-1] }] with [n = len(path)] *)
Fixpoint stripTrailingSeparators (path : string) (n : nat) : string :=
  match n with
  | O => ""
  | S j =>
      match get j path with
      | Some c =>
          if IsPathSeparator c then stripTrailingSeparators path j
          else take n path
      | None => take n path
      end
  end.

(** [i := len(path)-1; for i >= 0 && !os.IsPathSeparator(path[i]) { i-- };
     if i >= 0 { path = path[i+1:] }]; the argument is [i+1]. *)
Fixpoint lastElement (path : string) (i : nat) : string :=
  match i with
  | O => path
  | S j =>
      match get j path with
      | Some c => if IsPathSeparator c then drop i path else lastElement path j
      | None => path
      end
  end.

(** [filepath.Base]; the volume name is empty on Unix. *)
Definition Base (path : string) : string :=
  match path with
  | EmptyString => "."
  | _ =>
      let path := stripTrailingSeparators path (length path) in
      let path := lastElement path (length path) in
      match path with
      | EmptyString => "/"
      | _ => path
      end
  end.

(** ** Wall-clock readings and [Time.Format] *)

(** The fields of a [time.Time] in the local zone, as [Format] sees them. *)
Record Civil : Type := mkCivil {
  year : Z; month : Z; day : Z; hour : Z; minute : Z; second : Z
}.

Definition digit_char (d : Z) : ascii := ascii_of_nat (48 + Z.to_nat d).

(** The decimal digits of [u >= 0], most significant first, in front of
    [acc]; [fuel] bounds the number of digits (20 suffice for 64 bits). *)
Fixpoint decimal (fuel : nat) (u : Z) (acc : string) : string :=
  match fuel with
  | O => acc
  | S f =>
      let acc' := String (digit_char (u mod 10)) acc in
      if (u <? 10)%Z then acc' else decimal f (u / 10) acc'
  end.

Fixpoint zeros (n : nat) : string :=
  match n with
  | O => ""
  | S n' => String "0" (zeros n')
  end.

(** [appendInt(b, x, width)] of package [time]: sign, zero padding to
    [width] digits, digits. *)
Definition appendInt (x : Z) (width : nat) : string :=
  let u := Z.abs x in
  let ds := decimal 20 u "" in
  (if (x <? 0)%Z then "-" else "") ++ zeros (width - length ds) ++ ds.

(** [t.Format("20060102_150405")] *)
Definition Format_stamp (t : Civil) : string :=
  appendInt (year t) 4 ++ appendInt (month t) 2 ++ appendInt (day t) 2
  ++ "_" ++ appendInt (hour t) 2 ++ appendInt (minute t) 2
  ++ appendInt (second t) 2.

(** ** [generateFileName]

    [now] is the reading of [time.Now()] taken by the function. *)
Definition generateFileName (now : Civil) (sourcePath : string) (isDir : bool)
    : string :=
  let timeStamp := Format_stamp now in
  let fileName := Base sourcePath in
  if isDir then
    fileName ++ "_" ++ timeStamp ++ ".zip"
  else
    let ext := Ext fileName in
    let nameWithoutExt := take (length fileName - length ext) fileName in
    nameWithoutExt ++ "_" ++ timeStamp ++ ext.

(** ** Small string helpers of package [strings] *)

(** [strings.TrimLeft(s, string(c))] *)
Fixpoint TrimLeft_byte (c : ascii) (s : string) : string :=
  match s with
  | EmptyString => ""
  | String x r => if Ascii.eqb x c then TrimLeft_byte c r else s
  end.

(** [strings.TrimRight(s, string(c))] *)
Fixpoint TrimRight_byte (c : ascii) (s : string) : string :=
  match s with
  | EmptyString => ""
  | String x r =>
      match TrimRight_byte c r with
      | EmptyString => if Ascii.eqb x c then "" else String x ""
      | r' => String x r'
      end
  end.

(** [strings.Trim(s, "/")] *)
Definition Trim_slash (s : string) : string :=
  TrimRight_byte "/" (TrimLeft_byte "/" s).

Definition HasSuffix (s suffix : string) : bool :=
  (length suffix <=? length s)%nat
  && String.eqb (drop (length s - length suffix) s) suffix.

Definition TrimPrefix (s p : string) : string :=
  if String.prefix p s then drop (length p) s else s.

(** [strings.Split(s, string(sep))] *)
Fixpoint Split_byte (sep : ascii) (s : string) : list string :=
  match s with
  | EmptyString => [""]
  | String c r =>
      if Ascii.eqb c sep then "" :: Split_byte sep r
      else
        match Split_byte sep r with
        | h :: t => String c h :: t
        | [] => [String c ""]
        end
  end.

(** ** [strconv.Atoi] *)

Definition digit_val (c : ascii) : Z := Z.of_nat (byte_of c) - 48.

Fixpoint decimal_value (s : string) (acc : Z) : Z :=
  match s with
  | EmptyString => acc
  | String c r => decimal_value r (acc * 10 + digit_val c)
  end.

Definition min_int64 : Z := - 2 ^ 63.
Definition max_int64 : Z := 2 ^ 63 - 1.

(** An optional sign, then one or more decimal digits, the value within
    the range of [int]; anything else is an error ([None]). *)
Definition Atoi (s : string) : option Z :=
  let neg := match s with String "-" _ => true | _ => false end in
  let body :=
    match s with
    | String "-" r => r
    | String "+" r => r
    | _ => s
    end in
  match body with
  | EmptyString => None
  | _ =>
      if all_chars isDigit body then
        let n := decimal_value body 0 in
        let v := if neg then (- n)%Z else n in
        if ((min_int64 <=? v) && (v <=? max_int64))%Z then Some v else None
      else None
  end.

(** Wrap-around of 64-bit signed arithmetic. *)
Definition wrap64 (z : Z) : Z := ((z + 2 ^ 63) mod 2 ^ 64 - 2 ^ 63)%Z.

(** ** [time.ParseInLocation("20060102_150405", value, time.Local)]

    The layout splits into the chunks [2006], [01], [02], the literal
    [_], [15], [04] and [05].  The parser reads them in turn, checks each
    range as it goes and the day of the month at the end, and rejects
    text left over. *)

(** [getnum(s, fixed)] *)
Definition getnum (s : string) (fixed : bool) : option (Z * string) :=
  match s with
  | String a r =>
      if isDigit a then
        match r with
        | String b r' =>
            if isDigit b then Some ((digit_val a * 10 + digit_val b)%Z, r')
            else if fixed then None else Some (digit_val a, r)
        | EmptyString => if fixed then None else Some (digit_val a, r)
        end
      else None
  | EmptyString => None
  end.

(** The leading decimal digits of [s] and what follows them. *)
Fixpoint span_digits (s : string) : string * string :=
  match s with
  | String c r =>
      if isDigit c then let (d, rest) := span_digits r in (String c d, rest)
      else ("", s)
  | EmptyString => ("", "")
  end.

(** The year chunk: [len(value) >= 4], a digit first, and [atoi] of
    the four bytes, which fails unless all four are digits. *)
Definition getyear (value : string) : option (Z * string) :=
  if (4 <=? length value)%nat then
    let p := take 4 value in
    if all_chars isDigit p then Some (decimal_value p 0, drop 4 value)
    else None
  else None.

Definition commaOrPeriod (c : ascii) : bool :=
  Ascii.eqb c "." || Ascii.eqb c ",".

(** After the seconds: a fractional second in the text is accepted
    although the layout has none.  Returns the nanoseconds and the rest;
    [parseNanoseconds] keeps at most nine digits and scales them. *)
Definition fraction (value : string) : Z * string :=
  match value with
  | String c0 (String c1 r) =>
      if commaOrPeriod c0 && isDigit c1 then
        let (ds, rest) := span_digits (String c1 r) in
        let kept := take 9 ds in
        ((decimal_value kept 0 * 10 ^ Z.of_nat (9 - length kept))%Z, rest)
      else (0%Z, value)
  | _ => (0%Z, value)
  end.

Definition isLeap (y : Z) : bool :=
  ((y mod 4 =? 0) && (negb (y mod 100 =? 0) || (y mod 400 =? 0)))%Z.

Definition daysIn (m y : Z) : Z :=
  if ((m =? 2) && isLeap y)%Z then 29%Z
  else if (m =? 2)%Z then 28%Z
  else if ((m =? 4) || (m =? 6) || (m =? 9) || (m =? 11))%Z then 30%Z
  else 31%Z.

(** The fields read from a timestamp, with the nanoseconds. *)
Definition parse_fields (value : string) : option (Civil * Z) :=
  match getyear value with
  | None => None
  | Some (y, value) =>
  match getnum value true with
  | None => None
  | Some (mo, value) =>
  if ((mo <=? 0) || (12 <? mo))%Z then None else
  match getnum value true with
  | None => None
  | Some (d, value) =>
  match value with
  | String "_" value =>
  match getnum value false with
  | None => None
  | Some (h, value) =>
  if ((h <? 0) || (24 <=? h))%Z then None else
  match getnum value true with
  | None => None
  | Some (mi, value) =>
  if ((mi <? 0) || (60 <=? mi))%Z then None else
  match getnum value true with
  | None => None
  | Some (s, value) =>
  if ((s <? 0) || (60 <=? s))%Z then None else
  let (nsec, value) := fraction value in
  match value with
  | EmptyString =>
      if ((d <? 1) || (daysIn mo y <? d))%Z then None
      else Some (mkCivil y mo d h mi s, nsec)
  | String _ _ => None
  end end end end
  | _ => None
  end end end end.

(** Days from 1970-01-01 to the given day of the proleptic Gregorian
    calendar. *)
Definition days_from_civil (y m d : Z) : Z :=
  (let y' := if m <=? 2 then y - 1 else y in
   let era := y' / 400 in
   let yoe := y' - era * 400 in
   let mp := if 2 <? m then m - 3 else m + 9 in
   let doy := (153 * mp + 2) / 5 + d - 1 in
   let doe := yoe * 365 + yoe / 4 - yoe / 100 + doy in
   era * 146097 + doe - 719468)%Z.

(** Seconds from 1970-01-01 00:00:00 on the calendar the fields are
    read in. *)
Definition wall_seconds (t : Civil) : Z :=
  (days_from_civil (year t) (month t) (day t) * 86400
   + hour t * 3600 + minute t * 60 + second t)%Z.

(** ** Durations and [float64] *)

Definition Nanosecond : Z := 1.
Definition Second : Z := 1000000000.
Definition Hour : Z := (3600 * Second)%Z.

Definition minDuration : Z := min_int64.
Definition maxDuration : Z := max_int64.

(** [t.Sub(u)] for instants in nanoseconds: the difference, or the
    extreme duration when it does not fit. *)
Definition Sub (t u : Z) : Z :=
  let d := (t - u)%Z in
  if (d <? minDuration)%Z then minDuration
  else if (maxDuration <? d)%Z then maxDuration
  else d.

Definition float64 : Type := spec_float.
Definition prec : Z := 53.
Definition emax : Z := 1024.

(** [float64(z)] for an integer [z] *)
Definition float64_of_int (z : Z) : float64 := binary_normalize prec emax z 0 false.
Definition f64_add (x y : float64) : float64 := SFadd prec emax x y.
Definition f64_div (x y : float64) : float64 := SFdiv prec emax x y.
Definition f64_gt (x y : float64) : bool := SFltb y x.

(** [d.Hours()]:
    [hour := d / Hour; nsec := d % Hour;
     return float64(hour) + float64(nsec)/(60*60*1e9)] *)
Definition Hours (d : Z) : float64 :=
  let hour := Z.quot d Hour in
  let nsec := Z.rem d Hour in
  f64_add (float64_of_int hour)
          (f64_div (float64_of_int nsec) (float64_of_int 3600000000000)).

(** [age.Hours() > float64(maxDays*24)] *)
Definition older_than (age : Z) (maxDays : Z) : bool :=
  f64_gt (Hours age) (float64_of_int (wrap64 (maxDays * 24))).

(** ** [isWhitelisted] *)

Fixpoint isWhitelisted (prefix : string) (whitelist : list string) : bool :=
  match whitelist with
  | [] => false
  | allowedPrefix :: rest =>
      if String.eqb prefix allowedPrefix then true
      else isWhitelisted prefix rest
  end.

(** ** What a cleanup pass prints and calls *)

Inductive message : Type :=
| MsgParseWarning (timeStamp : string)         (* 警告: 时间戳解析失败 *)
| MsgDebugAge (parsedTime now : Z) (older : bool)   (* 调试: 文件时间 ... *)
| MsgDeleted (cosPath : string)                (* 已删除文件 *)
| MsgCleanupStart                              (* === 开始执行定时清理 === *)
| MsgConfig (cleanupDays : Z) (whitelist : list string)   (* 清理配置 *)
| MsgListError                                 (* 错误: 获取COS文件列表失败 *)
| MsgFound (n : nat)                           (* 发现 n 个文件需要检查 *)
| MsgSkipForeign (fileName : string)           (* 跳过非程序上传文件 *)
| MsgNotExpired (fileName : string)            (* 文件未超过保留天数 *)
| MsgWhitelisted (fileName : string)           (* 文件在白名单中，跳过删除 *)
| MsgDeleting (fileName prefix timeStamp : string)   (* 删除过期文件 *)
| MsgDeleteFailed (cosPath : string)           (* 删除失败 *)
| MsgCleanupDone (deletedCount : nat).         (* === 清理完成 === *)

Inductive event : Type :=
| Printf (m : message)
| BucketGet (prefix : string)                (* client.Bucket.Get *)
| ObjectDelete (key : string) (ok : bool).   (* client.Object.Delete and
                                                whether it returned no error *)

(** The object key [deleteCOSFile] builds for a file name. *)
Definition cosPath_of (dirPath fileName : string) : string :=
  if String.eqb dirPath "" then fileName
  else Trim_slash dirPath ++ "/" ++ fileName.

(** ** The cleanup pass

    What lies outside the program is a parameter: the bucket behind the
    COS client, the process environment, the zone [time.Local], the clock
    and [strings.TrimSpace]. *)
Section Cleanup.

(** The state of the bucket. *)
Variable Store : Type.
(** [client.Bucket.Get] with the given prefix: the keys of the listing,
    or [None] for an error. *)
Variable Bucket_Get : Store -> string -> option (list string).
(** [client.Object.Delete]: the bucket afterwards and whether the call
    returned without error. *)
Variable Object_Delete : Store -> string -> Store * bool.
(** [os.Getenv] *)
Variable Getenv : string -> string.
(** [strings.TrimSpace] *)
Variable TrimSpace : string -> string.
(** The Unix time, in seconds, at which the clocks of [time.Local] show
    the given wall-clock second. *)
Variable Local : Z -> Z.
(** The successive readings of [time.Now()], in nanoseconds of Unix
    time. *)
Variable clock : nat -> Z.

Record World : Type := mkWorld {
  bucket : Store;          (* the remote bucket *)
  reads : nat;             (* how often the clock has been read *)
  trace : list event       (* output and API calls so far, oldest first *)
}.

Definition M (A : Type) : Type := World -> A * World.

Definition ret {A : Type} (a : A) : M A := fun w => (a, w).

Definition bind {A B : Type} (m : M A) (f : A -> M B) : M B :=
  fun w => let (a, w') := m w in f a w'.

Notation "x <- m ;; k" := (bind m (fun x => k))
  (at level 61, m at next level, right associativity).
Notation "m ;;; k" := (bind m (fun _ => k))
  (at level 61, right associativity).

Definition emit (e : event) : M unit :=
  fun w => (tt, mkWorld (bucket w) (reads w) (trace w ++ [e])).

Definition printf (m : message) : M unit := emit (Printf m).

(** [time.Now()] *)
Definition time_Now : M Z :=
  fun w => (clock (reads w), mkWorld (bucket w) (S (reads w)) (trace w)).

(** [time.ParseInLocation("20060102_150405", timeStamp, time.Local)]:
    the instant in nanoseconds of Unix time, or [None] for an error. *)
Definition ParseInLocation (timeStamp : string) : option Z :=
  match parse_fields timeStamp with
  | None => None
  | Some (t, nsec) => Some (Local (wall_seconds t) * Second + nsec)%Z
  end.

Definition isFileOlderThanDays (timeStamp : string) (maxDays : Z) : M bool :=
  match ParseInLocation timeStamp with
  | None =>
      printf (MsgParseWarning timeStamp) ;;;
      ret false
  | Some parsedTime =>
      now <- time_Now ;;
      let age := Sub now parsedTime in
      let older := older_than age maxDays in
      (if (maxDays =? 0)%Z then printf (MsgDebugAge parsedTime now older)
       else ret tt) ;;;
      ret older
  end.

Definition getWhiteList : list string :=
  let whitelistStr := Getenv "CLEANUP_WHITELIST" in
  if String.eqb whitelistStr "" then []
  else
    filter (fun trimmed => negb (String.eqb trimmed ""))
           (map TrimSpace (Split_byte "," whitelistStr)).

Definition listCOSFiles (dirPath : string) : M (option (list string)) :=
  let prefix := Trim_slash dirPath ++ "/" in
  emit (BucketGet prefix) ;;;
  fun w =>
    match Bucket_Get (bucket w) prefix with
    | None => (None, w)
    | Some keys =>
        (Some (map (fun key => TrimPrefix key (Trim_slash dirPath ++ "/"))
                   (filter (fun key => negb (HasSuffix key "/")) keys)), w)
    end.

Definition call_Object_Delete (key : string) : M bool :=
  fun w =>
    let (b, ok) := Object_Delete (bucket w) key in
    (ok, mkWorld b (reads w) (trace w ++ [ObjectDelete key ok])).

(** Returns [true] for a [nil] error. *)
Definition deleteCOSFile (dirPath fileName : string) : M bool :=
  let cosPath := cosPath_of dirPath fileName in
  ok <- call_Object_Delete cosPath ;;
  if ok then
    printf (MsgDeleted cosPath) ;;;
    ret true
  else ret false.

(** The body of the loop of [performCleanup] for one file name; the
    result is the new value of [deletedCount]. *)
Definition cleanupFile (targetDir : string) (cleanupDays : Z)
    (whitelist : list string) (deletedCount : nat) (fileName : string)
    : M nat :=
  let '(prefix, timeStamp, isOurFormat) := parseFileName fileName in
  if negb isOurFormat then
    printf (MsgSkipForeign fileName) ;;;
    ret deletedCount
  else
    older <- isFileOlderThanDays timeStamp cleanupDays ;;
    if negb older then
      printf (MsgNotExpired fileName) ;;;
      ret deletedCount
    else if isWhitelisted prefix whitelist then
      printf (MsgWhitelisted fileName) ;;;
      ret deletedCount
    else
      printf (MsgDeleting fileName prefix timeStamp) ;;;
      ok <- deleteCOSFile targetDir fileName ;;
      if ok then ret (S deletedCount)
      else
        printf (MsgDeleteFailed (cosPath_of targetDir fileName)) ;;;
        ret deletedCount.

(** [for _, fileName := range fileNames { ... }] *)
Fixpoint cleanupLoop (targetDir : string) (cleanupDays : Z)
    (whitelist : list string) (fileNames : list string)
    (deletedCount : nat) : M nat :=
  match fileNames with
  | [] => ret deletedCount
  | fileName :: rest =>
      n <- cleanupFile targetDir cleanupDays whitelist deletedCount fileName ;;
      cleanupLoop targetDir cleanupDays whitelist rest n
  end.

(** The retention threshold of a pass: [CLEANUP_DAYS], or 7. *)
Definition cleanupDays_of_env : Z :=
  let cleanupDaysStr := Getenv "CLEANUP_DAYS" in
  if String.eqb cleanupDaysStr "" then 7%Z
  else
    match Atoi cleanupDaysStr with
    | Some days => days
    | None => 7%Z
    end.

Definition performCleanup (targetDir : string) : M unit :=
  let cleanupEnabled := Getenv "CLEANUP_ENABLED" in
  if negb (String.eqb cleanupEnabled "true") then ret tt
  else
    printf MsgCleanupStart ;;;
    let cleanupDays := cleanupDays_of_env in
    let whitelist := getWhiteList in
    printf (MsgConfig cleanupDays whitelist) ;;;
    listing <- listCOSFiles targetDir ;;
    match listing with
    | None => printf MsgListError
    | Some fileNames =>
        printf (MsgFound (List.length fileNames)) ;;;
        deletedCount <-
          cleanupLoop targetDir cleanupDays whitelist fileNames 0 ;;
        printf (MsgCleanupDone deletedCount)
    end.

End Cleanup.

Arguments mkWorld {Store} _ _ _.
Arguments bucket {Store} _.
Arguments reads {Store} _.
Arguments trace {Store} _.

(** The world after [k] more readings of the clock and the events [evs],
    the bucket untouched. *)
Definition extend {Store : Type} (w : World Store) (k : nat)
    (evs : list event) : World Store :=
  mkWorld (bucket w) (k + reads w) (trace w ++ evs).

(** ** The vocabulary of the specification *)

Definition no_newline (s : string) : bool :=
  all_chars (fun c => negb (Ascii.eqb c newline)) s.

(** [YYYYMMDD_HHMMSS] as a shape: eight digits, an underscore, six
    digits. *)
Definition is_timestamp (t : string) : bool :=
  (length t =? 15)%nat
  && all_chars isDigit (take 8 t)
  && String.eqb (slice t 8 9) "_"
  && all_chars isDigit (drop 9 t).

(** [s] is [<prefix>_<timestamp>.<ext>], the way the canonical pattern
    [^(.+?)_(\d{8}_\d{6})\..+$] can split it. *)
Definition canonical (s prefix timeStamp ext : string) : Prop :=
  s = prefix ++ "_" ++ timeStamp ++ "." ++ ext
  /\ prefix <> ""
  /\ no_newline prefix = true
  /\ is_timestamp timeStamp = true
  /\ ext <> ""
  /\ no_newline ext = true.

Definition matches_pattern (s : string) : Prop :=
  exists prefix timeStamp ext, canonical s prefix timeStamp ext.

(** [s] starts with an underscore followed by a timestamp shape. *)
Definition stamp_at (s : string) : bool :=
  String.eqb (take 1 s) "_" && is_timestamp (slice s 1 16).

(** Some part of [s] is an underscore followed by a timestamp shape. *)
Fixpoint contains_stamp (s : string) : bool :=
  stamp_at s
  || match s with
     | EmptyString => false
     | String _ s' => contains_stamp s'
     end.

(** The fields a timestamp shape spells out. *)
Definition fields_of (t : string) : Civil :=
  mkCivil (decimal_value (slice t 0 4) 0)
          (decimal_value (slice t 4 6) 0)
          (decimal_value (slice t 6 8) 0)
          (decimal_value (slice t 9 11) 0)
          (decimal_value (slice t 11 13) 0)
          (decimal_value (slice t 13 15) 0).

Definition month_length (y m : Z) : Z :=
  nth (Z.to_nat (m - 1))
      [31; if isLeap y then 29 else 28; 31; 30; 31; 30;
       31; 31; 30; 31; 30; 31]%Z 0%Z.

(** A date and time of day that exists. *)
Definition valid_civil (t : Civil) : bool :=
  ((1 <=? month t) && (month t <=? 12)
   && (1 <=? day t) && (day t <=? month_length (year t) (month t))
   && (0 <=? hour t) && (hour t <=? 23)
   && (0 <=? minute t) && (minute t <=? 59)
   && (0 <=? second t) && (second t <=? 59))%Z.

(** A wall-clock reading [Format] renders in the fifteen characters of a
    timestamp. *)
Definition four_digit_year (t : Civil) : bool :=
  ((0 <=? year t) && (year t <=? 9999))%Z.

Inductive reason : Type :=
| unrecognized_format
| within_retention_window
| whitelisted.

Inductive CleanupDecision : Type :=
| Skip (r : reason)
| Delete.

(** The classification in the words of the specification: three checks
    in this order, each one short-circuiting. *)
Definition classify (recognized exceeds_threshold on_whitelist : bool)
    : CleanupDecision :=
  if negb recognized then Skip unrecognized_format
  else if negb exceeds_threshold then Skip within_retention_window
  else if on_whitelist then Skip whitelisted
  else Delete.

(** Whether the age of the artifact stamped [timeStamp] exceeds
    [maxDays] at the instant [now]; an unreadable timestamp has no age
    and exceeds nothing. *)
Definition age_exceeds (Local : Z -> Z) (timeStamp : string) (maxDays : Z)
    (now : Z) : bool :=
  match ParseInLocation Local timeStamp with
  | Some parsedTime => older_than (Sub now parsedTime) maxDays
  | None => false
  end.

(** What the age test prints before it answers. *)
Definition age_notes (Local : Z -> Z) (timeStamp : string) (maxDays : Z)
    (now : Z) : list event :=
  match ParseInLocation Local timeStamp with
  | None => [Printf (MsgParseWarning timeStamp)]
  | Some parsedTime =>
      if (maxDays =? 0)%Z
      then [Printf (MsgDebugAge parsedTime now
                      (older_than (Sub now parsedTime) maxDays))]
      else []
  end.

(** How often the age test reads the clock. *)
Definition age_reads (Local : Z -> Z) (timeStamp : string) : nat :=
  match ParseInLocation Local timeStamp with
  | None => 0
  | Some _ => 1
  end.

(** The decision a line of the output announces for a file. *)
Definition announced (e : event) : option (string * CleanupDecision) :=
  match e with
  | Printf (MsgSkipForeign f) => Some (f, Skip unrecognized_format)
  | Printf (MsgNotExpired f) => Some (f, Skip within_retention_window)
  | Printf (MsgWhitelisted f) => Some (f, Skip whitelisted)
  | Printf (MsgDeleting f _ _) => Some (f, Delete)
  | _ => None
  end.

Fixpoint decisions (evs : list event) : list (string * CleanupDecision) :=
  match evs with
  | [] => []
  | e :: rest =>
      match announced e with
      | Some d => d :: decisions rest
      | None => decisions rest
      end
  end.

(** The deletions a trace attempted, each with its result. *)
Fixpoint attempts (evs : list event) : list (string * bool) :=
  match evs with
  | [] => []
  | ObjectDelete key ok :: rest => (key, ok) :: attempts rest
  | _ :: rest => attempts rest
  end.

Definition is_delete (d : CleanupDecision) : bool :=
  match d with
  | Delete => true
  | Skip _ => false
  end.

(** The files a trace announced a deletion for. *)
Definition marked (evs : list event) : list string :=
  map fst (filter (fun d => is_delete (snd d)) (decisions evs)).

(** The listings a trace asked for. *)
Fixpoint listings (evs : list event) : list string :=
  match evs with
  | [] => []
  | BucketGet prefix :: rest => prefix :: listings rest
  | _ :: rest => listings rest
  end.

Definition succeeded (a : list (string * bool)) : list string :=
  map fst (filter snd a).

(** ** A small world to run the pass in *)

(** A bucket as the list of its keys; keys that start with [locked/]
    refuse deletion. *)
Definition demo_Store : Type := list string.

Definition demo_Bucket_Get (b : demo_Store) (prefix : string)
    : option (list string) :=
  Some (filter (String.prefix prefix) b).

Definition demo_Object_Delete (b : demo_Store) (key : string)
    : demo_Store * bool :=
  if String.prefix "locked/" key then (b, false)
  else (filter (fun k => negb (String.eqb k key)) b, true).

Definition demo_Getenv (name : string) : string :=
  if String.eqb name "CLEANUP_ENABLED" then "true"
  else if String.eqb name "CLEANUP_DAYS" then "1"
  else if String.eqb name "CLEANUP_WHITELIST" then "keep, nightly"
  else "".

Definition demo_TrimSpace (s : string) : string :=
  TrimRight_byte " " (TrimLeft_byte " " s).

(** An environment without [CLEANUP_ENABLED=true]: the value is [TRUE]. *)
Definition demo_Getenv_off (name : string) : string :=
  if String.eqb name "CLEANUP_ENABLED" then "TRUE"
  else demo_Getenv name.

(** [CLEANUP_DAYS] is not a number. *)
Definition demo_Getenv_bad_days (name : string) : string :=
  if String.eqb name "CLEANUP_DAYS" then "7 days"
  else demo_Getenv name.

(** [CLEANUP_DAYS] is negative. *)
Definition demo_Getenv_negative (name : string) : string :=
  if String.eqb name "CLEANUP_DAYS" then "-1"
  else demo_Getenv name.

(** A bucket with an artifact of the year 2020, a recent one, a foreign
    file and one whose timestamp names month 13. *)
Definition demo_bucket : demo_Store :=
  [ "bk/backup_20200101_000000.zip"; "bk/x_20251021_095000.log";
    "bk/notes.txt"; "bk/x_20251320_095000.log" ].

Definition demo_world : World demo_Store := mkWorld demo_bucket 0 [].

(** UTC *)
Definition demo_Local (wall : Z) : Z := wall.

(** Every reading is 2025-10-21 10:00:00. *)
Definition demo_clock (n : nat) : Z :=
  (wall_seconds (mkCivil 2025 10 21 10 0 0) * Second)%Z.

(** ** Auxiliary definitions of the proofs *)

(** The pattern after its lazy group. *)
Definition re_tail : list inst :=
  [ Cap 3;
    Repeat 1 (Lit "_");
    Cap 4; Repeat 8 Digit; Repeat 1 (Lit "_"); Repeat 6 Digit; Cap 5;
    Repeat 1 (Lit "."); PlusGreedy AnyCharNotNL;
    EndText; Cap 1 ].

(** [r] is [_<timestamp>.<ext>] with a non-empty [ext] free of newlines:
    what the pattern asks of the text after its lazy group. *)
Definition tail_ok (r : string) : bool :=
  stamp_at r
  && String.eqb (slice r 16 17) "."
  && negb (String.eqb (drop 17 r) "")
  && no_newline (drop 17 r).

(** [x] is a zero, an infinity or a finite number of the sign [sx]. *)
Definition signed (sx : bool) (x : spec_float) : Prop :=
  x = S754_zero sx \/ x = S754_infinity sx
  \/ exists m e, x = S754_finite sx m e.

(** [s] is [w] decimal digits. *)
Definition digits_of_width (w : nat) (s : string) : bool :=
  (length s =? w)%nat && all_chars isDigit s.

(** The length of the shortest non-empty prefix free of newlines after
    which [tail_ok] holds. *)
Fixpoint scan (s : string) : option nat :=
  match s with
  | EmptyString => None
  | String x s' =>
      if negb (Ascii.eqb x newline) then
        if tail_ok s' then Some 1 else option_map S (scan s')
      else None
  end.

(** * The rest of the program *)

(** ** [parseSourcePaths] *)

Definition parseSourcePaths (TrimSpace : string -> string)
    (sourceFolders : string) : list string :=
  let paths := Split_byte "," sourceFolders in
  filter (fun trimmedPath => negb (String.eqb trimmedPath ""))
         (map TrimSpace paths).

(** ** [getNextCleanupTime] *)

Inductive cleanup_time_error : Type :=
| CleanupTimeUnset                          (* CLEANUP_TIME未配置 *)
| CleanupTimeFormat (cleanupTime : string)  (* CLEANUP_TIME格式错误 *)
| CleanupTimeParse (err1 err2 : bool).      (* CLEANUP_TIME解析失败, with
                                               whether each part failed *)

Definition is_error {A : Type} (r : option A) : bool :=
  match r with
  | Some _ => false
  | None => true
  end.

Section Schedule.

Variable Store : Type.
Variable Getenv : string -> string.
Variable clock : nat -> Z.
(** [time.Date(now.Year(), now.Month(), now.Day(), hour, minute, 0, 0,
    now.Location())]: the instant, in nanoseconds of Unix time, that the
    day [now] falls on has at the given hour and minute, both taken as
    [time.Date] normalizes them. *)
Variable Date_today : Z -> Z -> Z -> Z.

Notation "x <- m ;; k" := (bind Store m (fun x => k))
  (at level 61, m at next level, right associativity).

Definition getNextCleanupTime : M Store (cleanup_time_error + Z) :=
  let cleanupTime := Getenv "CLEANUP_TIME" in
  if String.eqb cleanupTime "" then ret Store (inl CleanupTimeUnset)
  else
    let parts := Split_byte ":" cleanupTime in
    if negb (List.length parts =? 2)%nat
    then ret Store (inl (CleanupTimeFormat cleanupTime))
    else
      match Atoi (nth 0 parts ""), Atoi (nth 1 parts "") with
      | Some hour, Some minute =>
          now <- time_Now Store clock ;;
          let cleanupToday := Date_today now hour minute in
          if (cleanupToday <? now)%Z
          then ret Store (inr (cleanupToday + 24 * Hour)%Z)
          else ret Store (inr cleanupToday)
      | err1, err2 =>
          ret Store (inl (CleanupTimeParse (is_error err1) (is_error err2)))
      end.

End Schedule.

(** [s] has no byte [sep]. *)
Definition sep_free (sep : ascii) (s : string) : bool :=
  all_chars (fun c => negb (Ascii.eqb c sep)) s.

(** ** The backup half: what lies outside the program *)

(** What [os.Stat] answers: an error [os.IsNotExist] recognizes, another
    error, or the file information with its [IsDir()]. *)
Inductive stat_result : Type :=
| StatNotExist
| StatFailed
| StatInfo (isDir : bool).

(** What [client.Object.Head] answers: a response with its
    [ContentLength], an error [cos.IsNotFoundError] recognizes, or another
    error. *)
Inductive head_result : Type :=
| HeadFound (contentLength : Z)
| HeadNotFound
| HeadFailed.

(** The machine the backup runs on: the bucket behind the COS client, the
    local file system, the environment and the clock.  [zipFolder] writes
    an archive through packages [archive/zip] and [path/filepath]; here it
    is the change it makes to the file system and whether it returned
    without error. *)
Record Machine : Type := mkMachine {
  Bucket : Type;
  Disk : Type;
  os_Getenv : string -> string;
  strings_TrimSpace : string -> string;
  (** the successive readings of [time.Now()], as [Format] shows them *)
  time_Now_wall : nat -> Civil;
  os_Stat : Disk -> string -> stat_result;
  os_TempDir : string;
  filepath_Join : string -> string -> string;
  zipFolder : Disk -> string -> string -> Disk * bool;
  os_Remove : Disk -> string -> Disk * bool;
  Object_Head : Bucket -> string -> head_result;
  (** [client.Object.Put] of the given content *)
  Object_Put : Bucket -> string -> string -> Bucket * bool;
  (** [client.Object.PutFromFile] of the given local file *)
  Object_PutFromFile : Bucket -> Disk -> string -> string -> Bucket * bool
}.

Inductive backup_message : Type :=
| MsgDirExists (cleanPath : string)             (* 目录已存在 *)
| MsgDirCreating (cleanPath : string)           (* 目录不存在，正在创建 *)
| MsgDirCreated (cleanPath : string)            (* 目录创建成功 *)
| MsgBackupStart                                (* === 开始执行备份 === *)
| MsgNoSourceFolder                             (* 警告: SOURCEFOLDER未配置 *)
| MsgPathCount (n : nat)                        (* 发现 n 个路径需要处理 *)
| MsgPathItem (i : nat) (path : string)         (*   i. path *)
| MsgProcessing (sourcePath : string)           (* --- 处理: ... --- *)
| MsgPathMissing (sourcePath : string)          (* 错误: 路径不存在 *)
| MsgStatFailed                                 (* 错误: 检查路径类型失败 *)
| MsgZipping (sourcePath localFilePath : string)  (* 开始压缩文件夹 *)
| MsgZipFailed                                  (* 错误: 压缩文件夹失败 *)
| MsgZipped (localFilePath : string)            (* 文件夹压缩成功 *)
| MsgDirectUpload (sourcePath : string)         (* 直接上传文件 *)
| MsgUploading (localFilePath cosPath : string) (* 开始上传文件 *)
| MsgUploadFailed                               (* 错误: 上传文件失败 *)
| MsgUploaded (cosPath : string)                (* 文件上传成功 *)
| MsgVerifyFailed                               (* 警告: 验证上传文件失败 *)
| MsgVerified (contentLength : Z)               (* 文件验证成功，大小 *)
| MsgRemoveFailed (tempFile : string)           (* 警告: 删除临时文件失败 *)
| MsgBackupDone                                 (* === 备份完成 === *)
| MsgTotal (n : nat)                            (* 总路径数 *)
| MsgSucceeded (n : nat)                        (* 成功上传 *)
| MsgFailed (n : Z).                            (* 失败数量 *)

Inductive backup_event : Type :=
| Say (m : backup_message)
| CallHead (key : string)                       (* client.Object.Head *)
| CallPut (key content : string) (ok : bool)    (* client.Object.Put *)
| CallZipFolder (source target : string) (ok : bool)
| CallPutFromFile (cosPath localFilePath : string) (ok : bool)
| CallRemove (path : string) (ok : bool).       (* os.Remove *)

Inductive directory_error : Type :=
| ErrCreateDirectory       (* 创建目录失败 *)
| ErrCheckDirectory.       (* 检查目录失败 *)

(** The object key [performBackup] uploads a file name to. *)
Definition uploadPath (targetDir cosFileName : string) : string :=
  if String.eqb targetDir "" then cosFileName
  else
    let cleanDir := TrimRight_byte "/" targetDir in
    let cleanFileName := TrimLeft_byte "/" cosFileName in
    cleanDir ++ "/" ++ cleanFileName.

Section Backup.

Variable m : Machine.

Record State : Type := mkState {
  disk : Disk m;                 (* the local file system *)
  objects : Bucket m;            (* the remote bucket *)
  readings : nat;                (* how often the clock has been read *)
  output : list backup_event     (* output and calls so far, oldest first *)
}.

Definition B (A : Type) : Type := State -> A * State.

Definition unit_B {A : Type} (a : A) : B A := fun s => (a, s).

Definition bind_B {A C : Type} (c : B A) (f : A -> B C) : B C :=
  fun s => let (a, s') := c s in f a s'.

Notation "x <- c ;; k" := (bind_B c (fun x => k))
  (at level 61, c at next level, right associativity).
Notation "c ;;; k" := (bind_B c (fun _ => k))
  (at level 61, right associativity).

Definition record (e : backup_event) : B unit :=
  fun s => (tt, mkState (disk s) (objects s) (readings s) (output s ++ [e])).

Definition print (msg : backup_message) : B unit := record (Say msg).

Definition call_Head (key : string) : B head_result :=
  fun s =>
    (Object_Head m (objects s) key,
     mkState (disk s) (objects s) (readings s) (output s ++ [CallHead key])).

Definition call_Put (key content : string) : B bool :=
  fun s =>
    let (b, ok) := Object_Put m (objects s) key content in
    (ok, mkState (disk s) b (readings s)
           (output s ++ [CallPut key content ok])).

Definition call_Stat (path : string) : B stat_result :=
  fun s => (os_Stat m (disk s) path, s).

Definition call_zipFolder (source target : string) : B bool :=
  fun s =>
    let (d, ok) := zipFolder m (disk s) source target in
    (ok, mkState d (objects s) (readings s)
           (output s ++ [CallZipFolder source target ok])).

Definition call_PutFromFile (cosPath localFilePath : string) : B bool :=
  fun s =>
    let (b, ok) :=
      Object_PutFromFile m (objects s) (disk s) cosPath localFilePath in
    (ok, mkState (disk s) b (readings s)
           (output s ++ [CallPutFromFile cosPath localFilePath ok])).

Definition call_Remove (path : string) : B bool :=
  fun s =>
    let (d, ok) := os_Remove m (disk s) path in
    (ok, mkState d (objects s) (readings s)
           (output s ++ [CallRemove path ok])).

(** [generateFileName] with the reading of the clock it takes. *)
Definition call_generateFileName (sourcePath : string) (isDir : bool)
    : B string :=
  fun s =>
    (generateFileName (time_Now_wall m (readings s)) sourcePath isDir,
     mkState (disk s) (objects s) (S (readings s)) (output s)).

(** ** [ensureCOSDirectory]; the result is the error, if any. *)
Definition ensureCOSDirectory (dirPath : string) : B (option directory_error) :=
  if String.eqb dirPath "" then unit_B None
  else
    let cleanPath := Trim_slash dirPath in
    if String.eqb cleanPath "" then unit_B None
    else
      h <- call_Head (cleanPath ++ "/") ;;
      match h with
      | HeadFound _ =>
          print (MsgDirExists cleanPath) ;;;
          unit_B None
      | HeadNotFound =>
          print (MsgDirCreating cleanPath) ;;;
          ok <- call_Put (cleanPath ++ "/") "" ;;
          if ok then
            print (MsgDirCreated cleanPath) ;;;
            unit_B None
          else unit_B (Some ErrCreateDirectory)
      | HeadFailed => unit_B (Some ErrCheckDirectory)
      end.

(** ** [performBackup] *)

(** [for i, path := range sourcePaths { fmt.Printf("  %d. %s\n", i+1, path) }],
    from index [i]. *)
Fixpoint printPaths (i : nat) (sourcePaths : list string) : B unit :=
  match sourcePaths with
  | [] => unit_B tt
  | path :: rest =>
      print (MsgPathItem (i + 1) path) ;;;
      printPaths (S i) rest
  end.

(** [isDirectory]; [None] stands for the error. *)
Definition isDirectory (path : string) : B (option bool) :=
  info <- call_Stat path ;;
  match info with
  | StatInfo isDir => unit_B (Some isDir)
  | _ => unit_B None
  end.

(** The body of the main loop for one path; the state of the loop is
    [tempFiles] and [successCount]. *)
Definition backupPath (targetDir : string) (tempFiles : list string)
    (successCount : nat) (sourcePath : string) : B (list string * nat) :=
  print (MsgProcessing sourcePath) ;;;
  info <- call_Stat sourcePath ;;
  match info with
  | StatNotExist =>
      print (MsgPathMissing sourcePath) ;;;
      unit_B (tempFiles, successCount)
  | _ =>
  isDir <- isDirectory sourcePath ;;
  match isDir with
  | None =>
      print MsgStatFailed ;;;
      unit_B (tempFiles, successCount)
  | Some isDir =>
      prepared <-
        (if isDir then
           cosFileName <- call_generateFileName sourcePath true ;;
           let localFilePath := filepath_Join m (os_TempDir m) cosFileName in
           print (MsgZipping sourcePath localFilePath) ;;;
           ok <- call_zipFolder sourcePath localFilePath ;;
           if ok then
             print (MsgZipped localFilePath) ;;;
             unit_B (Some (localFilePath, cosFileName,
                           (tempFiles ++ [localFilePath])%list))
           else
             print MsgZipFailed ;;;
             unit_B None
         else
           cosFileName <- call_generateFileName sourcePath false ;;
           print (MsgDirectUpload sourcePath) ;;;
           unit_B (Some (sourcePath, cosFileName, tempFiles))) ;;
      match prepared with
      | None => unit_B (tempFiles, successCount)
      | Some (localFilePath, cosFileName, tempFiles) =>
          let cosPath := uploadPath targetDir cosFileName in
          print (MsgUploading localFilePath cosPath) ;;;
          ok <- call_PutFromFile cosPath localFilePath ;;
          if ok then
            print (MsgUploaded cosPath) ;;;
            resp <- call_Head cosPath ;;
            match resp with
            | HeadFound contentLength => print (MsgVerified contentLength)
            | _ => print MsgVerifyFailed
            end ;;;
            unit_B (tempFiles, S successCount)
          else
            print MsgUploadFailed ;;;
            unit_B (tempFiles, successCount)
      end
  end
  end.

(** [for _, sourcePath := range sourcePaths { ... }] *)
Fixpoint backupLoop (targetDir : string) (sourcePaths : list string)
    (tempFiles : list string) (successCount : nat) : B (list string * nat) :=
  match sourcePaths with
  | [] => unit_B (tempFiles, successCount)
  | sourcePath :: rest =>
      st <- backupPath targetDir tempFiles successCount sourcePath ;;
      backupLoop targetDir rest (fst st) (snd st)
  end.

(** [for _, tempFile := range tempFiles { os.Remove(tempFile) ... }] *)
Fixpoint removeTempFiles (tempFiles : list string) : B unit :=
  match tempFiles with
  | [] => unit_B tt
  | tempFile :: rest =>
      ok <- call_Remove tempFile ;;
      (if ok then unit_B tt else print (MsgRemoveFailed tempFile)) ;;;
      removeTempFiles rest
  end.

Definition performBackup (targetDir : string) : B unit :=
  print MsgBackupStart ;;;
  let sourceFolders := os_Getenv m "SOURCEFOLDER" in
  if String.eqb sourceFolders "" then print MsgNoSourceFolder
  else
    let sourcePaths := parseSourcePaths (strings_TrimSpace m) sourceFolders in
    print (MsgPathCount (List.length sourcePaths)) ;;;
    printPaths 0 sourcePaths ;;;
    st <- backupLoop targetDir sourcePaths [] 0 ;;
    let tempFiles := fst st in
    let successCount := snd st in
    removeTempFiles tempFiles ;;;
    print MsgBackupDone ;;;
    print (MsgTotal (List.length sourcePaths)) ;;;
    print (MsgSucceeded successCount) ;;;
    print (MsgFailed (Z.of_nat (List.length sourcePaths)
                      - Z.of_nat successCount)).

End Backup.

Arguments mkState {m} _ _ _ _.
Arguments disk {m} _.
Arguments objects {m} _.
Arguments readings {m} _.
Arguments output {m} _.

(** ** The vocabulary of the backup properties *)

(** The paths a trace started to process. *)
Fixpoint processed (evs : list backup_event) : list string :=
  match evs with
  | [] => []
  | Say (MsgProcessing sourcePath) :: rest => sourcePath :: processed rest
  | _ :: rest => processed rest
  end.

(** The uploads a trace attempted: key, local file and result. *)
Fixpoint uploads (evs : list backup_event) : list (string * string * bool) :=
  match evs with
  | [] => []
  | CallPutFromFile cosPath localFilePath ok :: rest =>
      (cosPath, localFilePath, ok) :: uploads rest
  | _ :: rest => uploads rest
  end.

(** The archives a trace wrote without error. *)
Fixpoint archives (evs : list backup_event) : list string :=
  match evs with
  | [] => []
  | CallZipFolder _ target true :: rest => target :: archives rest
  | _ :: rest => archives rest
  end.

(** The local paths a trace asked [os.Remove] to delete. *)
Fixpoint removals (evs : list backup_event) : list string :=
  match evs with
  | [] => []
  | CallRemove path _ :: rest => path :: removals rest
  | _ :: rest => removals rest
  end.

(** The objects a trace put: key and content. *)
Fixpoint puts (evs : list backup_event) : list (string * string) :=
  match evs with
  | [] => []
  | CallPut key content _ :: rest => (key, content) :: puts rest
  | _ :: rest => puts rest
  end.

(** The upload [u] is that of the name generated for [sourcePath] at a
    reading of the clock: the key is where [performBackup] puts the name,
    the local file is the path itself or, for a directory, the archive
    under the temporary directory. *)
Definition upload_of (m : Machine) (targetDir sourcePath : string)
    (u : string * string * bool) : Prop :=
  exists k isDir,
    let name := generateFileName (time_Now_wall m k) sourcePath isDir in
    fst (fst u) = uploadPath targetDir name
    /\ snd (fst u) = if isDir then filepath_Join m (os_TempDir m) name
                     else sourcePath.

(** The archive [target] is that of a name generated for [sourcePath] as
    a directory, under the temporary directory. *)
Definition archive_of (m : Machine) (sourcePath target : string) : Prop :=
  exists k,
    target = filepath_Join m (os_TempDir m)
               (generateFileName (time_Now_wall m k) sourcePath true).

Definition uploaded (evs : list backup_event) : nat :=
  List.length (filter (fun u => snd u) (uploads evs)).

(** ** The vocabulary of the further properties *)

(** The calls of [client.Object.Delete] for [keys], one after the other:
    the bucket they leave and the result of each. *)
Fixpoint run_deletes {Store : Type}
    (Object_Delete : Store -> string -> Store * bool)
    (b : Store) (keys : list string) : Store * list (string * bool) :=
  match keys with
  | [] => (b, [])
  | key :: rest =>
      let (b1, ok) := Object_Delete b key in
      let (b2, results) := run_deletes Object_Delete b1 rest in
      (b2, (key, ok) :: results)
  end.

(** A file name a pass may delete: recognized, its prefix off the
    whitelist, and its age beyond the threshold at some reading of the
    clock. *)
Definition deletable (Local : Z -> Z) (clock : nat -> Z) (cleanupDays : Z)
    (whitelist : list string) (fileName : string) : Prop :=
  exists prefix timeStamp k,
    parseFileName fileName = (prefix, timeStamp, true)
    /\ isWhitelisted prefix whitelist = false
    /\ age_exceeds Local timeStamp cleanupDays (clock k) = true.

(** [x] is a zero, the negative infinity or a negative finite number. *)
Definition nonpos (x : spec_float) : Prop :=
  (exists s, x = S754_zero s) \/ signed true x.

(** ** A small machine to run the backup on *)

(** A disk as the list of its paths, each with whether it is a
    directory; directories under [/sys] cannot be archived. *)
Definition demo_Disk : Type := list (string * bool).

Definition demo_Stat (d : demo_Disk) (path : string) : stat_result :=
  match find (fun entry => String.eqb (fst entry) path) d with
  | Some (_, isDir) => StatInfo isDir
  | None => StatNotExist
  end.

Definition demo_zipFolder (d : demo_Disk) (source target : string)
    : demo_Disk * bool :=
  if String.prefix "/sys" source then (d, false)
  else ((d ++ [(target, false)])%list, true).

Definition demo_Remove (d : demo_Disk) (path : string) : demo_Disk * bool :=
  (filter (fun entry => negb (String.eqb (fst entry) path)) d,
   existsb (fun entry => String.eqb (fst entry) path) d).

Definition demo_Head (b : demo_Store) (key : string) : head_result :=
  if existsb (String.eqb key) b then HeadFound 0 else HeadNotFound.

Definition demo_Put (b : demo_Store) (key content : string)
    : demo_Store * bool :=
  ((b ++ [key])%list, true).

(** Files whose name starts with [secret] are refused by the bucket. *)
Definition demo_PutFromFile (b : demo_Store) (d : demo_Disk)
    (cosPath localFilePath : string) : demo_Store * bool :=
  if String.prefix "/data/secret" localFilePath then (b, false)
  else ((b ++ [cosPath])%list, true).

Definition demo_backup_Getenv (name : string) : string :=
  if String.eqb name "SOURCEFOLDER"
  then "/data/site, /data/notes.txt,,/data/gone,/data/secret.key,/sys/log"
  else "".

Definition demo_machine : Machine :=
  mkMachine demo_Store demo_Disk demo_backup_Getenv demo_TrimSpace
    (fun _ => mkCivil 2025 10 21 9 54 49)
    demo_Stat "/tmp" (fun dir name => dir ++ "/" ++ name)
    demo_zipFolder demo_Remove demo_Head demo_Put demo_PutFromFile.

Definition demo_disk : demo_Disk :=
  [ ("/data/site", true); ("/data/notes.txt", false);
    ("/data/secret.key", false); ("/sys/log", true) ].

Definition demo_state : State demo_machine :=
  @mkState demo_machine demo_disk [] 0 [].

(** [time.Date] in UTC for an hour and a minute of the day: the start of
    the day of [now], plus the hours and minutes. *)
Definition demo_Date_today (now hour minute : Z) : Z :=
  (now / (86400 * Second) * (86400 * Second)
   + (hour * 3600 + minute * 60) * Second)%Z.

Definition demo_Getenv_time (cleanupTime : string) (name : string) : string :=
  if String.eqb name "CLEANUP_TIME" then cleanupTime else "".

(** * Properties *)

(** ** The functions on examples *)

Example parseFileName_test1 :
  parseFileName "test1_20251021_095449.txt" = ("test1", "20251021_095449", true).
Proof. reflexivity. Qed.

Example parseFileName_notes :
  parseFileName "notes.txt" = ("", "", false).
Proof. reflexivity. Qed.

Example Base_dir : Base "/data/VCPToolBox/" = "VCPToolBox".
Proof. reflexivity. Qed.

Example Ext_txt : Ext "a.b/test1.tar.gz" = ".gz".
Proof. reflexivity. Qed.

Example Ext_none : Ext "a.b/Makefile" = "".
Proof. reflexivity. Qed.

Example Format_stamp_ex :
  Format_stamp (mkCivil 2025 10 21 9 54 49) = "20251021_095449".
Proof. reflexivity. Qed.

Example generateFileName_file :
  generateFileName (mkCivil 2025 10 21 9 54 49) "/home/u/test1.txt" false
  = "test1_20251021_095449.txt".
Proof. reflexivity. Qed.

Example generateFileName_dir :
  generateFileName (mkCivil 2025 10 21 9 54 49) "/home/u/VCPToolBox" true
  = "VCPToolBox_20251021_095449.zip".
Proof. reflexivity. Qed.

(** A whole pass over the demo bucket, one day of retention, the
    whitelist [keep, nightly], at 2025-10-21 10:00:00: the artifact of 2020
    is deleted, the one ten minutes old is kept, the foreign file is
    skipped, and the one stamped with month 13 is kept with a warning. *)
Example performCleanup_demo :
  performCleanup demo_Store demo_Bucket_Get demo_Object_Delete demo_Getenv
    demo_TrimSpace demo_Local demo_clock "bk/" demo_world
  = (tt,
     mkWorld
       ["bk/x_20251021_095000.log"; "bk/notes.txt";
        "bk/x_20251320_095000.log"]
       2
       [Printf MsgCleanupStart;
        Printf (MsgConfig 1 ["keep"; "nightly"]);
        BucketGet "bk/"; Printf (MsgFound 4);
        Printf (MsgDeleting "backup_20200101_000000.zip" "backup"
                  "20200101_000000");
        ObjectDelete "bk/backup_20200101_000000.zip" true;
        Printf (MsgDeleted "bk/backup_20200101_000000.zip");
        Printf (MsgNotExpired "x_20251021_095000.log");
        Printf (MsgSkipForeign "notes.txt");
        Printf (MsgParseWarning "20251320_095000");
        Printf (MsgNotExpired "x_20251320_095000.log");
        Printf (MsgCleanupDone 1)]).
Proof. vm_compute. reflexivity. Qed.

(** A whitelisted prefix keeps even an old artifact. *)
Example cleanupFile_whitelisted :
  cleanupFile demo_Store demo_Object_Delete demo_Local demo_clock
    "bk/" 7 ["backup"] 0 "backup_20200101_000000.zip" demo_world
  = (0, extend demo_world 1
          [Printf (MsgWhitelisted "backup_20200101_000000.zip")]).
Proof. vm_compute. reflexivity. Qed.

(** A deletion the bucket refuses is reported and not counted. *)
Example cleanupFile_delete_fails :
  cleanupFile demo_Store demo_Object_Delete demo_Local demo_clock
    "locked" 7 [] 0 "backup_20200101_000000.zip" demo_world
  = (0, extend demo_world 1
          [Printf (MsgDeleting "backup_20200101_000000.zip" "backup"
                     "20200101_000000");
           ObjectDelete "locked/backup_20200101_000000.zip" false;
           Printf (MsgDeleteFailed "locked/backup_20200101_000000.zip")]).
Proof. vm_compute. reflexivity. Qed.

(** Ten minutes old with one day of retention: within the window. *)
Example age_exceeds_ten_minutes :
  age_exceeds demo_Local "20251021_095000" 1 (demo_clock 0) = false.
Proof. vm_compute. reflexivity. Qed.

(** Twenty-four hours and ten minutes old with one day of retention. *)
Example age_exceeds_a_day_and_ten_minutes :
  age_exceeds demo_Local "20251020_095000" 1 (demo_clock 0) = true.
Proof. vm_compute. reflexivity. Qed.

Example Atoi_examples :
  Atoi "30" = Some 30%Z /\ Atoi "-1" = Some (-1)%Z /\ Atoi "+5" = Some 5%Z
  /\ Atoi "" = None /\ Atoi "7 days" = None
  /\ Atoi "9223372036854775808" = None.
Proof. repeat split. Qed.

(** ** Lemmas on strings *)

Lemma take_drop (n : nat) (s : string) : take n s ++ drop n s = s.
Proof.
  revert s; induction n as [|n IH]; intros [|c s]; simpl; try reflexivity.
  now rewrite IH.
Qed.

Lemma length_append (a b : string) : length (a ++ b) = length a + length b.
Proof. induction a as [|c a IH]; simpl; [reflexivity | now rewrite IH]. Qed.

Lemma take_app_length (a b : string) : take (length a) (a ++ b) = a.
Proof. induction a as [|c a IH]; simpl; [now destruct b | now rewrite IH]. Qed.

Lemma drop_app_length (a b : string) : drop (length a) (a ++ b) = b.
Proof. induction a as [|c a IH]; simpl; [reflexivity | exact IH]. Qed.

Lemma drop_drop (n m : nat) (s : string) : drop n (drop m s) = drop (m + n) s.
Proof.
  revert s; induction m as [|m IH]; intros s; simpl; [reflexivity|].
  destruct s as [|c s]; [now destruct n | apply IH].
Qed.

Lemma length_take (n : nat) (s : string) : length (take n s) = Nat.min n (length s).
Proof.
  revert s; induction n as [|n IH]; intros [|c s]; simpl; try reflexivity.
  now rewrite IH.
Qed.

Lemma length_drop (n : nat) (s : string) : length (drop n s) = length s - n.
Proof.
  revert s; induction n as [|n IH]; intros [|c s]; simpl; try reflexivity.
  apply IH.
Qed.

Lemma app_assoc_s (a b c : string) : (a ++ b) ++ c = a ++ (b ++ c).
Proof. induction a as [|x a IH]; simpl; [reflexivity | now rewrite IH]. Qed.

Lemma all_chars_app (p : ascii -> bool) (a b : string) :
  all_chars p (a ++ b) = all_chars p a && all_chars p b.
Proof.
  induction a as [|c a IH]; simpl; [reflexivity|].
  now rewrite IH, andb_assoc.
Qed.

(** ** The matcher on the pattern of [parseFileName] *)

Lemma greedy_to_end (e : string) (pos : nat) (c : captures) :
  plus_greedy AnyCharNotNL (run [EndText; Cap 1]) pos e c
  = if negb (String.eqb e "") && no_newline e
    then Some ((1, pos + length e) :: c) else None.
Proof.
  revert pos; induction e as [|x e IH]; intros pos; [reflexivity|].
  cbn [plus_greedy class_matches].
  change (no_newline (String x e)) with (negb (Ascii.eqb x newline) && no_newline e).
  destruct (Ascii.eqb x newline); [reflexivity|].
  rewrite IH. cbn [negb andb String.eqb].
  destruct e as [|y e]; cbn.
  - now rewrite Nat.add_1_r.
  - destruct (negb (Ascii.eqb y newline) && no_newline e) eqn:E;
      unfold no_newline in *; cbn in E |- *; rewrite E; [|reflexivity].
    do 3 f_equal; lia.
Qed.

(** Case analysis on the tests a run of the matcher performs. *)
Ltac split_tests :=
  repeat match goal with
         | |- context [if ?b then _ else _] =>
             match b with
             | Ascii.eqb _ _ => destruct b eqn:?
             | isDigit _ => destruct b eqn:?
             end; cbn
         end.

Lemma re_tail_spec (r : string) (pos : nat) (c : captures) :
  run re_tail pos r c
  = if tail_ok r
    then Some ((1, pos + length r) :: (5, pos + 16) :: (4, pos + 1)
               :: (3, pos) :: c)
    else None.
Proof.
  unfold re_tail, tail_ok, stamp_at, is_timestamp, slice.
  cbn [run].
  do 17 (destruct r as [|? r]; [cbn; split_tests; reflexivity|]).
  cbn. split_tests; try reflexivity.
  rewrite greedy_to_end.
  fold (no_newline r).
  destruct (negb (String.eqb r "") && no_newline r); [|reflexivity].
  repeat (f_equal; try lia).
Qed.

Lemma lazy_spec (s : string) (pos : nat) (c : captures) :
  plus_lazy AnyCharNotNL (run re_tail) pos s c
  = match scan s with
    | Some n => run re_tail (pos + n) (drop n s) c
    | None => None
    end.
Proof.
  revert pos; induction s as [|x s IH]; intros pos; [reflexivity|].
  cbn [plus_lazy scan class_matches].
  destruct (negb (Ascii.eqb x newline)); [|reflexivity].
  rewrite re_tail_spec.
  destruct (tail_ok s) eqn:T.
  - rewrite re_tail_spec. cbn [drop]. rewrite T.
    repeat (f_equal; try lia).
  - rewrite IH. destruct (scan s) as [n|]; [|reflexivity].
    cbn [option_map drop]. now rewrite <- plus_n_Sm.
Qed.

Lemma scan_tail_ok (s : string) (n : nat) :
  scan s = Some n -> tail_ok (drop n s) = true.
Proof.
  revert n; induction s as [|x s IH]; intros n; [discriminate|].
  cbn [scan]. destruct (negb (Ascii.eqb x newline)); [|discriminate].
  destruct (tail_ok s) eqn:T.
  - intros [= <-]. exact T.
  - destruct (scan s) as [m|]; [|discriminate].
    intros [= <-]. cbn [drop]. now apply IH.
Qed.

Lemma search_re_later (s : string) (pos : nat) :
  search re (S pos) s = None.
Proof.
  revert pos; induction s as [|x s IH]; intros pos; [reflexivity|].
  cbn [search]. change (run re (S pos) (String x s) []) with (@None captures).
  apply IH.
Qed.

(** [parseFileName] through [scan]. *)
Lemma parseFileName_scan (s : string) :
  parseFileName s
  = match scan s with
    | Some n => (take n s, slice s (n + 1) (n + 16), true)
    | None => ("", "", false)
    end.
Proof.
  unfold parseFileName, FindStringSubmatch.
  assert (R : run re 0 s []
              = match scan s with
                | Some n => run re_tail n (drop n s) [(2, 0); (0, 0)]
                | None => None
                end).
  { change (run re 0 s [])
      with (plus_lazy AnyCharNotNL (run re_tail) 0 s [(2, 0); (0, 0)]).
    now rewrite lazy_spec. }
  destruct (scan s) as [n|] eqn:Sc.
  - assert (S1 : search re 0 s
                 = Some ((1, n + length (drop n s)) :: (5, n + 16)
                         :: (4, n + 1) :: (3, n) :: [(2, 0); (0, 0)])).
    { destruct s as [|x s]; cbn [search]; rewrite R, re_tail_spec,
        (scan_tail_ok _ _ Sc); reflexivity. }
    rewrite S1. cbn. unfold slice. cbn [drop]. now rewrite Nat.sub_0_r.
  - assert (S1 : search re 0 s = None).
    { destruct s as [|x s]; cbn [search]; rewrite R; [reflexivity|].
      apply search_re_later. }
    now rewrite S1.
Qed.


(** ** The pattern, declaratively *)

Lemma is_timestamp_length (t : string) :
  is_timestamp t = true -> length t = 15.
Proof.
  unfold is_timestamp. intros H.
  apply andb_prop in H as [H _]. apply andb_prop in H as [H _].
  apply andb_prop in H as [H _]. now apply Nat.eqb_eq.
Qed.

Lemma ascii_eqb_true (a b : ascii) : Ascii.eqb a b = true -> a = b.
Proof. apply Ascii.eqb_eq. Qed.

Lemma tail_ok_elim (r : string) :
  tail_ok r = true ->
  r = "_" ++ slice r 1 16 ++ "." ++ drop 17 r
  /\ is_timestamp (slice r 1 16) = true
  /\ drop 17 r <> ""
  /\ no_newline (drop 17 r) = true.
Proof.
  unfold tail_ok, stamp_at. intros H.
  apply andb_prop in H as [H Hnl]. apply andb_prop in H as [H Hne].
  apply andb_prop in H as [H Hdot]. apply andb_prop in H as [Hus Hts].
  pose proof (is_timestamp_length _ Hts) as Hlen.
  repeat split; try assumption.
  - unfold slice in *.
    do 17 (destruct r as [|? r]; [discriminate|]).
    cbn in Hus, Hdot |- *.
    destruct (Ascii.eqb a "_") eqn:E1; [|discriminate].
    destruct (Ascii.eqb a15 ".") eqn:E2; [|discriminate].
    apply ascii_eqb_true in E1, E2. now subst.
  - intros E. rewrite E in Hne. discriminate.
Qed.

Lemma tail_ok_intro (t e : string) :
  is_timestamp t = true -> e <> "" -> no_newline e = true ->
  tail_ok ("_" ++ t ++ "." ++ e) = true.
Proof.
  intros Hts Hne Hnl.
  pose proof (is_timestamp_length _ Hts) as Hlen.
  do 15 (destruct t as [|? t]; [discriminate|]).
  destruct t; [|discriminate].
  unfold tail_ok, stamp_at, is_timestamp, slice in *.
  cbn in Hts |- *. rewrite Hts. fold (no_newline e). rewrite Hnl.
  destruct e; [now elim Hne | reflexivity].
Qed.

Lemma tail_ok_nonempty (r : string) : tail_ok r = true -> r <> "".
Proof. intros H E. subst r. discriminate. Qed.

Lemma scan_Some_inv (s : string) (n : nat) :
  scan s = Some n ->
  1 <= n < length s
  /\ no_newline (take n s) = true
  /\ tail_ok (drop n s) = true
  /\ (forall m, 1 <= m < n -> tail_ok (drop m s) = false).
Proof.
  revert n; induction s as [|x s IH]; intros n; [discriminate|].
  cbn [scan]. destruct (negb (Ascii.eqb x newline)) eqn:X; [|discriminate].
  destruct (tail_ok s) eqn:T.
  - intros [= <-]. cbn [take drop length]. repeat split; try lia.
    + pose proof (tail_ok_nonempty _ T). destruct s; [congruence | cbn; lia].
    + unfold no_newline. cbn. now rewrite X.
    + exact T.
  - destruct (scan s) as [k|]; [|discriminate]. intros [= <-].
    destruct (IH k eq_refl) as (Hk & Hnl & Hok & Hmin).
    cbn [take drop length]. repeat split; try lia.
    + unfold no_newline in *. cbn. now rewrite X.
    + exact Hok.
    + intros [|m] Hm; [lia|]. cbn [drop].
      destruct m as [|m]; [exact T | apply Hmin; lia].
Qed.

Lemma scan_None_inv (s : string) :
  scan s = None ->
  forall n, 1 <= n -> no_newline (take n s) = true -> tail_ok (drop n s) = false.
Proof.
  induction s as [|x s IH]; intros Hs n Hn Hnl.
  - now destruct n.
  - destruct n as [|n]; [lia|]. cbn [take drop] in *.
    unfold no_newline in Hnl. cbn in Hnl. apply andb_prop in Hnl as [X Hnl].
    cbn [scan] in Hs. rewrite X in Hs.
    destruct (tail_ok s) eqn:T; [discriminate|].
    destruct (scan s) eqn:Sc; [discriminate|].
    destruct n as [|n]; [exact T|].
    apply IH; [reflexivity | lia | exact Hnl].
Qed.

Lemma scan_intro (s : string) (n : nat) :
  1 <= n -> no_newline (take n s) = true -> tail_ok (drop n s) = true ->
  (forall m, 1 <= m < n -> tail_ok (drop m s) = false) ->
  scan s = Some n.
Proof.
  intros Hn Hnl Hok Hmin.
  destruct (scan s) as [k|] eqn:Sc.
  - destruct (scan_Some_inv _ _ Sc) as (Hk & Hnlk & Hokk & Hmink).
    f_equal.
    destruct (Nat.lt_trichotomy k n) as [L|[E|G]]; [|exact E|].
    + rewrite Hmin in Hokk; [discriminate | lia].
    + rewrite Hmink in Hok; [discriminate | lia].
  - rewrite (scan_None_inv _ Sc n Hn Hnl) in Hok. discriminate.
Qed.

Lemma slice_after_drop (s : string) (n : nat) :
  slice s (n + 1) (n + 16) = slice (drop n s) 1 16.
Proof.
  unfold slice. rewrite drop_drop.
  replace (n + 16 - (n + 1)) with 15 by lia. reflexivity.
Qed.

Lemma no_newline_app (a b : string) :
  no_newline (a ++ b) = no_newline a && no_newline b.
Proof. apply all_chars_app. Qed.

(** A recognized name splits the way the pattern says. *)
Lemma parseFileName_sound (s p t : string) :
  parseFileName s = (p, t, true) -> exists e, canonical s p t e.
Proof.
  rewrite parseFileName_scan.
  destruct (scan s) as [n|] eqn:Sc; [|discriminate].
  intros [= <- <-].
  destruct (scan_Some_inv _ _ Sc) as (Hn & Hnl & Hok & _).
  destruct (tail_ok_elim _ Hok) as (Hr & Hts & Hne & Hnle).
  exists (drop 17 (drop n s)). rewrite slice_after_drop.
  repeat split; try assumption.
  - rewrite <- Hr. symmetry. apply take_drop.
  - intros E. apply (f_equal length) in E. rewrite length_take in E.
    cbn in E. lia.
Qed.

(** A name that is not recognized yields empty strings. *)
Lemma parseFileName_unrecognized (s p t : string) :
  parseFileName s = (p, t, false) -> p = "" /\ t = "".
Proof.
  rewrite parseFileName_scan.
  destruct (scan s); [discriminate|]. now intros [= <- <-].
Qed.

Lemma canonical_scan (s p t e : string) :
  canonical s p t e ->
  1 <= length p
  /\ no_newline (take (length p) s) = true
  /\ tail_ok (drop (length p) s) = true.
Proof.
  intros (Hs & Hp & Hnl & Hts & He & Hnle). subst s.
  rewrite take_app_length, drop_app_length. repeat split.
  - destruct p; [congruence | cbn; lia].
  - exact Hnl.
  - now apply tail_ok_intro.
Qed.

(** A name the pattern can split is recognized. *)
Lemma parseFileName_complete (s : string) :
  matches_pattern s -> exists p t, parseFileName s = (p, t, true).
Proof.
  intros (p & t & e & Hc).
  destruct (canonical_scan _ _ _ _ Hc) as (Hn & Hnl & Hok).
  rewrite parseFileName_scan.
  destruct (scan s) as [n|] eqn:Sc; [eauto|].
  rewrite (scan_None_inv _ Sc _ Hn Hnl) in Hok. discriminate.
Qed.

(** The split that is found is the one with the shortest prefix. *)
Lemma parseFileName_shortest (s p t e : string) :
  canonical s p t e ->
  (forall m, 1 <= m < length p -> tail_ok (drop m s) = false) ->
  parseFileName s = (p, t, true).
Proof.
  intros Hc Hmin.
  destruct (canonical_scan _ _ _ _ Hc) as (Hn & Hnl & Hok).
  rewrite parseFileName_scan, (scan_intro _ _ Hn Hnl Hok Hmin).
  destruct Hc as (Hs & _ & _ & Hts & _). subst s.
  rewrite take_app_length, slice_after_drop, drop_app_length.
  unfold slice. cbn [drop append Nat.sub].
  pose proof (is_timestamp_length _ Hts) as L.
  rewrite <- L. now rewrite take_app_length.
Qed.

(** ** Reading a timestamp *)

Lemma isDigit_bounds (c : ascii) :
  isDigit c = true -> (0 <= digit_val c <= 9)%Z.
Proof.
  unfold isDigit, digit_val. intros H. apply andb_prop in H as [L U].
  apply Nat.leb_le in L, U. lia.
Qed.

Lemma daysIn_month_length (m y : Z) :
  (1 <= m <= 12)%Z -> daysIn m y = month_length y m.
Proof.
  intros H.
  assert (C : (m = 1 \/ m = 2 \/ m = 3 \/ m = 4 \/ m = 5 \/ m = 6 \/ m = 7
              \/ m = 8 \/ m = 9 \/ m = 10 \/ m = 11 \/ m = 12)%Z) by lia.
  unfold daysIn, month_length.
  repeat (destruct C as [-> | C]; [cbn; now destruct (isLeap y)|]).
  subst m. cbn. now destruct (isLeap y).
Qed.

Ltac bool_to_Z :=
  repeat match goal with
         | H : (_ || _) = true |- _ => apply orb_prop in H
         | H : (_ || _) = false |- _ => apply orb_false_elim in H as [? ?]
         | H : (_ && _) = true |- _ => apply andb_prop in H as [? ?]
         | H : (_ && _) = false |- _ => apply andb_false_iff in H
         | H : (_ <=? _)%Z = true |- _ => apply Z.leb_le in H
         | H : (_ <=? _)%Z = false |- _ => apply Z.leb_gt in H
         | H : (_ <? _)%Z = true |- _ => apply Z.ltb_lt in H
         | H : (_ <? _)%Z = false |- _ => apply Z.ltb_ge in H
         end.

(** On a timestamp shape the parser succeeds exactly on the dates and
    times that exist, and reads the fields the digits spell. *)
Lemma parse_fields_shape (t : string) :
  is_timestamp t = true ->
  parse_fields t
  = if valid_civil (fields_of t) then Some (fields_of t, 0%Z) else None.
Proof.
  intros Hts. pose proof (is_timestamp_length _ Hts) as Hlen.
  do 15 (destruct t as [|? t]; [discriminate|]).
  destruct t; [|discriminate]. clear Hlen.
  unfold is_timestamp, slice in Hts. cbn in Hts.
  repeat match goal with
         | H : _ && _ = true |- _ => apply andb_prop in H as [? ?]
         end.
  destruct (Ascii.eqb a7 "_") eqn:E7; [|discriminate].
  apply Ascii.eqb_eq in E7. subst a7.
  repeat match goal with
         | H : isDigit ?c = true |- _ =>
             pose proof (isDigit_bounds c H); revert H
         end.
  intros.
  unfold parse_fields, getyear, getnum, fraction, fields_of, slice.
  repeat (progress
            (cbn [length take drop all_chars Nat.leb Nat.sub decimal_value andb];
             repeat match goal with
                    | H : isDigit _ = true |- context [isDigit _] => rewrite H
                    end)).
  rewrite !Z.add_0_l.
  set (y := (((digit_val a * 10 + digit_val a0) * 10 + digit_val a1) * 10 + digit_val a2)%Z).
  set (mo := (digit_val a3 * 10 + digit_val a4)%Z).
  set (d := (digit_val a5 * 10 + digit_val a6)%Z).
  set (h := (digit_val a8 * 10 + digit_val a9)%Z).
  set (mi := (digit_val a10 * 10 + digit_val a11)%Z).
  set (s := (digit_val a12 * 10 + digit_val a13)%Z).
  assert (B : (0 <= mo /\ 0 <= d /\ 0 <= h /\ 0 <= mi /\ 0 <= s)%Z) by (unfold mo, d, h, mi, s; lia).
  clearbody y mo d h mi s.
  unfold valid_civil. cbn [year month day hour minute second].
  destruct ((mo <=? 0) || (12 <? mo))%Z eqn:Cmo.
  { bool_to_Z.
    replace ((1 <=? mo) && (mo <=? 12))%Z with false; [reflexivity|].
    symmetry. apply andb_false_iff. rewrite Z.leb_gt, Z.leb_gt. lia. }
  bool_to_Z. rewrite daysIn_month_length by lia.
  replace (1 <=? mo)%Z with true by (symmetry; apply Z.leb_le; lia).
  replace (mo <=? 12)%Z with true by (symmetry; apply Z.leb_le; lia).
  replace (0 <=? h)%Z with true by (symmetry; apply Z.leb_le; lia).
  replace (0 <=? mi)%Z with true by (symmetry; apply Z.leb_le; lia).
  replace (0 <=? s)%Z with true by (symmetry; apply Z.leb_le; lia).
  replace (h <? 0)%Z with false by (symmetry; apply Z.ltb_ge; lia).
  replace (mi <? 0)%Z with false by (symmetry; apply Z.ltb_ge; lia).
  replace (s <? 0)%Z with false by (symmetry; apply Z.ltb_ge; lia).
  replace (24 <=? h)%Z with (negb (h <=? 23)%Z)
    by (destruct (Z.leb_spec h 23), (Z.leb_spec 24 h); cbn; lia || reflexivity).
  replace (60 <=? mi)%Z with (negb (mi <=? 59)%Z)
    by (destruct (Z.leb_spec mi 59), (Z.leb_spec 60 mi); cbn; lia || reflexivity).
  replace (60 <=? s)%Z with (negb (s <=? 59)%Z)
    by (destruct (Z.leb_spec s 59), (Z.leb_spec 60 s); cbn; lia || reflexivity).
  replace (d <? 1)%Z with (negb (1 <=? d)%Z)
    by (destruct (Z.leb_spec 1 d), (Z.ltb_spec d 1); cbn; lia || reflexivity).
  replace (month_length y mo <? d)%Z with (negb (d <=? month_length y mo)%Z)
    by (destruct (Z.leb_spec d (month_length y mo)),
                 (Z.ltb_spec (month_length y mo) d); cbn; lia || reflexivity).
  cbn [orb andb].
  destruct (h <=? 23)%Z, (mi <=? 59)%Z, (s <=? 59)%Z, (1 <=? d)%Z,
    (d <=? month_length y mo)%Z; reflexivity.
Qed.

(** ** Running the loop of the pass *)

Lemma decisions_app (a b : list event) :
  decisions (a ++ b) = (decisions a ++ decisions b)%list.
Proof.
  induction a as [|e a IH]; [reflexivity|].
  cbn. destruct (announced e); cbn; now rewrite IH.
Qed.

Lemma attempts_app (a b : list event) :
  attempts (a ++ b) = (attempts a ++ attempts b)%list.
Proof.
  induction a as [|e a IH]; [reflexivity|].
  destruct e; cbn; now rewrite IH.
Qed.

Lemma succeeded_app (a b : list (string * bool)) :
  succeeded (a ++ b) = (succeeded a ++ succeeded b)%list.
Proof. unfold succeeded. now rewrite filter_app, map_app. Qed.

Section CleanupProperties.

Variable Store : Type.
Variable Bucket_Get : Store -> string -> option (list string).
Variable Object_Delete : Store -> string -> Store * bool.
Variable Getenv : string -> string.
Variable TrimSpace : string -> string.
Variable Local : Z -> Z.
Variable clock : nat -> Z.

Lemma isFileOlderThanDays_run (timeStamp : string) (maxDays : Z)
    (w : World Store) :
  isFileOlderThanDays Store Local clock timeStamp maxDays w
  = (age_exceeds Local timeStamp maxDays (clock (reads w)),
     extend w (age_reads Local timeStamp)
            (age_notes Local timeStamp maxDays (clock (reads w)))).
Proof.
  unfold isFileOlderThanDays, age_exceeds, age_reads, age_notes, extend.
  destruct (ParseInLocation Local timeStamp) as [t|]; cbn.
  - destruct (maxDays =? 0)%Z; cbn; rewrite ?app_nil_r; reflexivity.
  - reflexivity.
Qed.

(** One turn of the loop, case by case. *)
Lemma cleanupFile_run (targetDir : string) (cleanupDays : Z)
    (whitelist : list string) (n : nat) (fileName : string)
    (w : World Store) :
  cleanupFile Store Object_Delete Local clock
    targetDir cleanupDays whitelist n fileName w
  = let '(prefix, timeStamp, isOurFormat) := parseFileName fileName in
    let now := clock (reads w) in
    let notes := age_notes Local timeStamp cleanupDays now in
    let k := age_reads Local timeStamp in
    match classify isOurFormat
                   (age_exceeds Local timeStamp cleanupDays now)
                   (isWhitelisted prefix whitelist) with
    | Skip unrecognized_format =>
        (n, extend w 0 [Printf (MsgSkipForeign fileName)])
    | Skip within_retention_window =>
        (n, extend w k (notes ++ [Printf (MsgNotExpired fileName)]))
    | Skip whitelisted =>
        (n, extend w k (notes ++ [Printf (MsgWhitelisted fileName)]))
    | Delete =>
        let cosPath := cosPath_of targetDir fileName in
        let (b, ok) := Object_Delete (bucket w) cosPath in
        (if ok then S n else n,
         mkWorld b (k + reads w)
           (trace w ++ notes
            ++ [Printf (MsgDeleting fileName prefix timeStamp);
                ObjectDelete cosPath ok;
                Printf (if ok then MsgDeleted cosPath
                        else MsgDeleteFailed cosPath)]))
    end.
Proof.
  unfold cleanupFile.
  destruct (parseFileName fileName) as [[prefix timeStamp] [|]]; cbn;
    [|reflexivity].
  unfold bind at 1. rewrite isFileOlderThanDays_run.
  destruct (age_exceeds Local timeStamp cleanupDays (clock (reads w)));
    cbn; [|unfold extend; cbn; now rewrite <- app_assoc].
  destruct (isWhitelisted prefix whitelist); cbn;
    [unfold extend; cbn; now rewrite <- app_assoc|].
  unfold deleteCOSFile, call_Object_Delete, bind, printf, emit, ret, extend.
  cbn.
  destruct (Object_Delete (bucket w) (cosPath_of targetDir fileName))
    as [b [|]]; cbn; rewrite <- !app_assoc; reflexivity.
Qed.

Lemma age_notes_silent (timeStamp : string) (maxDays now : Z) :
  decisions (age_notes Local timeStamp maxDays now) = []
  /\ attempts (age_notes Local timeStamp maxDays now) = [].
Proof.
  unfold age_notes.
  destruct (ParseInLocation Local timeStamp); [|now split].
  destruct (maxDays =? 0)%Z; now split.
Qed.

(** C1: the loop of the pass classifies a file by three checks in a
    fixed, short-circuiting order.  A name that is not recognized is
    skipped as unrecognized; otherwise one whose age does not exceed
    the threshold is skipped as within the retention window; otherwise
    one whose prefix is whitelisted is skipped; otherwise, and only
    then, its deletion is attempted.  The decision is read off what the
    turn of the loop prints and calls. *)
Theorem classification_order (targetDir : string) (cleanupDays : Z)
    (whitelist : list string) (deletedCount : nat) (fileName : string)
    (w : World Store) :
  let '(prefix, timeStamp, isOurFormat) := parseFileName fileName in
  let decision :=
    classify isOurFormat
             (age_exceeds Local timeStamp cleanupDays (clock (reads w)))
             (isWhitelisted prefix whitelist) in
  let '(deletedCount', w') :=
    cleanupFile Store Object_Delete Local clock
      targetDir cleanupDays whitelist deletedCount fileName w in
  exists evs,
    trace w' = (trace w ++ evs)%list
    /\ decisions evs = [(fileName, decision)]
    /\ match decision with
       | Delete =>
           exists ok,
             attempts evs = [(cosPath_of targetDir fileName, ok)]
             /\ Object_Delete (bucket w) (cosPath_of targetDir fileName)
                = (bucket w', ok)
       | Skip _ =>
           attempts evs = []
           /\ bucket w' = bucket w
           /\ deletedCount' = deletedCount
       end.
Proof.
  rewrite cleanupFile_run.
  destruct (parseFileName fileName) as [[prefix timeStamp] isOurFormat].
  cbv zeta.
  destruct (age_notes_silent timeStamp cleanupDays (clock (reads w)))
    as [D A].
  destruct (classify isOurFormat _ _) as [[| |]|].
  - eexists; split; [reflexivity|]. now repeat split.
  - eexists; split; [reflexivity|].
    rewrite decisions_app, attempts_app, D, A. now repeat split.
  - eexists; split; [reflexivity|].
    rewrite decisions_app, attempts_app, D, A. now repeat split.
  - destruct (Object_Delete (bucket w) (cosPath_of targetDir fileName))
      as [b ok] eqn:O.
    eexists; split; [reflexivity|].
    rewrite decisions_app, attempts_app, D, A.
    destruct ok; cbn; (split; [reflexivity|]); eexists; now split.
Qed.

(** C3: a name the canonical pattern does not match is decoded as
    unrecognized, with empty prefix and timestamp, and the pass skips it
    as not uploaded by the program: nothing is deleted and the count is
    unchanged.  [parseFileName] is a total function, so no input makes
    it fail. *)
Theorem unrecognized_names_are_skipped (s : string) :
  ~ matches_pattern s ->
  parseFileName s = ("", "", false)
  /\ forall targetDir cleanupDays whitelist n (w : World Store),
       cleanupFile Store Object_Delete Local clock
         targetDir cleanupDays whitelist n s w
       = (n, extend w 0 [Printf (MsgSkipForeign s)]).
Proof.
  intros H.
  assert (P : parseFileName s = ("", "", false)).
  { destruct (parseFileName s) as [[p t] [|]] eqn:E.
    - elim H. destruct (parseFileName_sound _ _ _ E) as [e He].
      now exists p, t, e.
    - destruct (parseFileName_unrecognized _ _ _ E) as [-> ->].
      reflexivity. }
  split; [exact P|]. intros. rewrite cleanupFile_run, P. reflexivity.
Qed.

(** C4: a recognized name whose timestamp is not a date and time that
    exists (month 13, say) is never deleted, whatever the threshold and
    the clock: the age test warns and answers "not older", the file is
    kept, and the loop goes on with the remaining names. *)
Theorem invalid_timestamp_never_deleted
    (fileName prefix timeStamp : string) :
  parseFileName fileName = (prefix, timeStamp, true) ->
  valid_civil (fields_of timeStamp) = false ->
  forall targetDir cleanupDays whitelist n (w : World Store),
    let w' := extend w 0 [Printf (MsgParseWarning timeStamp);
                          Printf (MsgNotExpired fileName)] in
    (forall now, age_exceeds Local timeStamp cleanupDays now = false)
    /\ cleanupFile Store Object_Delete Local clock
         targetDir cleanupDays whitelist n fileName w = (n, w')
    /\ forall rest,
         cleanupLoop Store Object_Delete Local clock
           targetDir cleanupDays whitelist (fileName :: rest) n w
         = cleanupLoop Store Object_Delete Local clock
             targetDir cleanupDays whitelist rest n w'.
Proof.
  intros P V targetDir cleanupDays whitelist n w w'.
  destruct (parseFileName_sound _ _ _ P) as (e & _ & _ & _ & Hts & _).
  assert (E : ParseInLocation Local timeStamp = None).
  { unfold ParseInLocation. now rewrite (parse_fields_shape _ Hts), V. }
  assert (A : forall now, age_exceeds Local timeStamp cleanupDays now = false).
  { intros now. unfold age_exceeds. now rewrite E. }
  assert (R : cleanupFile Store Object_Delete Local clock
                targetDir cleanupDays whitelist n fileName w = (n, w')).
  { rewrite cleanupFile_run, P. cbv zeta. rewrite A.
    unfold age_notes, age_reads. rewrite E. reflexivity. }
  repeat split; [exact A | exact R|].
  intros rest. cbn [cleanupLoop]. unfold bind at 1. now rewrite R.
Qed.

(** One turn of the loop in the terms of a whole pass. *)
Lemma cleanupFile_summary (targetDir : string) (cleanupDays : Z)
    (whitelist : list string) (n : nat) (fileName : string)
    (w : World Store) :
  let '(n', w') :=
    cleanupFile Store Object_Delete Local clock
      targetDir cleanupDays whitelist n fileName w in
  exists evs,
    trace w' = (trace w ++ evs)%list
    /\ map fst (decisions evs) = [fileName]
    /\ map fst (attempts evs) = map (cosPath_of targetDir) (marked evs)
    /\ n' = n + List.length (succeeded (attempts evs)).
Proof.
  rewrite cleanupFile_run.
  destruct (parseFileName fileName) as [[prefix timeStamp] isOurFormat].
  cbv zeta.
  destruct (age_notes_silent timeStamp cleanupDays (clock (reads w)))
    as [D A].
  unfold marked.
  destruct (classify isOurFormat _ _) as [[| |]|].
  - eexists; split; [reflexivity|]. cbn. repeat split; lia.
  - eexists; split; [reflexivity|].
    rewrite decisions_app, attempts_app, D, A. cbn. repeat split; lia.
  - eexists; split; [reflexivity|].
    rewrite decisions_app, attempts_app, D, A. cbn. repeat split; lia.
  - destruct (Object_Delete (bucket w) (cosPath_of targetDir fileName))
      as [b ok].
    eexists; split; [reflexivity|].
    rewrite decisions_app, attempts_app, D, A.
    destruct ok; cbn; repeat split; lia.
Qed.

Lemma cleanupLoop_app (targetDir : string) (cleanupDays : Z)
    (whitelist : list string) (before after : list string) (n : nat)
    (w : World Store) :
  cleanupLoop Store Object_Delete Local clock
    targetDir cleanupDays whitelist (before ++ after) n w
  = let (n1, w1) :=
      cleanupLoop Store Object_Delete Local clock
        targetDir cleanupDays whitelist before n w in
    cleanupLoop Store Object_Delete Local clock
      targetDir cleanupDays whitelist after n1 w1.
Proof.
  revert n w; induction before as [|f before IH]; intros n w;
    [reflexivity|].
  cbn [cleanupLoop app]. unfold bind.
  destruct (cleanupFile Store Object_Delete Local clock
              targetDir cleanupDays whitelist n f w) as [n0 w0].
  apply IH.
Qed.

(** A pass over a list of keys, summed up. *)
Lemma cleanupLoop_summary (targetDir : string) (cleanupDays : Z)
    (whitelist : list string) (fileNames : list string) (n : nat)
    (w : World Store) :
  let '(n', w') :=
    cleanupLoop Store Object_Delete Local clock
      targetDir cleanupDays whitelist fileNames n w in
  exists evs,
    trace w' = (trace w ++ evs)%list
    /\ map fst (decisions evs) = fileNames
    /\ map fst (attempts evs) = map (cosPath_of targetDir) (marked evs)
    /\ n' = n + List.length (succeeded (attempts evs)).
Proof.
  revert n w; induction fileNames as [|f rest IH]; intros n w.
  - cbn. exists []. rewrite app_nil_r. repeat split. cbn. lia.
  - cbn [cleanupLoop]. unfold bind at 1.
    pose proof (cleanupFile_summary targetDir cleanupDays whitelist
                  n f w) as H1.
    destruct (cleanupFile Store Object_Delete Local clock
                targetDir cleanupDays whitelist n f w) as [n1 w1].
    destruct H1 as (e1 & T1 & D1 & A1 & C1).
    specialize (IH n1 w1).
    destruct (cleanupLoop Store Object_Delete Local clock
                targetDir cleanupDays whitelist rest n1 w1) as [n2 w2].
    destruct IH as (e2 & T2 & D2 & A2 & C2).
    exists (e1 ++ e2)%list. unfold marked in *.
    rewrite decisions_app, attempts_app, succeeded_app, filter_app,
      !map_app, List.length_app, D1, D2, A1, A2, T2, T1, app_assoc.
    repeat split. lia.
Qed.

(** C9: a pass over a list of keys goes through all of them whatever
    the deletions do.  Every key is classified, once and in order; the
    deletion of every key marked for deletion is attempted; the count
    the pass ends with has grown by the number of attempts that
    succeeded; and the keys after any one key are processed from the
    state that key left, whether or not its deletion failed.  The loop
    is a total function: no failure of a deletion makes it raise. *)
Theorem deletion_failures_do_not_abort (targetDir : string)
    (cleanupDays : Z) (whitelist : list string) :
  (forall fileNames n (w : World Store),
     let '(n', w') :=
       cleanupLoop Store Object_Delete Local clock
         targetDir cleanupDays whitelist fileNames n w in
     exists evs,
       trace w' = (trace w ++ evs)%list
       /\ map fst (decisions evs) = fileNames
       /\ map fst (attempts evs) = map (cosPath_of targetDir) (marked evs)
       /\ n' = n + List.length (succeeded (attempts evs)))
  /\ (forall before key after n (w : World Store),
        cleanupLoop Store Object_Delete Local clock
          targetDir cleanupDays whitelist (before ++ key :: after) n w
        = let (n1, w1) :=
            cleanupLoop Store Object_Delete Local clock
              targetDir cleanupDays whitelist before n w in
          let (n2, w2) :=
            cleanupFile Store Object_Delete Local clock
              targetDir cleanupDays whitelist n1 key w1 in
          cleanupLoop Store Object_Delete Local clock
            targetDir cleanupDays whitelist after n2 w2).
Proof.
  split.
  - intros fileNames n w. apply cleanupLoop_summary.
  - intros before key after n w. rewrite cleanupLoop_app.
    destruct (cleanupLoop Store Object_Delete Local clock
                targetDir cleanupDays whitelist before n w) as [n1 w1].
    reflexivity.
Qed.

(** C10: unless [CLEANUP_ENABLED] is exactly [true], the pass returns
    at once: it prints nothing, asks the bucket for no listing, deletes
    nothing and leaves the bucket as it is, however old its artifacts
    are. *)
Theorem cleanup_disabled_touches_nothing (targetDir : string)
    (w : World Store) :
  Getenv "CLEANUP_ENABLED" <> "true" ->
  performCleanup Store Bucket_Get Object_Delete Getenv TrimSpace Local clock
    targetDir w
  = (tt, w).
Proof.
  intros H. unfold performCleanup.
  destruct (String.eqb_spec (Getenv "CLEANUP_ENABLED") "true") as [E|_];
    [contradiction|reflexivity].
Qed.

End CleanupProperties.

(** ** The configuration of a pass *)

Lemma Atoi_range (s : string) (d : Z) :
  Atoi s = Some d -> (min_int64 <= d <= max_int64)%Z.
Proof.
  unfold Atoi.
  destruct (match s with String "-" r => r | String "+" r => r | _ => s end);
    [discriminate|].
  destruct (all_chars isDigit _); [|discriminate].
  match goal with
  | |- context [if ?b then Some ?v else None] => destruct b eqn:B
  end; [|discriminate].
  intros [= <-]. apply andb_prop in B as [L U].
  apply Z.leb_le in L, U. exact (conj L U).
Qed.

Section ConfigurationProperties.

Variable Store : Type.
Variable Bucket_Get : Store -> string -> option (list string).
Variable Object_Delete : Store -> string -> Store * bool.
Variable Getenv : string -> string.
Variable TrimSpace : string -> string.
Variable Local : Z -> Z.
Variable clock : nat -> Z.

(** An enabled pass, step by step. *)
Lemma performCleanup_enabled (targetDir : string) (w : World Store) :
  Getenv "CLEANUP_ENABLED" = "true" ->
  performCleanup Store Bucket_Get Object_Delete Getenv TrimSpace Local clock
    targetDir w
  = let cleanupDays := cleanupDays_of_env Getenv in
    let whitelist := getWhiteList Getenv TrimSpace in
    let prefix := Trim_slash targetDir ++ "/" in
    let w1 := extend w 0 [Printf MsgCleanupStart;
                          Printf (MsgConfig cleanupDays whitelist);
                          BucketGet prefix] in
    match Bucket_Get (bucket w) prefix with
    | None => (tt, extend w1 0 [Printf MsgListError])
    | Some keys =>
        let fileNames :=
          map (fun key => TrimPrefix key prefix)
              (filter (fun key => negb (HasSuffix key "/")) keys) in
        let (n, w2) :=
          cleanupLoop Store Object_Delete Local clock
            targetDir cleanupDays whitelist fileNames 0
            (extend w1 0 [Printf (MsgFound (List.length fileNames))]) in
        (tt, extend w2 0 [Printf (MsgCleanupDone n)])
    end.
Proof.
  intros E. unfold performCleanup. rewrite E. cbn [String.eqb negb].
  change (String.eqb "true" "true") with true. cbn [negb].
  unfold listCOSFiles, bind, printf, emit, ret, extend. cbn.
  rewrite <- !app_assoc. cbn.
  destruct (Bucket_Get (bucket w) (Trim_slash targetDir ++ "/"));
    cbn; [|rewrite <- !app_assoc; reflexivity].
  rewrite <- !app_assoc. cbn.
  destruct (cleanupLoop _ _ _ _ _ _ _ _ _ _) as [n w2]. reflexivity.
Qed.

(** C8 (amended): the retention threshold of a pass is an integer of
    the range of [int], negative when the configured value is negative;
    when [CLEANUP_DAYS] is absent (empty) or is not the text of an
    integer, the threshold is 7, and the pass goes on with it rather
    than failing: it announces the threshold and asks for the
    listing. *)
Theorem retention_threshold_defaults_to_seven (targetDir : string)
    (w : World Store) :
  let cleanupDays := cleanupDays_of_env Getenv in
  (min_int64 <= cleanupDays <= max_int64)%Z
  /\ (Getenv "CLEANUP_DAYS" = "" \/ Atoi (Getenv "CLEANUP_DAYS") = None ->
      cleanupDays = 7%Z)
  /\ (forall days, Getenv "CLEANUP_DAYS" <> "" ->
                   Atoi (Getenv "CLEANUP_DAYS") = Some days ->
                   cleanupDays = days)
  /\ (Getenv "CLEANUP_ENABLED" = "true" ->
      exists evs,
        trace (snd (performCleanup Store Bucket_Get Object_Delete Getenv
                      TrimSpace Local clock targetDir w))
        = (trace w
           ++ [Printf MsgCleanupStart;
               Printf (MsgConfig cleanupDays (getWhiteList Getenv TrimSpace));
               BucketGet (Trim_slash targetDir ++ "/")]
           ++ evs)%list).
Proof.
  cbv zeta. repeat split.
  - unfold cleanupDays_of_env. destruct (String.eqb _ ""); [unfold min_int64; lia|].
    destruct (Atoi _) eqn:A; [|unfold min_int64; lia].
    now apply Atoi_range in A.
  - unfold cleanupDays_of_env.
    destruct (String.eqb _ ""); [unfold max_int64; lia|].
    destruct (Atoi _) eqn:A; [|unfold max_int64; lia].
    now apply Atoi_range in A.
  - unfold cleanupDays_of_env. intros [E|E]; rewrite E; [reflexivity|].
    now destruct (String.eqb _ "").
  - unfold cleanupDays_of_env. intros days N A. rewrite A.
    destruct (String.eqb_spec (Getenv "CLEANUP_DAYS") ""); congruence.
  - intros E. rewrite (performCleanup_enabled _ _ E). cbv zeta.
    destruct (Bucket_Get _ _).
    + pose proof (cleanupLoop_summary Store Object_Delete Local clock
                    targetDir (cleanupDays_of_env Getenv)
                    (getWhiteList Getenv TrimSpace)) as H.
      match goal with
      | |- context [cleanupLoop _ _ _ _ _ _ _ ?l ?n ?w0] =>
          specialize (H l n w0); destruct (cleanupLoop _ _ _ _ _ _ _ l n w0) as [n2 w2]
      end.
      destruct H as (evs & T & _). cbn. rewrite T. cbn.
      rewrite <- !app_assoc. cbn. eexists. reflexivity.
    + cbn. rewrite <- !app_assoc. cbn. eexists. reflexivity.
Qed.

End ConfigurationProperties.

(** ** The whitelist *)

Lemma isWhitelisted_In (prefix : string) (whitelist : list string) :
  isWhitelisted prefix whitelist = true <-> In prefix whitelist.
Proof.
  induction whitelist as [|a l IH]; cbn; [now split|].
  destruct (String.eqb_spec prefix a) as [E|N].
  - split; [now left | reflexivity].
  - rewrite IH. split; [now right | intros [E|H]; [congruence | exact H]].
Qed.

Lemma isWhitelisted_remove (prefix entry : string) (whitelist : list string) :
  prefix <> entry ->
  isWhitelisted prefix (remove string_dec entry whitelist)
  = isWhitelisted prefix whitelist.
Proof.
  intros N. induction whitelist as [|a l IH]; [reflexivity|].
  cbn [remove]. destruct (string_dec entry a) as [<-|Na]; cbn.
  - rewrite IH. destruct (String.eqb_spec prefix entry); congruence.
  - now rewrite IH.
Qed.

(** C5: [isWhitelisted] answers [true] exactly when some entry of the
    whitelist equals the prefix, byte for byte.  In particular the entry
    [abc] lends nothing to the prefixes [abcd] and [ab]: the answer for
    them is the same with the entry and without it, the whitelist that
    holds [abc] alone protects neither, and an entry that differs in
    case does not count. *)
Theorem isWhitelisted_exact (prefix : string) (whitelist : list string) :
  (isWhitelisted prefix whitelist = true <-> In prefix whitelist)
  /\ isWhitelisted "abcd" whitelist
     = isWhitelisted "abcd" (remove string_dec "abc" whitelist)
  /\ isWhitelisted "ab" whitelist
     = isWhitelisted "ab" (remove string_dec "abc" whitelist)
  /\ isWhitelisted "abcd" ["abc"] = false
  /\ isWhitelisted "ab" ["abc"] = false
  /\ isWhitelisted "ABC" ["abc"] = false.
Proof.
  split; [apply isWhitelisted_In|].
  repeat split; try reflexivity;
    symmetry; apply isWhitelisted_remove; discriminate.
Qed.

(** ** The name codec *)

(** C6: the name [report_20250101_000000_20251021_095449.csv] decodes
    to the prefix [report_20250101_000000] and the timestamp
    [20251021_095449]: the lazy group stops at the first place after which
    an underscore, a timestamp shape, a dot and a non-empty extension end
    the name, and the first timestamp shape of this name is followed by an
    underscore, not by a dot. *)
Theorem parseFileName_two_stamps :
  parseFileName "report_20250101_000000_20251021_095449.csv"
  = ("report_20250101_000000", "20251021_095449", true)
  /\ scan "report_20250101_000000_20251021_095449.csv" = Some 22
  /\ stamp_at "_20250101_000000_20251021_095449.csv" = true
  /\ tail_ok "_20250101_000000_20251021_095449.csv" = false.
Proof. repeat split. Qed.

(** ** Encoding and decoding a name *)

Lemma drop_get (j : nat) (s : string) (c : ascii) :
  get j s = Some c -> drop j s = String c (drop (S j) s).
Proof.
  revert s; induction j as [|j IH]; intros [|x s]; cbn; try discriminate.
  - now intros [= ->].
  - apply IH.
Qed.

Lemma get_lt (j : nat) (s : string) (c : ascii) :
  get j s = Some c -> j < length s.
Proof.
  revert s; induction j as [|j IH]; intros [|x s]; cbn; try discriminate.
  - lia.
  - intros H. apply IH in H. lia.
Qed.

(** The extension is empty or a suffix that starts with a dot. *)
Lemma Ext_loop_spec (path : string) (i : nat) :
  Ext_loop path i = ""
  \/ exists j, get j path = Some "."%char /\ Ext_loop path i = drop j path.
Proof.
  induction i as [|j IH]; [now left|].
  cbn [Ext_loop]. destruct (get j path) as [c|] eqn:G; [|now left].
  destruct (IsPathSeparator c); [now left|].
  destruct (Ascii.eqb_spec c "."); [|exact IH].
  subst c. right. now exists j.
Qed.

Lemma take_all (s : string) : take (length s) s = s.
Proof. induction s as [|c s IH]; cbn; [reflexivity | now rewrite IH]. Qed.

Lemma append_empty_r (s : string) : s ++ "" = s.
Proof. induction s as [|c s IH]; cbn; [reflexivity | now rewrite IH]. Qed.

Lemma Ext_split (fileName : string) :
  let ext := Ext fileName in
  fileName = take (length fileName - length ext) fileName ++ ext
  /\ (ext = "" \/ exists e, ext = String "." e).
Proof.
  cbv zeta. unfold Ext.
  destruct (Ext_loop_spec fileName (length fileName)) as [E|(j & G & E)];
    rewrite E.
  - cbn [length]. rewrite Nat.sub_0_r, take_all, append_empty_r.
    split; [reflexivity | now left].
  - pose proof (get_lt _ _ _ G) as L.
    rewrite length_drop.
    replace (length fileName - (length fileName - j)) with j by lia.
    split; [symmetry; apply take_drop|].
    right. rewrite (drop_get _ _ _ G). eauto.
Qed.

(** *** The shape of a formatted reading *)

Lemma appendInt_2 (x : Z) :
  (0 <= x <= 99)%Z -> digits_of_width 2 (appendInt x 2) = true.
Proof.
  intros H.
  assert (A : forallb (fun n => digits_of_width 2 (appendInt (Z.of_nat n) 2))
                      (seq 0 100) = true) by (vm_compute; reflexivity).
  rewrite forallb_forall in A.
  rewrite <- (Z2Nat.id x) by lia. apply A, in_seq. lia.
Qed.

Lemma appendInt_4 (x : Z) :
  (0 <= x <= 9999)%Z -> digits_of_width 4 (appendInt x 4) = true.
Proof.
  intros H.
  assert (A : forallb (fun n => digits_of_width 4 (appendInt (Z.of_nat n) 4))
                      (seq 0 (100 * 100)) = true) by (vm_compute; reflexivity).
  rewrite forallb_forall in A.
  rewrite <- (Z2Nat.id x) by lia. apply A, in_seq. lia.
Qed.

Lemma month_length_le (y m : Z) : (month_length y m <= 31)%Z.
Proof.
  unfold month_length.
  destruct (Z.to_nat (m - 1)) as [|[|[|[|[|[|[|[|[|[|[|[|n]]]]]]]]]]]];
    cbn; try lia.
  - destruct (isLeap y); lia.
  - destruct n; lia.
Qed.

Lemma is_timestamp_fields (a b c d e f : string) :
  digits_of_width 4 a = true -> digits_of_width 2 b = true ->
  digits_of_width 2 c = true -> digits_of_width 2 d = true ->
  digits_of_width 2 e = true -> digits_of_width 2 f = true ->
  is_timestamp (a ++ b ++ c ++ "_" ++ d ++ e ++ f) = true.
Proof.
  unfold digits_of_width. intros Ha Hb Hc Hd He Hf.
  repeat match goal with
         | H : _ && _ = true |- _ => apply andb_prop in H as [? ?]
         end.
  repeat match goal with
         | H : (length ?s =? _)%nat = true |- _ =>
             apply Nat.eqb_eq in H;
             repeat (destruct s as [|? s]; [discriminate|]);
             destruct s; [clear H | discriminate]
         end.
  unfold is_timestamp, slice. cbn in *.
  repeat match goal with
         | H : _ && _ = true |- _ => apply andb_prop in H as [? ?]
         end.
  repeat match goal with
         | H : isDigit _ = true |- _ => rewrite H; clear H
         end.
  reflexivity.
Qed.

Lemma Format_stamp_shape (now : Civil) :
  four_digit_year now = true -> valid_civil now = true ->
  is_timestamp (Format_stamp now) = true.
Proof.
  unfold four_digit_year, valid_civil. intros Y V.
  repeat match goal with
         | H : _ && _ = true |- _ => apply andb_prop in H as [? ?]
         end.
  repeat match goal with
         | H : (_ <=? _)%Z = true |- _ => apply Z.leb_le in H
         end.
  pose proof (month_length_le (year now) (month now)).
  unfold Format_stamp.
  apply is_timestamp_fields;
    [apply appendInt_4 | apply appendInt_2 ..]; lia.
Qed.

(** *** No split before the intended one *)

Lemma isDigit_not_dot (c : ascii) : isDigit c = true -> c <> "."%char.
Proof. intros H ->. discriminate. Qed.

Lemma timestamp_no_dot (t : string) (j : nat) :
  is_timestamp t = true -> get j t <> Some "."%char.
Proof.
  intros Hts. pose proof (is_timestamp_length _ Hts) as Hlen.
  do 15 (destruct t as [|? t]; [discriminate|]).
  destruct t; [|discriminate]. clear Hlen.
  unfold is_timestamp, slice in Hts. cbn in Hts.
  repeat match goal with
         | H : _ && _ = true |- _ => apply andb_prop in H as [? ?]
         end.
  destruct (Ascii.eqb_spec a7 "_"); [subst a7 | discriminate].
  do 15 (destruct j as [|j];
         [cbn; intros [= ->]; discriminate|]).
  cbn. discriminate.
Qed.

Lemma tail_ok_dot (r : string) : tail_ok r = true -> get 16 r = Some "."%char.
Proof.
  intros H. destruct (tail_ok_elim _ H) as (E & Hts & _).
  pose proof (is_timestamp_length _ Hts) as L.
  rewrite E. set (t := slice r 1 16) in *. clearbody t.
  do 15 (destruct t as [|? t]; [discriminate|]).
  destruct t; [reflexivity | discriminate].
Qed.

Lemma stamp_at_app (a b : string) :
  16 <= length a -> stamp_at (a ++ b) = stamp_at a.
Proof.
  intros L.
  do 16 (destruct a as [|? a]; [cbn in L; lia|]).
  reflexivity.
Qed.

Lemma contains_stamp_drop (s : string) (m : nat) :
  contains_stamp s = false -> stamp_at (drop m s) = false.
Proof.
  revert s; induction m as [|m IH]; intros s H.
  - destruct s; cbn [contains_stamp drop] in *;
      now apply orb_false_elim in H as [H _].
  - destruct s as [|c s]; [reflexivity|].
    cbn [contains_stamp drop] in *. apply orb_false_elim in H as [_ H].
    now apply IH.
Qed.

Lemma drop_app (m : nat) (a b : string) :
  m <= length a -> drop m (a ++ b) = drop m a ++ b.
Proof.
  revert a; induction m as [|m IH]; intros a L; [reflexivity|].
  destruct a as [|c a]; [cbn in L; lia|].
  cbn. apply IH. cbn in L. lia.
Qed.

(** A stem without a stamp inside admits no split before its end. *)
Lemma no_early_split (stem t rest : string) (m : nat) :
  contains_stamp stem = false -> is_timestamp t = true ->
  m < length stem ->
  tail_ok (drop m (stem ++ "_" ++ t ++ rest)) = false.
Proof.
  intros Hc Hts Hm.
  rewrite drop_app by lia.
  pose proof (contains_stamp_drop _ m Hc) as Hs.
  assert (Hl : 1 <= length (drop m stem)) by (rewrite length_drop; lia).
  set (a := drop m stem) in *. clearbody a.
  destruct (tail_ok (a ++ "_" ++ t ++ rest)) eqn:T; [exfalso | reflexivity].
  destruct (Nat.le_gt_cases 16 (length a)) as [G|G].
  - unfold tail_ok in T. rewrite (stamp_at_app _ _ G), Hs in T. discriminate.
  - apply tail_ok_dot in T.
    replace 16 with ((16 - length a) + length a) in T by lia.
    rewrite <- append_correct2 in T.
    destruct (16 - length a) as [|k] eqn:K; [lia|].
    cbn [append get] in T.
    rewrite <- append_correct1 in T
      by (rewrite (is_timestamp_length _ Hts); lia).
    now apply (timestamp_no_dot t k Hts).
Qed.

(** C7 (amended): the name generated for a file decodes to its stem and
    to the timestamp of the reading, provided the base name has a stem
    (the part before its extension) that is not empty, holds no
    underscore followed by a timestamp shape, and an extension of at least
    one character after the dot, the base name has no newline, and the
    reading has a four-digit year. *)
Theorem name_round_trip (now : Civil) (sourcePath : string) :
  let fileName := Base sourcePath in
  let ext := Ext fileName in
  let stem := take (length fileName - length ext) fileName in
  four_digit_year now = true -> valid_civil now = true ->
  stem <> "" -> contains_stamp stem = false ->
  2 <= length ext -> no_newline fileName = true ->
  parseFileName (generateFileName now sourcePath false)
  = (stem, Format_stamp now, true).
Proof.
  cbv zeta. intros Y V Hne Hc Hext Hnl.
  unfold generateFileName.
  destruct (Ext_split (Base sourcePath)) as [Hsplit Hdot].
  set (fileName := Base sourcePath) in *.
  set (ext := Ext fileName) in *.
  set (stem := take (length fileName - length ext) fileName) in *.
  pose proof (Format_stamp_shape now Y V) as Hts.
  destruct Hdot as [E|[e E]]; [rewrite E in Hext; cbn in Hext; lia|].
  rewrite Hsplit, no_newline_app in Hnl. apply andb_prop in Hnl as [N1 N2].
  rewrite E in *.
  apply parseFileName_shortest with (e := e).
  - split; [reflexivity|]. split; [exact Hne|]. split; [exact N1|].
    split; [exact Hts|]. split.
    + intros ->. cbn in Hext. lia.
    + unfold no_newline in *. cbn in N2. exact N2.
  - intros m Hm. apply no_early_split; [assumption | assumption | lia].
Qed.

Local Open Scope Z_scope.

(** ** Binary64 arithmetic on the values an age can take *)

Lemma digits2_pos_size (p : positive) : digits2_pos p = Pos.size p.
Proof. induction p as [p IH|p IH|]; cbn; now rewrite ?IH. Qed.

(** [p] has exactly [digits2_pos p] binary digits. *)
Lemma digits2_bounds (p : positive) :
  2 ^ (Zpos (digits2_pos p) - 1) <= Zpos p < 2 ^ Zpos (digits2_pos p).
Proof.
  induction p as [p IH|p IH|].
  - cbn [digits2_pos]. rewrite Pos2Z.inj_succ.
    replace (Z.succ (Zpos (digits2_pos p)) - 1) with (Z.succ (Zpos (digits2_pos p) - 1)) by lia.
    rewrite !Z.pow_succ_r by lia. lia.
  - cbn [digits2_pos]. rewrite Pos2Z.inj_succ.
    replace (Z.succ (Zpos (digits2_pos p)) - 1) with (Z.succ (Zpos (digits2_pos p) - 1)) by lia.
    rewrite !Z.pow_succ_r by lia. lia.
  - cbn. lia.
Qed.

(** The number of digits is determined by the bounds. *)
Lemma digits2_unique (p : positive) (d : Z) :
  2 ^ (d - 1) <= Zpos p < 2 ^ d -> Zpos (digits2_pos p) = d.
Proof.
  intros [L U]. pose proof (digits2_bounds p) as [L' U'].
  assert (0 < d).
  { destruct (Z.lt_trichotomy d 0) as [N|[N|N]]; [|subst d; cbn in U; lia|lia].
    rewrite Z.pow_neg_r in U by lia. lia. }
  destruct (Z.lt_trichotomy (Zpos (digits2_pos p)) d) as [N|[N|N]]; [|lia|].
  - assert (2 ^ Zpos (digits2_pos p) <= 2 ^ (d - 1))
      by (apply Z.pow_le_mono_r; lia). lia.
  - assert (2 ^ d <= 2 ^ (Zpos (digits2_pos p) - 1))
      by (apply Z.pow_le_mono_r; lia). lia.
Qed.

(** *** Shifting right *)

Lemma shr_1_m (r : shr_record) :
  0 <= shr_m r -> shr_m (shr_1 r) = shr_m r / 2.
Proof.
  destruct r as [m r s]. cbn [shr_m]. intros H.
  destruct m as [|p|p]; [reflexivity| |lia].
  destruct p as [p|p|]; cbn [shr_1 shr_m].
  - rewrite Pos2Z.inj_xI. apply Z.div_unique with (r := 1); lia.
  - rewrite Pos2Z.inj_xO. apply Z.div_unique with (r := 0); lia.
  - reflexivity.
Qed.

Lemma shr_iter_m (n : positive) (r : shr_record) :
  0 <= shr_m r ->
  shr_m (iter_pos shr_1 n r) = shr_m r / 2 ^ Zpos n.
Proof.
  revert r; induction n as [n IH|n IH|]; intros r H; cbn [iter_pos].
  - assert (P : 0 < 2 ^ Zpos n) by (apply Z.pow_pos_nonneg; lia).
    assert (H1 : 0 <= shr_m (shr_1 r))
      by (rewrite shr_1_m by lia; apply Z.div_pos; lia).
    assert (H2 : 0 <= shr_m (iter_pos shr_1 n (shr_1 r)))
      by (rewrite IH by lia; apply Z.div_pos; lia).
    rewrite IH, IH, shr_1_m by lia.
    rewrite !Z.div_div by lia. f_equal.
    replace (Zpos n~1) with (1 + Zpos n + Zpos n) by lia.
    rewrite !Z.pow_add_r by lia. lia.
  - assert (P : 0 < 2 ^ Zpos n) by (apply Z.pow_pos_nonneg; lia).
    assert (H2 : 0 <= shr_m (iter_pos shr_1 n r))
      by (rewrite IH by lia; apply Z.div_pos; lia).
    rewrite IH, IH by lia.
    rewrite !Z.div_div by lia. f_equal.
    rewrite <- Z.pow_add_r by lia. f_equal. lia.
  - rewrite shr_1_m by lia. reflexivity.
Qed.

Lemma shr_spec (r : shr_record) (e n : Z) :
  0 <= shr_m r ->
  shr_m (fst (shr r e n)) = shr_m r / 2 ^ Z.max n 0
  /\ snd (shr r e n) = e + Z.max n 0.
Proof.
  intros H. destruct n as [|n|n]; cbn [shr fst snd].
  - cbn. rewrite Z.div_1_r. lia.
  - rewrite shr_iter_m by exact H.
    replace (Z.max (Zpos n) 0) with (Zpos n) by lia. now split.
  - replace (Z.max (Zneg n) 0) with 0 by lia. cbn. rewrite Z.div_1_r. lia.
Qed.

Lemma shr_record_of_loc_m (m : Z) (l : location) :
  shr_m (shr_record_of_loc m l) = m.
Proof. now destruct l as [|[| |]]. Qed.

Lemma round_nearest_even_cases (m : Z) (l : location) :
  round_nearest_even m l = m \/ round_nearest_even m l = m + 1.
Proof.
  destruct l as [|[| |]]; cbn; auto.
  destruct (Z.even m); auto.
Qed.

Lemma fexp64 (e : Z) : fexp 53 1024 e = Z.max (e - 53) (-1074).
Proof. reflexivity. Qed.

(** What [shr_fexp] does to a positive mantissa in the normal range. *)
Lemma shr_fexp_spec (p : positive) (e : Z) (l : location) :
  let d := Zpos (digits2_pos p) in
  53 <= d -> -1074 <= d + e - 53 ->
  shr_m (fst (shr_fexp 53 1024 (Zpos p) e l)) = Zpos p / 2 ^ (d - 53)
  /\ snd (shr_fexp 53 1024 (Zpos p) e l) = e + (d - 53).
Proof.
  cbv zeta. intros D E. unfold shr_fexp. cbn [Zdigits2]. rewrite fexp64.
  replace (Z.max (Zpos (digits2_pos p) + e - 53) (-1074) - e)
    with (Zpos (digits2_pos p) - 53) by lia.
  pose proof (shr_spec (shr_record_of_loc (Zpos p) l) e
                (Zpos (digits2_pos p) - 53)) as S.
  rewrite shr_record_of_loc_m in S.
  replace (Z.max (Zpos (digits2_pos p) - 53) 0)
    with (Zpos (digits2_pos p) - 53) in S by lia.
  apply S. lia.
Qed.

Lemma div_pow2_bounds (p : positive) :
  let d := Zpos (digits2_pos p) in
  53 <= d -> 2 ^ 52 <= Zpos p / 2 ^ (d - 53) < 2 ^ 53.
Proof.
  cbv zeta. intros D. pose proof (digits2_bounds p) as [L U].
  set (d := Zpos (digits2_pos p)) in *.
  assert (P : 0 < 2 ^ (d - 53)) by (apply Z.pow_pos_nonneg; lia).
  assert (E1 : 2 ^ (d - 1) = 2 ^ 52 * 2 ^ (d - 53))
    by (rewrite <- Z.pow_add_r by lia; f_equal; lia).
  assert (E2 : 2 ^ d = 2 ^ 53 * 2 ^ (d - 53))
    by (rewrite <- Z.pow_add_r by lia; f_equal; lia).
  split.
  - apply Z.div_le_lower_bound; lia.
  - apply Z.div_lt_upper_bound; lia.
Qed.

(** Rounding a positive mantissa of at least 53 digits, in the normal
    range: the result is normalized and not below the mantissa cut to its
    53 leading digits. *)
Lemma binary_round_aux_normal (p : positive) (ex : Z) (lx : location) :
  let d := Zpos (digits2_pos p) in
  let n := d - 53 in
  53 <= d -> -1074 <= d + ex - 53 ->
  binary_round_aux 53 1024 false (Zpos p) ex lx = S754_infinity false
  \/ exists m e,
       binary_round_aux 53 1024 false (Zpos p) ex lx = S754_finite false m e
       /\ 2 ^ 52 <= Zpos m < 2 ^ 53
       /\ ex + n <= e
       /\ (Zpos p / 2 ^ n) * 2 ^ n <= Zpos m * 2 ^ (e - ex).
Proof.
  cbv zeta. intros D E.
  pose proof (shr_fexp_spec p ex lx D E) as [M1 E1].
  pose proof (div_pow2_bounds p D) as B1.
  set (n := Zpos (digits2_pos p) - 53) in *.
  assert (Hn : n = Zpos (digits2_pos p) - 53) by reflexivity.
  clearbody n.
  assert (Pn : 0 < 2 ^ n) by (apply Z.pow_pos_nonneg; lia).
  unfold binary_round_aux.
  destruct (shr_fexp 53 1024 (Zpos p) ex lx) as [mrs' e'].
  cbn [fst snd] in M1, E1.
  set (m1 := shr_m mrs') in *.
  set (m2 := round_nearest_even m1 (loc_of_shr_record mrs')).
  assert (C : m2 = m1 \/ m2 = m1 + 1) by apply round_nearest_even_cases.
  assert (B2 : 2 ^ 52 <= m2 <= 2 ^ 53) by lia.
  destruct m2 as [|q|q] eqn:Q; [lia| |lia].
  assert (Dq : Zpos (digits2_pos q) = 53 \/
               (Zpos q = 2 ^ 53 /\ Zpos (digits2_pos q) = 54)).
  { destruct (Z.eq_dec (Zpos q) (2 ^ 53)) as [Eq|Nq].
    - right. split; [exact Eq|]. apply digits2_unique. rewrite Eq.
      change (54 - 1) with 53. split; [lia|]. apply Z.pow_lt_mono_r; lia.
    - left. apply digits2_unique. change (53 - 1) with 52. lia. }
  assert (He' : -1074 <= e') by (clear - E E1 Hn; lia).
  destruct Dq as [Dq|[Eq Dq]].
  - pose proof (shr_fexp_spec q e' loc_Exact) as S2. cbv zeta in S2.
    rewrite Dq in S2.
    assert (X2 : -1074 <= 53 + e' - 53) by (clear - He'; lia).
    specialize (S2 ltac:(clear; lia) X2).
    destruct S2 as [M2 E2].
    destruct (shr_fexp 53 1024 (Zpos q) e' loc_Exact) as [mrs'' e''].
    cbn [fst snd] in M2, E2. change (53 - 53) with 0 in M2, E2.
    rewrite Z.pow_0_r, Z.div_1_r in M2. rewrite M2.
    destruct (e'' <=? 1024 - 53); [right | now left].
    exists q, e''. split; [reflexivity|].
    pose proof (digits2_bounds q) as [_ Uq]. rewrite Dq in Uq.
    replace (e'' - ex) with n by lia. split; [lia|]. split; [lia|].
    apply Z.mul_le_mono_nonneg_r; lia.
  - pose proof (shr_fexp_spec q e' loc_Exact) as S2. cbv zeta in S2.
    rewrite Dq in S2.
    assert (X2 : -1074 <= 54 + e' - 53) by (clear - He'; lia).
    specialize (S2 ltac:(clear; lia) X2).
    destruct S2 as [M2 E2].
    destruct (shr_fexp 53 1024 (Zpos q) e' loc_Exact) as [mrs'' e''].
    cbn [fst snd] in M2, E2. change (54 - 53) with 1 in M2, E2.
    rewrite Eq in M2. change (2 ^ 53 / 2 ^ 1) with (2 ^ 52) in M2.
    rewrite M2. change (2 ^ 52) with (Zpos (2 ^ 52)%positive).
    cbv iota.
    destruct (e'' <=? 1024 - 53); [right | now left].
    exists (2 ^ 52)%positive, e''. split; [reflexivity|].
    replace (e'' - ex) with (1 + n) by lia.
    rewrite Z.pow_add_r by lia.
    change (Zpos (2 ^ 52)%positive) with (2 ^ 52).
    split; [split; [lia | apply Z.pow_lt_mono_r; lia]|].
    split; [lia|].
    change (2 ^ 1) with 2.
    replace (2 ^ 52 * (2 * 2 ^ n)) with (2 ^ 53 * 2 ^ n)
      by (change (2 ^ 53) with (2 * 2 ^ 52); lia).
    apply Z.mul_le_mono_nonneg_r; lia.
Qed.

(** A normalized mantissa with loc_Exact is left as it is. *)
Lemma binary_round_aux_exact (sx : bool) (p : positive) (e : Z) :
  Zpos (digits2_pos p) = 53 -> -1074 <= e <= 971 ->
  binary_round_aux 53 1024 sx (Zpos p) e loc_Exact = S754_finite sx p e.
Proof.
  intros D E.
  assert (S : shr_fexp 53 1024 (Zpos p) e loc_Exact
              = (Build_shr_record (Zpos p) false false, e)).
  { unfold shr_fexp. cbn [Zdigits2]. rewrite D, fexp64.
    replace (Z.max (53 + e - 53) (-1074) - e) with 0 by lia. reflexivity. }
  unfold binary_round_aux. rewrite S. cbn [shr_m loc_of_shr_record
    round_nearest_even]. rewrite S. cbn [shr_m].
  replace (e <=? 1024 - 53) with true; [reflexivity|].
  symmetry. apply Z.leb_le. lia.
Qed.

Lemma iter_xO_value (p k : positive) :
  Zpos (Pos.iter xO p k) = Zpos p * 2 ^ Zpos k.
Proof.
  change (Pos.iter xO p k) with (shift_pos k p).
  rewrite Zpower.shift_pos_correct. change (Z.pow_pos 2 k) with (2 ^ Zpos k).
  lia.
Qed.

Lemma shl_align_value (mx : positive) (ex ez : Z) :
  ez <= ex -> Zpos (fst (shl_align mx ex ez)) = Zpos mx * 2 ^ (ex - ez).
Proof.
  intros H. unfold shl_align.
  destruct (ez - ex) as [|d|d] eqn:E; cbn [fst].
  - replace (ex - ez) with 0 by lia. cbn. lia.
  - lia.
  - rewrite iter_xO_value. f_equal. f_equal. lia.
Qed.

(** [float64(z)] is exact for a positive integer below [2^53]. *)
Lemma float64_of_int_pos (z : Z) :
  0 < z < 2 ^ 53 ->
  exists m e,
    float64_of_int z = S754_finite false m e
    /\ 2 ^ 52 <= Zpos m < 2 ^ 53
    /\ -52 <= e <= 0
    /\ Zpos m = z * 2 ^ (- e).
Proof.
  intros [L U]. destruct z as [|p|p]; [lia| |lia].
  unfold float64_of_int, binary_normalize, binary_round, prec,
    emax.
  rewrite fexp64.
  pose proof (digits2_bounds p) as [Lp Up].
  set (d := Zpos (digits2_pos p)) in *.
  assert (D1 : 1 <= d) by (unfold d; lia).
  assert (D2 : d <= 53).
  { destruct (Z.le_gt_cases d 53) as [|G]; [assumption|].
    assert (2 ^ 53 <= 2 ^ (d - 1)) by (apply Z.pow_le_mono_r; lia). lia. }
  replace (Z.max (d + 0 - 53) (-1074)) with (d - 53) by lia.
  pose proof (shl_align_value p 0 (d - 53) ltac:(lia)) as V.
  assert (X : snd (shl_align p 0 (d - 53)) = d - 53).
  { unfold shl_align. destruct (d - 53 - 0) as [|k|k] eqn:K; cbn [snd]; lia. }
  destruct (shl_align p 0 (d - 53)) as [mz ez]. cbn [fst snd] in V, X.
  subst ez. replace (0 - (d - 53)) with (53 - d) in V by lia.
  assert (P : 0 < 2 ^ (53 - d)) by (apply Z.pow_pos_nonneg; lia).
  assert (Dm : Zpos (digits2_pos mz) = 53).
  { apply digits2_unique. rewrite V. change (53 - 1) with 52.
    replace (2 ^ 52) with (2 ^ (d - 1) * 2 ^ (53 - d))
      by (rewrite <- Z.pow_add_r by lia; f_equal; lia).
    replace (2 ^ 53) with (2 ^ d * 2 ^ (53 - d))
      by (rewrite <- Z.pow_add_r by lia; f_equal; lia).
    split; [apply Z.mul_le_mono_nonneg_r | apply Z.mul_lt_mono_pos_r]; lia. }
  rewrite binary_round_aux_exact by (assumption || lia).
  exists mz, (d - 53). split; [reflexivity|].
  pose proof (digits2_bounds mz) as Bm. rewrite Dm in Bm.
  change (53 - 1) with 52 in Bm.
  repeat split; try lia.
  rewrite V. f_equal. f_equal. lia.
Qed.

(** Comparison of positive normalized numbers follows their values. *)
Lemma SFcompare_normal_lt (m1 m2 : positive) (e1 e2 u : Z) :
  2 ^ 52 <= Zpos m1 < 2 ^ 53 -> 2 ^ 52 <= Zpos m2 < 2 ^ 53 ->
  u <= e1 -> u <= e2 ->
  Zpos m1 * 2 ^ (e1 - u) < Zpos m2 * 2 ^ (e2 - u) ->
  SFcompare (S754_finite false m1 e1) (S754_finite false m2 e2) = Some Lt.
Proof.
  intros B1 B2 U1 U2 H. cbn [SFcompare]. f_equal.
  assert (P2 : 0 < 2 ^ (e2 - u)) by (apply Z.pow_pos_nonneg; lia).
  destruct (Z.compare_spec e1 e2) as [E|E|E]; [|reflexivity|exfalso].
  - subst e2. change (Pos.compare_cont Eq m1 m2) with (Pos.compare m1 m2).
    assert (Zpos m1 < Zpos m2)
      by (apply Z.mul_lt_mono_pos_r with (p := 2 ^ (e1 - u)); assumption).
    apply Pos.compare_lt_iff. lia.
  - assert (2 * 2 ^ (e2 - u) <= 2 ^ (e1 - u)).
    { replace (2 * 2 ^ (e2 - u)) with (2 ^ (e2 - u + 1))
        by (rewrite Z.pow_add_r by lia; lia).
      apply Z.pow_le_mono_r; lia. }
    change (2 ^ 53) with (2 * 2 ^ 52) in *. nia.
Qed.

(** *** Signs *)

Lemma shr_nonneg (r : shr_record) (e n : Z) :
  0 <= shr_m r -> 0 <= shr_m (fst (shr r e n)).
Proof.
  intros H. rewrite (proj1 (shr_spec r e n H)).
  apply Z.div_pos; [exact H | apply Z.pow_pos_nonneg; lia].
Qed.

(** Rounding a mantissa that is not negative gives a zero, a finite
    number or an infinity of the given sign. *)
Lemma binary_round_aux_signed (sx : bool) (mx ex : Z) (lx : location) :
  0 <= mx -> signed sx (binary_round_aux 53 1024 sx mx ex lx).
Proof.
  intros H. unfold binary_round_aux, shr_fexp.
  pose proof (shr_nonneg (shr_record_of_loc mx lx) ex
                (fexp 53 1024 (Zdigits2 mx + ex) - ex)) as N1.
  rewrite shr_record_of_loc_m in N1. specialize (N1 H).
  destruct (shr _ ex _) as [mrs' e']. cbn [fst] in N1.
  set (m2 := round_nearest_even (shr_m mrs') (loc_of_shr_record mrs')).
  assert (N2 : 0 <= m2).
  { destruct (round_nearest_even_cases (shr_m mrs') (loc_of_shr_record mrs'));
      unfold m2; lia. }
  pose proof (shr_nonneg (shr_record_of_loc m2 loc_Exact) e'
                (fexp 53 1024 (Zdigits2 m2 + e') - e')) as N3.
  rewrite shr_record_of_loc_m in N3. specialize (N3 N2).
  destruct (shr _ e' _) as [mrs'' e'']. cbn [fst] in N3.
  destruct (shr_m mrs'') as [|q|q]; [now left| |lia].
  destruct (e'' <=? 1024 - 53); right; [right; eauto | now left].
Qed.

Lemma f64_div_signed (mx my : positive) (ex ey : Z) :
  signed false (f64_div (S754_finite false mx ex) (S754_finite false my ey)).
Proof.
  unfold f64_div, SFdiv, SFdiv_core_binary.
  set (s := _ - _ - _).
  set (m' := match s with Z0 => Zpos mx | Zpos _ => Z.shiftl (Zpos mx) s
                        | Zneg _ => 0 end).
  assert (N : 0 <= m').
  { unfold m'. destruct s; try lia. apply Z.shiftl_nonneg. lia. }
  pose proof (Z.div_pos m' (Zpos my) N ltac:(lia)) as Q.
  unfold Z.div in Q. destruct (Z.div_eucl m' (Zpos my)) as [q r].
  cbn [xorb]. apply binary_round_aux_signed. exact Q.
Qed.

(** *** Sums *)

(** Adding a positive number to a positive normalized number does not
    give less. *)
Lemma f64_add_lower (mh mf : positive) (eh ef : Z) :
  let ez := Z.min eh ef in
  2 ^ 52 <= Zpos mh < 2 ^ 53 -> -52 <= eh ->
  f64_add (S754_finite false mh eh) (S754_finite false mf ef)
  = S754_infinity false
  \/ exists m e,
       f64_add (S754_finite false mh eh) (S754_finite false mf ef)
       = S754_finite false m e
       /\ 2 ^ 52 <= Zpos m < 2 ^ 53
       /\ ez <= e
       /\ forall c,
            c * 2 ^ (eh - ez)
            <= Zpos mh * 2 ^ (eh - ez) + Zpos mf * 2 ^ (ef - ez) ->
            c <= 2 ^ 53 ->
            c * 2 ^ (eh - ez) <= Zpos m * 2 ^ (e - ez).
Proof.
  cbv zeta. intros Bh Eh.
  unfold f64_add, SFadd, prec, emax. cbn [cond_Zopp].
  set (ez := Z.min eh ef).
  pose proof (shl_align_value mh eh ez ltac:(lia)) as Va.
  pose proof (shl_align_value mf ef ez ltac:(lia)) as Vb.
  set (a := fst (shl_align mh eh ez)) in *.
  set (b := fst (shl_align mf ef ez)) in *.
  change (Zpos a + Zpos b) with (Zpos (a + b)).
  cbn [binary_normalize]. unfold binary_round.
  set (k := eh - ez) in *.
  assert (K : 0 <= k) by lia.
  assert (Pk : 0 < 2 ^ k) by (apply Z.pow_pos_nonneg; lia).
  pose proof (digits2_bounds (a + b)) as [Ls Us].
  set (d := Zpos (digits2_pos (a + b))) in *.
  assert (Sab : Zpos (a + b) = Zpos a + Zpos b) by reflexivity.
  assert (D : 53 + k <= d).
  { destruct (Z.le_gt_cases (53 + k) d) as [|G]; [assumption|exfalso].
    assert (2 ^ d <= 2 ^ (52 + k)) by (apply Z.pow_le_mono_r; lia).
    rewrite Z.pow_add_r in H by lia. nia. }
  rewrite fexp64.
  assert (A : shl_align (a + b) ez (Z.max (d + ez - 53) (-1074))
              = ((a + b)%positive, ez)).
  { unfold shl_align.
    destruct (Z.max (d + ez - 53) (-1074) - ez) eqn:X; try reflexivity. lia. }
  rewrite A.
  destruct (binary_round_aux_normal (a + b) ez loc_Exact)
    as [I|(m & e & R & Bm & Ee & V)]; fold d; try lia.
  { now left. }
  right. exists m, e. split; [exact R|]. split; [exact Bm|].
  fold d in Ee, V. split; [lia|].
  intros c Hc Hc53.
  eapply Z.le_trans; [|exact V].
  set (n := d - 53) in *.
  assert (Pn : 0 < 2 ^ n) by (apply Z.pow_pos_nonneg; lia).
  rewrite <- Va, <- Vb, <- Sab in Hc.
  destruct (Z.eq_dec n k) as [->|N].
  - apply Z.mul_le_mono_nonneg_r; [lia|].
    apply Z.div_le_lower_bound; lia.
  - pose proof (div_pow2_bounds (a + b)) as Bq. cbv zeta in Bq.
    fold d in Bq. fold n in Bq. specialize (Bq ltac:(lia)).
    assert (2 * 2 ^ k <= 2 ^ n).
    { replace (2 * 2 ^ k) with (2 ^ (k + 1))
        by (rewrite Z.pow_add_r by lia; lia).
      apply Z.pow_le_mono_r; lia. }
    change (2 ^ 53) with (2 * 2 ^ 52) in *. nia.
Qed.

(** *** The age test *)

Lemma SFcompare_refl_finite (s : bool) (m : positive) (e : Z) :
  SFcompare (S754_finite s m e) (S754_finite s m e) = Some Eq.
Proof.
  cbn [SFcompare]. rewrite Z.compare_refl.
  change (Pos.compare_cont Eq m m) with (Pos.compare m m).
  rewrite Pos.compare_refl. now destruct s.
Qed.

Lemma wrap64_small (z : Z) : - 2 ^ 63 <= z < 2 ^ 63 -> wrap64 z = z.
Proof.
  intros H. unfold wrap64. rewrite Z.mod_small; lia.
Qed.

(** An age of a whole number of hours, compared with as many hours. *)
Lemma older_than_exact_threshold (maxDays : Z) :
  0 <= maxDays <= 106751 ->
  older_than (maxDays * 24 * Hour) maxDays = false.
Proof.
  intros H. unfold older_than, Hours.
  rewrite wrap64_small by lia.
  rewrite Z.quot_mul, Z.rem_mul by (unfold Hour, Second; lia).
  change (f64_div (float64_of_int 0) (float64_of_int 3600000000000))
    with (S754_zero false).
  unfold f64_gt, SFltb.
  destruct (Z.eq_dec maxDays 0) as [->|N]; [reflexivity|].
  destruct (float64_of_int_pos (maxDays * 24)) as (m & e & -> & _).
  { change (2 ^ 53) with 9007199254740992. lia. }
  unfold f64_add. cbn [SFadd]. now rewrite SFcompare_refl_finite.
Qed.

(** An integer against a positive normalized number. *)
Lemma SFcompare_int_lt (M : Z) (m : positive) (e u : Z) :
  0 <= M < 2 ^ 53 -> 2 ^ 52 <= Zpos m < 2 ^ 53 -> u <= e -> u <= 0 ->
  M * 2 ^ (- u) < Zpos m * 2 ^ (e - u) ->
  SFcompare (float64_of_int M) (S754_finite false m e) = Some Lt.
Proof.
  intros HM Bm Ue U0 V.
  destruct (Z.eq_dec M 0) as [->|N]; [reflexivity|].
  destruct (float64_of_int_pos M ltac:(lia))
    as (mM & eM & -> & BM & EM & VM).
  apply SFcompare_normal_lt with (u := Z.min u eM); try lia.
  set (v := Z.min u eM).
  assert (Pv : 0 < 2 ^ (u - v)) by (apply Z.pow_pos_nonneg; lia).
  assert (E1 : Zpos mM * 2 ^ (eM - v) = M * 2 ^ (- u) * 2 ^ (u - v)).
  { rewrite VM, <- !Z.mul_assoc, <- !Z.pow_add_r by lia. do 2 f_equal. lia. }
  assert (E3 : Zpos m * 2 ^ (e - v) = Zpos m * 2 ^ (e - u) * 2 ^ (u - v)).
  { rewrite <- Z.mul_assoc, <- Z.pow_add_r by lia. do 2 f_equal. lia. }
  rewrite E1, E3. apply Z.mul_lt_mono_pos_r; assumption.
Qed.

Lemma SFcompare_int_inf (M : Z) :
  0 <= M < 2 ^ 53 ->
  SFcompare (float64_of_int M) (S754_infinity false) = Some Lt.
Proof.
  intros HM. destruct (Z.eq_dec M 0) as [->|N]; [reflexivity|].
  destruct (float64_of_int_pos M ltac:(lia)) as (mM & eM & -> & _).
  reflexivity.
Qed.

(** The hours and the rest of an age that is not negative. *)
Lemma age_split (age : Z) :
  0 <= age <= maxDuration ->
  let h := Z.quot age Hour in
  let ns := Z.rem age Hour in
  age = h * Hour + ns /\ 0 <= h <= 2562047 /\ 0 <= ns < Hour.
Proof.
  cbv zeta. intros A.
  assert (Hpos : 0 < Hour) by (unfold Hour, Second; lia).
  rewrite Z.quot_div_nonneg, Z.rem_mod_nonneg by lia.
  pose proof (Z.div_mod age Hour ltac:(lia)).
  pose proof (Z.mod_pos_bound age Hour Hpos).
  repeat split; try lia.
  - apply Z.div_pos; lia.
  - assert (age / Hour < 2562048); [|lia].
    apply Z.div_lt_upper_bound; [lia|].
    unfold maxDuration, max_int64, Hour, Second in *. lia.
Qed.

(** An age at least one hour above the threshold exceeds it. *)
Lemma older_than_one_hour_more (age maxDays : Z) :
  0 <= maxDays <= 106751 ->
  (maxDays * 24 + 1) * Hour <= age <= maxDuration ->
  older_than age maxDays = true.
Proof.
  intros Hd Ha. unfold older_than, Hours.
  rewrite wrap64_small by lia.
  set (M := maxDays * 24) in *.
  assert (HM : 0 <= M <= 2562024) by (unfold M; lia).
  assert (Hpos : 0 < Hour) by (unfold Hour, Second; lia).
  destruct (age_split age ltac:(nia)) as (Ea & Hh & Hns).
  set (h := Z.quot age Hour) in *. set (ns := Z.rem age Hour) in *.
  assert (Hh1 : M + 1 <= h) by nia.
  change (2 ^ 53) with 9007199254740992 in *.
  destruct (float64_of_int_pos h) as (mh & eh & Xh & Bh & Eh & Vh);
    [change (2 ^ 53) with 9007199254740992; lia|].
  rewrite Xh.
  assert (F : signed false (f64_div (float64_of_int ns)
                                    (float64_of_int 3600000000000))).
  { destruct (Z.eq_dec ns 0) as [->|N]; [now left|].
    destruct (float64_of_int_pos ns) as (mn & en & -> & _).
    { change (2 ^ 53) with 9007199254740992. unfold Hour, Second in *. lia. }
    change (float64_of_int 3600000000000)
      with (S754_finite false 7372800000000000 (-11)).
    apply f64_div_signed. }
  assert (R53 : 0 <= M < 2 ^ 53)
    by (change (2 ^ 53) with 9007199254740992; lia).
  unfold f64_gt, SFltb.
  destruct F as [F|[F|(mf & ef & F)]]; rewrite F; unfold f64_add;
    cbn [SFadd].
  - rewrite (SFcompare_int_lt M mh eh eh); try lia.
    rewrite Z.sub_diag, Z.mul_1_r, Vh.
    apply Z.mul_lt_mono_pos_r; [apply Z.pow_pos_nonneg|]; lia.
  - now rewrite SFcompare_int_inf.
  - destruct (f64_add_lower mh mf eh ef Bh ltac:(lia))
      as [I|(m & e & R & Bm & Ee & V)]; unfold f64_add in *;
      cbn [SFadd] in *; rewrite ?I, ?R.
    + now rewrite SFcompare_int_inf.
    + rewrite (SFcompare_int_lt M m e (Z.min eh ef)); try lia.
      eapply Z.lt_le_trans; [|apply (V (Zpos mh)); nia].
      rewrite Vh, <- Z.mul_assoc, <- Z.pow_add_r by lia.
      replace (- eh + (eh - Z.min eh ef)) with (- Z.min eh ef) by lia.
      apply Z.mul_lt_mono_pos_r; [apply Z.pow_pos_nonneg|]; lia.
Qed.

(** *** The fraction of an hour *)

(** Dividing a positive normalized number by the float of
    [3600000000000] gives a positive normalized number, of an exponent
    at most 42 lower. *)
Lemma f64_div_hour_lower (mn : positive) (en : Z) :
  2 ^ 52 <= Zpos mn < 2 ^ 53 -> -52 <= en <= 0 ->
  f64_div (S754_finite false mn en) (float64_of_int 3600000000000)
  = S754_infinity false
  \/ exists mf ef,
       f64_div (S754_finite false mn en) (float64_of_int 3600000000000)
       = S754_finite false mf ef
       /\ 2 ^ 52 <= Zpos mf < 2 ^ 53
       /\ en - 42 <= ef.
Proof.
  intros Bn En.
  change (float64_of_int 3600000000000)
    with (S754_finite false 7372800000000000 (-11)).
  assert (Dn : Zpos (digits2_pos mn) = 53)
    by (apply digits2_unique; change (53 - 1) with 52; lia).
  unfold f64_div, SFdiv, SFdiv_core_binary, prec, emax.
  cbn [Zdigits2 xorb]. rewrite Dn.
  change (Zpos (digits2_pos 7372800000000000)) with 53.
  rewrite fexp64.
  replace (Z.min (Z.max (53 + en - (53 + -11) - 53) (-1074)) (en - -11))
    with (en - 42) by lia.
  replace (en - -11 - (en - 42)) with 53 by lia.
  cbv iota. rewrite Z.shiftl_mul_pow2 by lia.
  set (m2 := 7372800000000000%positive).
  set (m' := Zpos mn * 2 ^ 53).
  assert (Q : 2 ^ 52 <= m' / Zpos m2).
  { apply Z.div_le_lower_bound; [lia|]. unfold m', m2.
    change (2 ^ 53) with 9007199254740992.
    change (2 ^ 52) with 4503599627370496 in *. lia. }
  unfold Z.div in Q. destruct (Z.div_eucl m' (Zpos m2)) as [q r].
  destruct q as [|pq|pq]; [lia| |lia].
  pose proof (digits2_bounds pq) as [_ Uq].
  assert (Dq : 53 <= Zpos (digits2_pos pq)).
  { destruct (Z.le_gt_cases 53 (Zpos (digits2_pos pq))) as [|G];
      [assumption|exfalso].
    assert (2 ^ Zpos (digits2_pos pq) <= 2 ^ 52)
      by (apply Z.pow_le_mono_r; lia). lia. }
  destruct (binary_round_aux_normal pq (en - 42) (new_location (Zpos m2) r))
    as [I|(m & e & R & Bm & Ee & _)]; try lia.
  - now left.
  - right. exists m, e. repeat split; try assumption; lia.
Qed.

(** An age above the threshold by 2048 nanoseconds or more, within the
    same hour, exceeds it. *)
Lemma older_than_same_hour (M ns : Z) :
  0 <= M <= 2562047 -> 2048 <= ns < Hour ->
  f64_gt (f64_add (float64_of_int M)
                  (f64_div (float64_of_int ns)
                           (float64_of_int 3600000000000)))
         (float64_of_int M)
  = true.
Proof.
  intros HM Hns.
  assert (R53 : 0 < ns < 2 ^ 53)
    by (change (2 ^ 53) with 9007199254740992; unfold Hour, Second in *; lia).
  destruct (float64_of_int_pos ns R53) as (mn & en & -> & Bn & En & Vn).
  assert (En2 : -41 <= en).
  { destruct (Z.le_gt_cases (-41) en) as [|G]; [assumption|exfalso].
    assert (2 ^ 42 <= 2 ^ (- en)) by (apply Z.pow_le_mono_r; lia).
    change (2 ^ 42) with 4398046511104 in *.
    change (2 ^ 53) with 9007199254740992 in *. nia. }
  unfold f64_gt, SFltb.
  destruct (f64_div_hour_lower mn en Bn En)
    as [I|(mf & ef & R & Bf & Ef)]; rewrite ?I, ?R.
  - unfold f64_add.
    destruct (Z.eq_dec M 0) as [->|N]; [reflexivity|].
    destruct (float64_of_int_pos M) as (mM & eM & -> & _);
      [change (2 ^ 53) with 9007199254740992; lia | reflexivity].
  - destruct (Z.eq_dec M 0) as [->|N]; [reflexivity|].
    destruct (float64_of_int_pos M) as (mh & eh & -> & Bh & Eh & Vh);
      [change (2 ^ 53) with 9007199254740992; lia|].
    assert (Eh2 : eh <= -31).
    { destruct (Z.le_gt_cases eh (-31)) as [|G]; [assumption|exfalso].
      assert (2 ^ (- eh) <= 2 ^ 30) by (apply Z.pow_le_mono_r; lia).
      change (2 ^ 30) with 1073741824 in *.
      change (2 ^ 52) with 4503599627370496 in *. nia. }
    destruct (f64_add_lower mh mf eh ef Bh ltac:(lia))
      as [I|(m & e & A & Bm & Ee & V)]; rewrite ?I, ?A; [reflexivity|].
    rewrite (SFcompare_normal_lt mh m eh e (Z.min eh ef)); try lia.
    set (ez := Z.min eh ef) in *.
    assert (Pk : 0 < 2 ^ (eh - ez)) by (apply Z.pow_pos_nonneg; lia).
    eapply Z.lt_le_trans; [|apply (V (Zpos mh + 1)); [|lia]].
    + lia.
    + assert (2 ^ (eh - ez) <= Zpos mf * 2 ^ (ef - ez)); [|lia].
      assert (2 ^ (eh - ez) <= 2 ^ (52 + (ef - ez)))
        by (apply Z.pow_le_mono_r; lia).
      rewrite Z.pow_add_r in H by lia.
      assert (0 < 2 ^ (ef - ez)) by (apply Z.pow_pos_nonneg; lia). nia.
Qed.

(** An age above the threshold by 2048 nanoseconds or more exceeds
    it. *)
Lemma older_than_above_threshold (age maxDays : Z) :
  0 <= maxDays <= 106751 ->
  maxDays * 24 * Hour + 2048 <= age <= maxDuration ->
  older_than age maxDays = true.
Proof.
  intros Hd Ha.
  destruct (Z.le_gt_cases ((maxDays * 24 + 1) * Hour) age) as [G|L].
  - apply older_than_one_hour_more; lia.
  - unfold older_than, Hours. rewrite wrap64_small by lia.
    assert (Hpos : 0 < Hour) by (unfold Hour, Second; lia).
    assert (Q : Z.quot age Hour = maxDays * 24).
    { rewrite Z.quot_div_nonneg by lia.
      symmetry. apply Z.div_unique with (r := age - maxDays * 24 * Hour); lia. }
    assert (R : Z.rem age Hour = age - maxDays * 24 * Hour).
    { rewrite Z.rem_mod_nonneg by lia.
      symmetry. apply Z.mod_unique with (q := maxDays * 24); lia. }
    rewrite Q, R. apply older_than_same_hour; lia.
Qed.


(** ** The threshold of the age test *)

Lemma Sub_exact (now t : Z) :
  minDuration <= now - t <= maxDuration -> Sub now t = now - t.
Proof.
  intros H. unfold Sub.
  destruct (Z.ltb_spec (now - t) minDuration); [lia|].
  destruct (Z.ltb_spec maxDuration (now - t)); [lia | reflexivity].
Qed.

Lemma Sub_lower (now t d : Z) :
  0 <= d <= maxDuration -> d <= now - t -> d <= Sub now t <= maxDuration.
Proof.
  intros Hd H. unfold Sub.
  assert (minDuration < 0) by reflexivity.
  destruct (Z.ltb_spec (now - t) minDuration); [lia|].
  destruct (Z.ltb_spec maxDuration (now - t)); lia.
Qed.

Local Close Scope Z_scope.

Section ThresholdProperties.

Variable Store : Type.
Variable Local : Z -> Z.
Variable clock : nat -> Z.

(** C2 (amended): for a timestamp that parses and a threshold of 0 to
    106751 days, the artifact is kept at the instant its age is exactly
    that many days of 24 hours, and is eligible for deletion at every
    instant 2048 nanoseconds or more after that, whatever the time of day:
    the ages are compared as hours in [float64], not as whole days. *)
Theorem threshold_boundary (timeStamp : string) (parsedTime maxDays : Z) :
  ParseInLocation Local timeStamp = Some parsedTime ->
  (0 <= maxDays <= 106751)%Z ->
  let threshold := (maxDays * 24 * Hour)%Z in
  age_exceeds Local timeStamp maxDays (parsedTime + threshold) = false
  /\ (forall listed,
        classify true
          (age_exceeds Local timeStamp maxDays (parsedTime + threshold))
          listed
        = Skip within_retention_window)
  /\ (forall now,
        (parsedTime + threshold + 2048 <= now)%Z ->
        age_exceeds Local timeStamp maxDays now = true
        /\ classify true (age_exceeds Local timeStamp maxDays now) false
           = Delete)
  /\ (forall w : World Store,
        fst (isFileOlderThanDays Store Local clock timeStamp maxDays w)
        = age_exceeds Local timeStamp maxDays (clock (reads w))).
Proof.
  intros P Hd threshold.
  assert (T : (0 <= threshold <= maxDuration - 2048)%Z).
  { unfold threshold, maxDuration, max_int64, Hour, Second. lia. }
  assert (A : age_exceeds Local timeStamp maxDays (parsedTime + threshold)
              = false).
  { unfold age_exceeds. rewrite P, Sub_exact.
    - replace (parsedTime + threshold - parsedTime)%Z with threshold by lia.
      now apply older_than_exact_threshold.
    - unfold minDuration, min_int64 in *. lia. }
  split; [exact A|]. split; [intros listed; now rewrite A|]. split.
  - intros now Hn.
    assert (B : age_exceeds Local timeStamp maxDays now = true).
    { unfold age_exceeds. rewrite P.
      apply older_than_above_threshold; [exact Hd|].
      apply Sub_lower; fold threshold; lia. }
    split; [exact B | now rewrite B].
  - intros w. now rewrite isFileOlderThanDays_run.
Qed.

End ThresholdProperties.


(** ** The theorems at concrete inputs *)

Lemma threshold_boundary_witness :
  ParseInLocation demo_Local "20251020_095000" = Some 1760953800000000000%Z
  /\ age_exceeds demo_Local "20251020_095000" 1 (demo_clock 0) = true.
Proof.
  assert (P : ParseInLocation demo_Local "20251020_095000"
              = Some 1760953800000000000%Z) by reflexivity.
  split; [exact P|].
  apply (threshold_boundary demo_Store demo_Local demo_clock
           "20251020_095000" 1760953800000000000 1 P);
    [lia | vm_compute; discriminate].
Defined.

Lemma unrecognized_names_are_skipped_witness :
  ~ matches_pattern "notes.txt"
  /\ parseFileName "notes.txt" = ("", "", false).
Proof.
  assert (H : ~ matches_pattern "notes.txt").
  { intros M. destruct (parseFileName_complete _ M) as (p & t & E).
    discriminate E. }
  split; [exact H|].
  exact (proj1 (unrecognized_names_are_skipped
                  demo_Store demo_Object_Delete demo_Local demo_clock
                  "notes.txt" H)).
Defined.

Lemma invalid_timestamp_never_deleted_witness :
  parseFileName "x_20251320_095000.log" = ("x", "20251320_095000", true)
  /\ valid_civil (fields_of "20251320_095000") = false
  /\ cleanupFile demo_Store demo_Object_Delete demo_Local demo_clock
       "bk/" 0 [] 0 "x_20251320_095000.log" demo_world
     = (0, extend demo_world 0
             [Printf (MsgParseWarning "20251320_095000");
              Printf (MsgNotExpired "x_20251320_095000.log")]).
Proof.
  split; [reflexivity|]. split; [reflexivity|].
  exact (proj1 (proj2 (invalid_timestamp_never_deleted
                         demo_Store demo_Object_Delete demo_Local demo_clock
                         "x_20251320_095000.log" "x" "20251320_095000"
                         eq_refl eq_refl "bk/" 0%Z [] 0 demo_world))).
Defined.

Lemma name_round_trip_witness :
  parseFileName
    (generateFileName (mkCivil 2025 10 21 9 54 49) "/home/u/test1.txt" false)
  = ("test1", "20251021_095449", true).
Proof.
  apply (name_round_trip (mkCivil 2025 10 21 9 54 49) "/home/u/test1.txt");
    try reflexivity.
  - discriminate.
  - cbn. lia.
Defined.

Lemma retention_threshold_defaults_to_seven_witness :
  Atoi (demo_Getenv_bad_days "CLEANUP_DAYS") = None
  /\ cleanupDays_of_env demo_Getenv_bad_days = 7%Z.
Proof.
  split; [reflexivity|].
  apply (proj1 (proj2 (retention_threshold_defaults_to_seven
                         demo_Store demo_Bucket_Get demo_Object_Delete
                         demo_Getenv_bad_days demo_TrimSpace demo_Local
                         demo_clock "bk/" demo_world))).
  right. reflexivity.
Defined.

Lemma cleanup_disabled_touches_nothing_witness :
  demo_Getenv_off "CLEANUP_ENABLED" <> "true"
  /\ performCleanup demo_Store demo_Bucket_Get demo_Object_Delete
       demo_Getenv_off demo_TrimSpace demo_Local demo_clock "bk/" demo_world
     = (tt, demo_world).
Proof.
  assert (H : demo_Getenv_off "CLEANUP_ENABLED" <> "true") by discriminate.
  split; [exact H|].
  exact (cleanup_disabled_touches_nothing
           demo_Store demo_Bucket_Get demo_Object_Delete demo_Getenv_off
           demo_TrimSpace demo_Local demo_clock "bk/" demo_world H).
Defined.

(** ** Where the specification and the program part *)

(** A file without an extension: the name generated for [Makefile] has
    no dot after its timestamp, and does not decode. *)
Lemma name_without_extension_is_not_decoded :
  let now := mkCivil 2025 10 21 9 54 49 in
  contains_stamp "Makefile" = false
  /\ is_timestamp (Format_stamp now) = true
  /\ generateFileName now "/src/Makefile" false = "Makefile_20251021_095449"
  /\ parseFileName (generateFileName now "/src/Makefile" false)
     = ("", "", false)
  /\ parseFileName (generateFileName now "/src/Makefile" false)
     <> ("Makefile", Format_stamp now, true).
Proof. cbv zeta. repeat split. discriminate. Qed.

(** [CLEANUP_DAYS=-1] makes the threshold of the pass negative. *)
Lemma negative_retention_threshold :
  cleanupDays_of_env demo_Getenv_negative = (-1)%Z
  /\ ~ (0 <= cleanupDays_of_env demo_Getenv_negative)%Z.
Proof. split; [reflexivity|]. intros H. now apply H. Qed.

(** Two artifacts strictly older than the threshold that the age test
    keeps: one by a nanosecond at 171 days, where the excess is lost in the
    rounding of the sum of hours; one of the year 1000 at 200000 days,
    where the age does not fit a [Duration] and stops at about 292 years. *)
Lemma strictly_older_yet_retained :
  (exists parsedTime now,
     ParseInLocation demo_Local "20250101_000000" = Some parsedTime
     /\ now = (parsedTime + 171 * 24 * Hour + 1)%Z
     /\ (171 * 24 * Hour < now - parsedTime)%Z
     /\ age_exceeds demo_Local "20250101_000000" 171 now = false
     /\ classify true (age_exceeds demo_Local "20250101_000000" 171 now) false
        = Skip within_retention_window)
  /\ (exists parsedTime now,
        ParseInLocation demo_Local "10000101_000000" = Some parsedTime
        /\ now = demo_clock 0
        /\ (200000 * 24 * Hour < now - parsedTime)%Z
        /\ age_exceeds demo_Local "10000101_000000" 200000 now = false).
Proof.
  split.
  - eexists; eexists. split; [reflexivity|]. split; [reflexivity|].
    split; [reflexivity|]. split; vm_compute; reflexivity.
  - eexists; eexists. split; [reflexivity|]. split; [reflexivity|].
    split; vm_compute; reflexivity.
Qed.

(** * Further properties *)

(** ** The rest of the program on examples *)

Example parseSourcePaths_demo :
  parseSourcePaths demo_TrimSpace (demo_backup_Getenv "SOURCEFOLDER")
  = ["/data/site"; "/data/notes.txt"; "/data/gone"; "/data/secret.key";
     "/sys/log"].
Proof. reflexivity. Qed.

(** The clock shows 10:00: a pass at 03:30 is due tomorrow, one at 23:05
    today; the parts are read by [Atoi], which takes a sign. *)
Example getNextCleanupTime_demo :
  let next cleanupTime :=
    fst (getNextCleanupTime demo_Store (demo_Getenv_time cleanupTime)
           demo_clock demo_Date_today demo_world) in
  let at_ (day h mi : Z) :=
    (wall_seconds (mkCivil 2025 10 day h mi 0) * Second)%Z in
  next "03:30" = inr (at_ 22 3 30)%Z
  /\ next "23:05" = inr (at_ 21 23 5)%Z
  /\ next "+23:5" = inr (at_ 21 23 5)%Z
  /\ next "" = inl CleanupTimeUnset
  /\ next "03:30:00" = inl (CleanupTimeFormat "03:30:00")
  /\ next "0330" = inl (CleanupTimeFormat "0330")
  /\ next " 3:30" = inl (CleanupTimeParse true false)
  /\ next "3h:30m" = inl (CleanupTimeParse true true).
Proof. cbv zeta. repeat split. Qed.

(** A directory is archived, uploaded and its archive removed; a file is
    uploaded as it is; a missing path, a refused upload and a directory
    that cannot be archived cost one path each. *)
Example performBackup_demo :
  let s' := snd (performBackup demo_machine "bk/" demo_state) in
  objects s' = ["bk/site_20251021_095449.zip"; "bk/notes_20251021_095449.txt"]
  /\ disk s' = demo_disk
  /\ uploads (output s')
     = [("bk/site_20251021_095449.zip", "/tmp/site_20251021_095449.zip", true);
        ("bk/notes_20251021_095449.txt", "/data/notes.txt", true);
        ("bk/secret_20251021_095449.key", "/data/secret.key", false)]
  /\ removals (output s') = ["/tmp/site_20251021_095449.zip"]
  /\ skipn 35 (output s')
     = [Say MsgBackupDone; Say (MsgTotal 5); Say (MsgSucceeded 2);
        Say (MsgFailed 3)].
Proof. cbv zeta. repeat split; vm_compute; reflexivity. Qed.

Example ensureCOSDirectory_demo :
  ensureCOSDirectory demo_machine "/bk/" demo_state
  = (None,
     @mkState demo_machine demo_disk ["bk/"] 0
       [CallHead "bk/"; Say (MsgDirCreating "bk");
        CallPut "bk/" "" true; Say (MsgDirCreated "bk")])
  /\ ensureCOSDirectory demo_machine "//" demo_state = (None, demo_state).
Proof. split; reflexivity. Qed.

Example uploadPath_demo :
  uploadPath "bk//" "a_20251021_095449.zip" = "bk/a_20251021_095449.zip"
  /\ uploadPath "" "a_20251021_095449.zip" = "a_20251021_095449.zip"
  /\ uploadPath "/bk" "a_20251021_095449.zip" = "/bk/a_20251021_095449.zip"
  /\ cosPath_of "/bk" "a_20251021_095449.zip" = "bk/a_20251021_095449.zip".
Proof. repeat split. Qed.


(** ** The name codec *)

(** X1: a name is recognized exactly when the canonical pattern can
    split it. *)
Theorem recognized_iff_pattern (s : string) :
  (exists prefix timeStamp, parseFileName s = (prefix, timeStamp, true))
  <-> matches_pattern s.
Proof.
  split.
  - intros (p & t & E). destruct (parseFileName_sound _ _ _ E) as [e He].
    now exists p, t, e.
  - apply parseFileName_complete.
Qed.

(** X2: the prefix and the timestamp of a recognized name, an underscore
    between them and a dot and an extension after them, make up the name,
    and among all the splits the pattern allows the prefix found is the
    shortest. *)
Theorem recognized_prefix_is_shortest (s prefix timeStamp : string) :
  parseFileName s = (prefix, timeStamp, true) ->
  exists ext,
    canonical s prefix timeStamp ext
    /\ forall prefix' timeStamp' ext',
         canonical s prefix' timeStamp' ext' ->
         length prefix <= length prefix'.
Proof.
  intros E. destruct (parseFileName_sound _ _ _ E) as [e He].
  exists e. split; [exact He|]. intros p' t' e' Hc.
  rewrite parseFileName_scan in E.
  destruct (scan s) as [n|] eqn:Sc; [|discriminate].
  injection E as <- _.
  destruct (scan_Some_inv _ _ Sc) as (Hn & _ & _ & Hmin).
  destruct (canonical_scan _ _ _ _ Hc) as (H1 & _ & Hok).
  rewrite length_take.
  destruct (Nat.le_gt_cases n (length p')) as [L|G]; [lia|].
  rewrite Hmin in Hok by lia. discriminate.
Qed.

Lemma Base_nonempty (path : string) : Base path <> "".
Proof.
  unfold Base. destruct path as [|c path]; [discriminate|].
  destruct (lastElement _ _); discriminate.
Qed.

(** X3: the name generated for a directory decodes to the base name of
    the directory and the timestamp of the reading, when the base name has
    no newline and no underscore followed by a timestamp shape. *)
Theorem directory_name_round_trip (now : Civil) (sourcePath : string) :
  four_digit_year now = true -> valid_civil now = true ->
  contains_stamp (Base sourcePath) = false ->
  no_newline (Base sourcePath) = true ->
  parseFileName (generateFileName now sourcePath true)
  = (Base sourcePath, Format_stamp now, true).
Proof.
  intros Y V Hc Hnl. unfold generateFileName.
  pose proof (Format_stamp_shape now Y V) as Hts.
  apply parseFileName_shortest with (e := "zip").
  - split; [reflexivity|]. split; [apply Base_nonempty|].
    split; [exact Hnl|]. split; [exact Hts|]. split; [discriminate|].
    reflexivity.
  - intros m Hm. apply no_early_split; [assumption | assumption | lia].
Qed.

(** ** Writing and reading a timestamp *)

Lemma decimal_value_app (a b : string) (acc : Z) :
  decimal_value (a ++ b) acc = decimal_value b (decimal_value a acc).
Proof.
  revert acc; induction a as [|c a IH]; intros acc; [reflexivity|].
  cbn. apply IH.
Qed.

Lemma digit_val_digit_char (d : Z) :
  (0 <= d <= 9)%Z -> digit_val (digit_char d) = d.
Proof.
  intros H. unfold digit_val, digit_char, byte_of.
  rewrite nat_ascii_embedding by lia. lia.
Qed.

(** The digits [decimal] writes spell the number. *)
Lemma decimal_spec (fuel : nat) (u : Z) (acc : string) :
  (0 <= u < 10 ^ Z.of_nat fuel)%Z ->
  exists ds,
    decimal fuel u acc = ds ++ acc
    /\ forall a, decimal_value ds a = (a * 10 ^ Z.of_nat (length ds) + u)%Z.
Proof.
  revert u acc; induction fuel as [|f IH]; intros u acc H.
  - exists "". split; [reflexivity|]. intros a. cbn in *. lia.
  - cbn [decimal].
    assert (D : (0 <= u mod 10 <= 9)%Z)
      by (pose proof (Z.mod_pos_bound u 10); lia).
    destruct (Z.ltb_spec u 10) as [L|G].
    + exists (String (digit_char (u mod 10)) ""). split; [reflexivity|].
      intros a. cbn [decimal_value length]. rewrite digit_val_digit_char by exact D.
      rewrite Z.mod_small by lia. lia.
    + destruct (IH (u / 10)%Z (String (digit_char (u mod 10)) acc))
        as (ds & E & V).
      { rewrite Nat2Z.inj_succ, Z.pow_succ_r in H by lia. split.
        - apply Z.div_pos; lia.
        - apply Z.div_lt_upper_bound; lia. }
      exists (ds ++ String (digit_char (u mod 10)) ""). split.
      * rewrite E, app_assoc_s. reflexivity.
      * intros a. rewrite decimal_value_app, V. cbn [decimal_value].
        rewrite digit_val_digit_char by exact D.
        rewrite length_append. cbn [length].
        rewrite Nat2Z.inj_add, Z.pow_add_r by lia.
        change (10 ^ Z.of_nat 1)%Z with 10%Z.
        pose proof (Z.div_mod u 10 ltac:(lia)). lia.
Qed.

Lemma decimal_value_zeros (n : nat) : decimal_value (zeros n) 0 = 0%Z.
Proof. induction n as [|n IH]; [reflexivity|]. cbn. exact IH. Qed.

(** [appendInt] writes a number [decimal_value] reads back. *)
Lemma decimal_value_appendInt (x : Z) (width : nat) :
  (0 <= x < 10 ^ 20)%Z -> decimal_value (appendInt x width) 0 = x.
Proof.
  intros H. unfold appendInt.
  destruct (Z.ltb_spec x 0) as [|_]; [lia|].
  rewrite Z.abs_eq by lia.
  destruct (decimal_spec 20 x "") as (ds & E & V); [exact H|].
  rewrite E, append_empty_r.
  change ("" ++ zeros (width - length ds) ++ ds)
    with (zeros (width - length ds) ++ ds).
  rewrite decimal_value_app, decimal_value_zeros, V. lia.
Qed.

Lemma fields_of_fields (a b c d e f : string) :
  length a = 4 -> length b = 2 -> length c = 2 ->
  length d = 2 -> length e = 2 -> length f = 2 ->
  fields_of (a ++ b ++ c ++ "_" ++ d ++ e ++ f)
  = mkCivil (decimal_value a 0) (decimal_value b 0) (decimal_value c 0)
            (decimal_value d 0) (decimal_value e 0) (decimal_value f 0).
Proof.
  intros Ha Hb Hc Hd He Hf.
  repeat match goal with
         | H : length ?s = _ |- _ =>
             repeat (destruct s as [|? s]; [discriminate|]);
             destruct s; [clear H | discriminate]
         end.
  reflexivity.
Qed.

Lemma digits_of_width_length (w : nat) (s : string) :
  digits_of_width w s = true -> length s = w.
Proof.
  unfold digits_of_width. intros H. apply andb_prop in H as [H _].
  now apply Nat.eqb_eq.
Qed.

(** What [Format] writes, the parser reads. *)
Lemma parse_fields_Format_stamp (t : Civil) :
  four_digit_year t = true -> valid_civil t = true ->
  parse_fields (Format_stamp t) = Some (t, 0%Z).
Proof.
  intros Y V.
  rewrite (parse_fields_shape _ (Format_stamp_shape t Y V)).
  assert (F : fields_of (Format_stamp t) = t).
  { pose proof Y as Y'. pose proof V as V'.
    unfold four_digit_year, valid_civil in Y', V'.
    repeat match goal with
           | H : _ && _ = true |- _ => apply andb_prop in H as [? ?]
           end.
    repeat match goal with
           | H : (_ <=? _)%Z = true |- _ => apply Z.leb_le in H
           end.
    pose proof (month_length_le (year t) (month t)).
    unfold Format_stamp. rewrite fields_of_fields;
      try (apply digits_of_width_length;
           (apply appendInt_4 || apply appendInt_2); lia).
    rewrite !decimal_value_appendInt by lia.
    now destruct t. }
  now rewrite F, V.
Qed.

(** X4: a wall-clock reading with a four-digit year, written by
    [Format] and read back by the parser of [isFileOlderThanDays], gives
    the instant of that reading in the local zone, to the second. *)
Theorem timestamp_round_trip (Local : Z -> Z) (t : Civil) :
  four_digit_year t = true -> valid_civil t = true ->
  parse_fields (Format_stamp t) = Some (t, 0%Z)
  /\ ParseInLocation Local (Format_stamp t)
     = Some (Local (wall_seconds t) * Second)%Z.
Proof.
  intros Y V. pose proof (parse_fields_Format_stamp t Y V) as P.
  split; [exact P|]. unfold ParseInLocation. rewrite P.
  f_equal. lia.
Qed.

(** ** Splitting at a separator *)

Lemma Split_byte_free (sep : ascii) (s : string) :
  sep_free sep s = true -> Split_byte sep s = [s].
Proof.
  induction s as [|c s IH]; [reflexivity|]. cbn. intros H.
  apply andb_prop in H as [H1 H2].
  destruct (Ascii.eqb c sep); [discriminate|]. now rewrite IH.
Qed.

Lemma Split_byte_app (sep : ascii) (a r : string) :
  sep_free sep a = true ->
  Split_byte sep (a ++ String sep r) = a :: Split_byte sep r.
Proof.
  induction a as [|c a IH]; cbn; intros H.
  - now rewrite Ascii.eqb_refl.
  - apply andb_prop in H as [H1 H2].
    destruct (Ascii.eqb c sep); [discriminate|]. now rewrite IH.
Qed.

(** Splitting undoes joining. *)
Lemma Split_byte_concat (sep : ascii) (pieces : list string) :
  pieces <> [] ->
  Forall (fun piece => sep_free sep piece = true) pieces ->
  Split_byte sep (String.concat (String sep "") pieces) = pieces.
Proof.
  induction pieces as [|a rest IH]; [congruence|]. intros _ F.
  inversion F as [|? ? Ha Hr]; subst.
  destruct rest as [|b rest]; [now apply Split_byte_free|].
  change (String.concat (String sep "") (a :: b :: rest))
    with (a ++ String sep (String.concat (String sep "") (b :: rest))).
  rewrite Split_byte_app by assumption. f_equal. apply IH; [discriminate|].
  assumption.
Qed.

(** Joining undoes splitting, and the pieces have no separator. *)
Lemma concat_Split_byte (sep : ascii) (s : string) :
  String.concat (String sep "") (Split_byte sep s) = s
  /\ Forall (fun piece => sep_free sep piece = true) (Split_byte sep s)
  /\ Split_byte sep s <> [].
Proof.
  induction s as [|c s IH];
    [repeat split; try discriminate; repeat constructor|].
  destruct IH as (IH1 & IH2 & IH3). cbn [Split_byte]. destruct (Ascii.eqb c sep) eqn:E.
  - apply Ascii.eqb_eq in E. subst c.
    destruct (Split_byte sep s) as [|h t] eqn:S; [congruence|].
    repeat split; try discriminate.
    + change (String.concat (String sep "") ("" :: h :: t))
        with (String sep (String.concat (String sep "") (h :: t))).
      now rewrite IH1.
    + constructor; [reflexivity | assumption].
  - destruct (Split_byte sep s) as [|h t] eqn:S; [congruence|].
    inversion IH2 as [|x l Hh Ht]; subst x l.
    repeat split; try discriminate.
    + destruct t as [|h' t].
      * cbn in *. now rewrite IH1.
      * change (String.concat (String sep "") (String c h :: h' :: t))
          with (String c (String.concat (String sep "") (h :: h' :: t))).
        now rewrite IH1.
    + constructor; [|assumption]. unfold sep_free in *. cbn.
      now rewrite E, Hh.
Qed.

(** X5: the paths of [SOURCEFOLDER] and the prefixes of
    [CLEANUP_WHITELIST] are the pieces between the commas, each one
    trimmed, the empty ones dropped, in the order they are written. *)
Theorem comma_separated_settings (Getenv TrimSpace : string -> string)
    (pieces : list string) :
  pieces <> [] ->
  Forall (fun piece => sep_free "," piece = true) pieces ->
  let wanted :=
    filter (fun p => negb (String.eqb p "")) (map TrimSpace pieces) in
  parseSourcePaths TrimSpace (String.concat "," pieces) = wanted
  /\ (Getenv "CLEANUP_WHITELIST" = String.concat "," pieces ->
      Getenv "CLEANUP_WHITELIST" <> "" ->
      getWhiteList Getenv TrimSpace = wanted).
Proof.
  intros N F. cbv zeta. split.
  - unfold parseSourcePaths. now rewrite Split_byte_concat.
  - intros E NE. unfold getWhiteList.
    destruct (String.eqb_spec (Getenv "CLEANUP_WHITELIST") "");
      [contradiction|].
    now rewrite E, Split_byte_concat.
Qed.

(** ** The time of the next pass *)

Lemma isDigit_not_colon (c : ascii) : isDigit c = true -> Ascii.eqb c ":" = false.
Proof.
  intros H. destruct (Ascii.eqb_spec c ":") as [->|]; [discriminate|reflexivity].
Qed.

Lemma digits_sep_free (s : string) :
  all_chars isDigit s = true -> sep_free ":" s = true.
Proof.
  induction s as [|c s IH]; [reflexivity|]. cbn. intros H.
  apply andb_prop in H as [H1 H2]. unfold sep_free in IH.
  now rewrite isDigit_not_colon, IH.
Qed.

Lemma Atoi_digits (s : string) (v : Z) :
  Atoi s = Some v ->
  exists body,
    all_chars isDigit body = true
    /\ (s = body \/ s = String "-" body \/ s = String "+" body).
Proof.
  unfold Atoi. cbv zeta.
  set (body := match s with
               | String "-" r => r
               | String "+" r => r
               | _ => s
               end).
  assert (Hb : s = body \/ s = String "-" body \/ s = String "+" body).
  { unfold body. destruct s as [|c s]; [now left|].
    destruct c as [[] [] [] [] [] [] [] []]; auto. }
  clearbody body. intros H. exists body. split; [|exact Hb].
  destruct body; [discriminate|].
  destruct (all_chars isDigit _); [reflexivity|discriminate].
Qed.

Lemma Atoi_sep_free (s : string) (v : Z) :
  Atoi s = Some v -> sep_free ":" s = true.
Proof.
  intros H. destruct (Atoi_digits s v H) as (body & D & [ -> | [ -> | -> ] ]);
    apply digits_sep_free in D; [exact D| |]; cbn; exact D.
Qed.

Section ScheduleProperties.

Variable Store : Type.
Variable Getenv : string -> string.
Variable clock : nat -> Z.
Variable Date_today : Z -> Z -> Z -> Z.

(** X6: [getNextCleanupTime] accepts [CLEANUP_TIME] exactly when it
    is two integers, as [strconv.Atoi] reads them, with one colon
    between.  It then reads the clock once and answers today at that hour
    and minute, or 24 hours after that if today's time is already past.
    In every other case it returns an error without reading the clock. *)
Theorem cleanup_time_is_hour_colon_minute (w : World Store) :
  let accepted (hour minute : Z) : Prop :=
    exists a b,
      Getenv "CLEANUP_TIME" = a ++ ":" ++ b
      /\ Atoi a = Some hour /\ Atoi b = Some minute in
  let '(r, w') := getNextCleanupTime Store Getenv clock Date_today w in
  match r with
  | inr t =>
      exists hour minute,
        accepted hour minute
        /\ (let now := clock (reads w) in
            let cleanupToday := Date_today now hour minute in
            t = if (cleanupToday <? now)%Z
                then (cleanupToday + 24 * Hour)%Z else cleanupToday)
        /\ w' = mkWorld (bucket w) (S (reads w)) (trace w)
  | inl _ =>
      (forall hour minute, ~ accepted hour minute) /\ w' = w
  end.
Proof.
  cbv zeta. unfold getNextCleanupTime.
  destruct (concat_Split_byte ":" (Getenv "CLEANUP_TIME")) as (J & F & _).
  assert (A : forall a b hour minute,
             Getenv "CLEANUP_TIME" = a ++ ":" ++ b ->
             Atoi a = Some hour -> Atoi b = Some minute ->
             Split_byte ":" (Getenv "CLEANUP_TIME") = [a; b]).
  { intros a b hour minute E Ha Hb. rewrite E.
    change (a ++ ":" ++ b) with (a ++ String ":" b).
    rewrite Split_byte_app by (eapply Atoi_sep_free; eassumption).
    rewrite Split_byte_free by (eapply Atoi_sep_free; eassumption).
    reflexivity. }
  destruct (String.eqb_spec (Getenv "CLEANUP_TIME") "") as [E|NE].
  { cbn. split; [|reflexivity]. intros hour minute (a & b & E' & _).
    rewrite E' in E. destruct a; discriminate. }
  destruct (Split_byte ":" (Getenv "CLEANUP_TIME")) as [|a [|b [|c l]]] eqn:S;
    cbn [List.length Nat.eqb negb];
    try (cbn; split; [|reflexivity];
         intros hour minute (a' & b' & E' & Ha & Hb);
         specialize (A _ _ _ _ E' Ha Hb); discriminate).
  cbn [nth].
  destruct (Atoi a) as [hour|] eqn:Ha; destruct (Atoi b) as [minute|] eqn:Hb;
    try (cbn; split; [|reflexivity];
         intros hour' minute' (a' & b' & E' & Ha' & Hb');
         specialize (A _ _ _ _ E' Ha' Hb'); congruence).
  unfold bind, time_Now.
  destruct (Date_today (clock (reads w)) hour minute <? clock (reads w))%Z
    eqn:B; cbn; exists hour, minute; rewrite B;
    (split; [exists a, b; now rewrite <- J | split; reflexivity]).
Qed.

End ScheduleProperties.

(** ** A whole pass *)

Lemma prefix_app_drop (p s : string) :
  String.prefix p s = true -> p ++ drop (length p) s = s.
Proof.
  revert s; induction p as [|c p IH]; intros [|d s] H; try reflexivity;
    try discriminate.
  cbn in H. destruct (ascii_dec c d) as [->|]; [|discriminate].
  cbn. now rewrite IH.
Qed.

Lemma cosPath_of_TrimPrefix (dirPath key : string) :
  dirPath <> "" ->
  String.prefix (Trim_slash dirPath ++ "/") key = true ->
  cosPath_of dirPath (TrimPrefix key (Trim_slash dirPath ++ "/")) = key.
Proof.
  intros N P. unfold cosPath_of, TrimPrefix. rewrite P.
  destruct (String.eqb_spec dirPath ""); [contradiction|].
  rewrite <- app_assoc_s. now apply prefix_app_drop.
Qed.

Lemma append_inv_head (a b c : string) : a ++ b = a ++ c -> b = c.
Proof.
  induction a as [|x a IH]; cbn; [trivial|]. intros [= H]. now apply IH.
Qed.

Lemma cosPath_of_inj (dirPath f1 f2 : string) :
  cosPath_of dirPath f1 = cosPath_of dirPath f2 -> f1 = f2.
Proof.
  unfold cosPath_of. destruct (String.eqb dirPath ""); [trivial|].
  intros H. apply append_inv_head in H. now injection H.
Qed.

Lemma listings_app (a b : list event) :
  listings (a ++ b) = (listings a ++ listings b)%list.
Proof.
  induction a as [|e a IH]; [reflexivity|].
  destruct e; cbn; now rewrite IH.
Qed.

Lemma marked_app (a b : list event) :
  marked (a ++ b) = (marked a ++ marked b)%list.
Proof. unfold marked. now rewrite decisions_app, filter_app, map_app. Qed.

Lemma marked_decided (evs : list event) (f : string) :
  In f (marked evs) -> In f (map fst (decisions evs)).
Proof.
  unfold marked. rewrite !in_map_iff. intros (d & E & I).
  apply filter_In in I as [I _]. now exists d.
Qed.

Lemma run_deletes_app {Store : Type}
    (Object_Delete : Store -> string -> Store * bool)
    (b : Store) (k1 k2 : list string) :
  run_deletes Object_Delete b (k1 ++ k2)
  = let (b1, r1) := run_deletes Object_Delete b k1 in
    let (b2, r2) := run_deletes Object_Delete b1 k2 in
    (b2, (r1 ++ r2)%list).
Proof.
  revert b; induction k1 as [|k k1 IH]; intros b; cbn.
  - now destruct (run_deletes Object_Delete b k2).
  - destruct (Object_Delete b k) as [b0 ok]. rewrite IH.
    destruct (run_deletes Object_Delete b0 k1) as [b1 r1].
    now destruct (run_deletes Object_Delete b1 k2).
Qed.

Section PassProperties.

Variable Store : Type.
Variable Bucket_Get : Store -> string -> option (list string).
Variable Object_Delete : Store -> string -> Store * bool.
Variable Getenv : string -> string.
Variable TrimSpace : string -> string.
Variable Local : Z -> Z.
Variable clock : nat -> Z.

(** What one turn of the loop does besides classifying. *)
Lemma cleanupFile_effects (targetDir : string) (cleanupDays : Z)
    (whitelist : list string) (n : nat) (fileName : string)
    (w : World Store) :
  let '(n', w') :=
    cleanupFile Store Object_Delete Local clock
      targetDir cleanupDays whitelist n fileName w in
  exists evs,
    trace w' = (trace w ++ evs)%list
    /\ listings evs = []
    /\ (bucket w', attempts evs)
       = run_deletes Object_Delete (bucket w) (map fst (attempts evs))
    /\ Forall (deletable Local clock cleanupDays whitelist) (marked evs).
Proof.
  rewrite cleanupFile_run.
  destruct (parseFileName fileName) as [[prefix timeStamp] isOurFormat] eqn:P.
  cbv zeta.
  destruct (age_notes_silent Local timeStamp cleanupDays (clock (reads w)))
    as [D A].
  assert (L : listings (age_notes Local timeStamp cleanupDays
                          (clock (reads w))) = []).
  { unfold age_notes. destruct (ParseInLocation Local timeStamp);
      [|reflexivity]. now destruct (cleanupDays =? 0)%Z. }
  unfold marked.
  destruct isOurFormat; cbn [classify negb];
    [|eexists; split; [reflexivity|]; cbn; repeat split; constructor].
  destruct (age_exceeds Local timeStamp cleanupDays (clock (reads w))) eqn:G;
    cbn [negb];
    [|eexists; split; [reflexivity|];
      rewrite listings_app, decisions_app, attempts_app, D, A, L; cbn;
      repeat split; constructor].
  destruct (isWhitelisted prefix whitelist) eqn:Wl;
    [eexists; split; [reflexivity|];
     rewrite listings_app, decisions_app, attempts_app, D, A, L; cbn;
     repeat split; constructor|].
  destruct (Object_Delete (bucket w) (cosPath_of targetDir fileName))
    as [b ok] eqn:O.
  eexists; split; [reflexivity|].
  rewrite listings_app, decisions_app, attempts_app, D, A, L.
  destruct ok; cbn; rewrite O; repeat split;
    (constructor; [|constructor]);
    exists prefix, timeStamp, (reads w); repeat split; assumption.
Qed.

Lemma cleanupLoop_effects (targetDir : string) (cleanupDays : Z)
    (whitelist : list string) (fileNames : list string) (n : nat)
    (w : World Store) :
  let '(n', w') :=
    cleanupLoop Store Object_Delete Local clock
      targetDir cleanupDays whitelist fileNames n w in
  exists evs,
    trace w' = (trace w ++ evs)%list
    /\ listings evs = []
    /\ (bucket w', attempts evs)
       = run_deletes Object_Delete (bucket w) (map fst (attempts evs))
    /\ Forall (deletable Local clock cleanupDays whitelist) (marked evs).
Proof.
  revert n w; induction fileNames as [|f rest IH]; intros n w.
  - cbn. exists []. rewrite app_nil_r. repeat split. constructor.
  - cbn [cleanupLoop]. unfold bind at 1.
    pose proof (cleanupFile_effects targetDir cleanupDays whitelist
                  n f w) as H1.
    destruct (cleanupFile Store Object_Delete Local clock
                targetDir cleanupDays whitelist n f w) as [n1 w1].
    destruct H1 as (e1 & T1 & L1 & B1 & S1).
    specialize (IH n1 w1).
    destruct (cleanupLoop Store Object_Delete Local clock
                targetDir cleanupDays whitelist rest n1 w1) as [n2 w2].
    destruct IH as (e2 & T2 & L2 & B2 & S2).
    exists (e1 ++ e2)%list.
    rewrite listings_app, attempts_app, marked_app, map_app, L1, L2,
      T2, T1, app_assoc, run_deletes_app, <- B1, <- B2.
    repeat split. now apply Forall_app.
Qed.

(** The two summaries of a loop speak of the same events. *)
Lemma cleanupLoop_summaries (targetDir : string) (cleanupDays : Z)
    (whitelist : list string) (fileNames : list string) (n : nat)
    (w : World Store) :
  let '(n', w') :=
    cleanupLoop Store Object_Delete Local clock
      targetDir cleanupDays whitelist fileNames n w in
  exists evs,
    trace w' = (trace w ++ evs)%list
    /\ map fst (decisions evs) = fileNames
    /\ map fst (attempts evs) = map (cosPath_of targetDir) (marked evs)
    /\ n' = n + List.length (succeeded (attempts evs))
    /\ listings evs = []
    /\ (bucket w', attempts evs)
       = run_deletes Object_Delete (bucket w) (map fst (attempts evs))
    /\ Forall (deletable Local clock cleanupDays whitelist) (marked evs).
Proof.
  pose proof (cleanupLoop_summary Store Object_Delete Local clock
                targetDir cleanupDays whitelist fileNames n w) as H1.
  pose proof (cleanupLoop_effects targetDir cleanupDays whitelist
                fileNames n w) as H2.
  destruct (cleanupLoop Store Object_Delete Local clock
              targetDir cleanupDays whitelist fileNames n w) as [n' w'].
  destruct H1 as (e1 & T1 & D1 & A1 & C1).
  destruct H2 as (e2 & T2 & L2 & B2 & S2).
  assert (e1 = e2) as <-.
  { rewrite T1 in T2. now apply app_inv_head in T2. }
  exists e1. repeat split; assumption.
Qed.

(** X7: what an enabled pass does and reports.  It asks the bucket for
    one listing, under the target directory.  If the listing fails, the
    pass says so and ends: nothing is deleted and the bucket is as
    before.  Otherwise it classifies the listed names, all of them and in
    order; the bucket changes by the attempted deletions and by nothing
    else; and the count the pass prints last is the number of deletions
    that succeeded. *)
Theorem pass_report (targetDir : string) (w : World Store) :
  Getenv "CLEANUP_ENABLED" = "true" ->
  let cleanupDays := cleanupDays_of_env Getenv in
  let whitelist := getWhiteList Getenv TrimSpace in
  let prefix := Trim_slash targetDir ++ "/" in
  let w' := snd (performCleanup Store Bucket_Get Object_Delete Getenv
                   TrimSpace Local clock targetDir w) in
  let opening := [Printf MsgCleanupStart;
                  Printf (MsgConfig cleanupDays whitelist);
                  BucketGet prefix] in
  match Bucket_Get (bucket w) prefix with
  | None =>
      trace w' = (trace w ++ opening ++ [Printf MsgListError])%list
      /\ bucket w' = bucket w
      /\ reads w' = reads w
  | Some keys =>
      let fileNames :=
        map (fun key => TrimPrefix key prefix)
            (filter (fun key => negb (HasSuffix key "/")) keys) in
      exists evs,
        trace w'
        = (trace w ++ opening
           ++ [Printf (MsgFound (List.length fileNames))] ++ evs
           ++ [Printf (MsgCleanupDone
                         (List.length (succeeded (attempts evs))))])%list
        /\ listings evs = []
        /\ map fst (decisions evs) = fileNames
        /\ (bucket w', attempts evs)
           = run_deletes Object_Delete (bucket w) (map fst (attempts evs))
  end.
Proof.
  intros E. cbv zeta.
  rewrite (performCleanup_enabled _ _ _ _ _ _ _ _ _ E). cbv zeta.
  destruct (Bucket_Get _ _) as [keys|].
  - match goal with
    | |- context [cleanupLoop _ _ _ _ ?d ?c ?wl ?l ?n ?w0] =>
        pose proof (cleanupLoop_summaries d c wl l n w0) as H;
        destruct (cleanupLoop _ _ _ _ d c wl l n w0) as [n2 w2]
    end.
    destruct H as (evs & T & D & A & C & L & B & S).
    exists evs. cbn in *. rewrite T, C. cbn. rewrite <- !app_assoc. cbn.
    repeat split; assumption.
  - cbn. rewrite <- !app_assoc. repeat split.
Qed.


(** X9: with a target directory, a pass attempts to delete only keys
    of its listing, and never a key that ends in a slash (a directory
    marker), provided the listing holds only keys under the prefix that
    was asked for. *)
Theorem pass_deletes_only_listed_keys (targetDir : string)
    (w : World Store) (keys : list string) :
  targetDir <> "" ->
  Bucket_Get (bucket w) (Trim_slash targetDir ++ "/") = Some keys ->
  Forall (fun key =>
            String.prefix (Trim_slash targetDir ++ "/") key = true) keys ->
  let w' := snd (performCleanup Store Bucket_Get Object_Delete Getenv
                   TrimSpace Local clock targetDir w) in
  exists evs,
    trace w' = (trace w ++ evs)%list
    /\ forall key ok,
         In (key, ok) (attempts evs) ->
         In key keys /\ HasSuffix key "/" = false.
Proof.
  intros N G P. cbv zeta.
  destruct (String.eqb_spec (Getenv "CLEANUP_ENABLED") "true") as [E|E].
  - rewrite (performCleanup_enabled _ _ _ _ _ _ _ _ _ E). cbv zeta.
    rewrite G.
    match goal with
    | |- context [cleanupLoop _ _ _ _ ?d ?c ?wl ?l ?n ?w0] =>
        pose proof (cleanupLoop_summaries d c wl l n w0) as H;
        destruct (cleanupLoop _ _ _ _ d c wl l n w0) as [n2 w2]
    end.
    destruct H as (evs & T & D & A & C & L & B & S).
    eexists. cbn in *. rewrite T. rewrite <- !app_assoc. cbn.
    split; [reflexivity|]. intros key ok I.
    cbn [attempts] in I. rewrite attempts_app in I. cbn in I.
    rewrite app_nil_r in I.
    apply (in_map fst) in I. rewrite A in I. cbn in I.
    apply in_map_iff in I as (f & <- & I).
    apply marked_decided in I. rewrite D in I.
    apply in_map_iff in I as (k & <- & I).
    apply filter_In in I as [I F]. rewrite Forall_forall in P.
    rewrite cosPath_of_TrimPrefix by auto.
    split; [assumption|]. now destruct (HasSuffix k "/").
  - exists []. unfold performCleanup.
    destruct (String.eqb_spec (Getenv "CLEANUP_ENABLED") "true");
      [contradiction|]. cbn. rewrite app_nil_r. split; [reflexivity|].
    intros key ok [].
Qed.

(** X10: without a target directory the listing is asked for under the
    prefix [/], and what a pass then attempts to delete is a listed key
    without its leading slash, not the listed key. *)
Theorem root_pass_deletes_unslashed_keys (w : World Store)
    (keys : list string) :
  Bucket_Get (bucket w) "/" = Some keys ->
  Forall (fun key => String.prefix "/" key = true) keys ->
  let w' := snd (performCleanup Store Bucket_Get Object_Delete Getenv
                   TrimSpace Local clock "" w) in
  exists evs,
    trace w' = (trace w ++ evs)%list
    /\ listings evs = (if String.eqb (Getenv "CLEANUP_ENABLED") "true"
                       then ["/"] else [])
    /\ forall key ok,
         In (key, ok) (attempts evs) -> In ("/" ++ key) keys.
Proof.
  intros G P. cbv zeta.
  destruct (String.eqb_spec (Getenv "CLEANUP_ENABLED") "true") as [E|E].
  - rewrite (performCleanup_enabled _ _ _ _ _ _ _ _ _ E). cbv zeta.
    change (Trim_slash "" ++ "/") with "/". rewrite G.
    match goal with
    | |- context [cleanupLoop _ _ _ _ ?d ?c ?wl ?l ?n ?w0] =>
        pose proof (cleanupLoop_summaries d c wl l n w0) as H;
        destruct (cleanupLoop _ _ _ _ d c wl l n w0) as [n2 w2]
    end.
    destruct H as (evs & T & D & A & C & L & B & S).
    eexists. cbn in *. rewrite T. rewrite <- !app_assoc. cbn.
    split; [reflexivity|]. cbn [listings]. rewrite listings_app, L. cbn.
    split; [reflexivity|]. intros key ok I.
    cbn [attempts] in I. rewrite attempts_app in I. cbn in I.
    rewrite app_nil_r in I.
    apply (in_map fst) in I. rewrite A in I. cbn in I.
    apply in_map_iff in I as (f & <- & I).
    apply marked_decided in I. rewrite D in I.
    apply in_map_iff in I as (k & <- & I).
    apply filter_In in I as [I F]. rewrite Forall_forall in P.
    specialize (P k I). unfold TrimPrefix. rewrite P. cbv iota.
    replace (String "/" (cosPath_of "" (drop (length "/") k))) with k;
      [exact I|].
    symmetry. exact (prefix_app_drop "/" k P).
  - exists []. unfold performCleanup.
    destruct (String.eqb_spec (Getenv "CLEANUP_ENABLED") "true");
      [contradiction|]. cbn. rewrite app_nil_r. split; [reflexivity|].
    split; [reflexivity|]. intros key ok [].
Qed.

(** X11: a file whose name decodes to a prefix on the whitelist of the
    environment is never deleted by a pass, whatever its age: no call of
    [Object.Delete] is made for its key. *)
Theorem whitelisted_is_never_deleted (targetDir : string)
    (fileName prefix timeStamp : string) (w : World Store) :
  parseFileName fileName = (prefix, timeStamp, true) ->
  isWhitelisted prefix (getWhiteList Getenv TrimSpace) = true ->
  let w' := snd (performCleanup Store Bucket_Get Object_Delete Getenv
                   TrimSpace Local clock targetDir w) in
  exists evs,
    trace w' = (trace w ++ evs)%list
    /\ forall ok, ~ In (cosPath_of targetDir fileName, ok) (attempts evs).
Proof.
  intros P Wl. cbv zeta.
  assert (K : forall evs,
             Forall (deletable Local clock (cleanupDays_of_env Getenv)
                       (getWhiteList Getenv TrimSpace)) (marked evs) ->
             map fst (attempts evs)
             = map (cosPath_of targetDir) (marked evs) ->
             forall ok,
               ~ In (cosPath_of targetDir fileName, ok) (attempts evs)).
  { intros evs S A ok I. apply (in_map fst) in I. rewrite A in I. cbn in I.
    apply in_map_iff in I as (f & Ef & I).
    apply cosPath_of_inj in Ef. subst f.
    rewrite Forall_forall in S.
    destruct (S _ I) as (p & t & k & P' & W' & _). congruence. }
  destruct (String.eqb_spec (Getenv "CLEANUP_ENABLED") "true") as [E|E].
  - rewrite (performCleanup_enabled _ _ _ _ _ _ _ _ _ E). cbv zeta.
    destruct (Bucket_Get _ _) as [keys|].
    + match goal with
      | |- context [cleanupLoop _ _ _ _ ?d ?c ?wl ?l ?n ?w0] =>
          pose proof (cleanupLoop_summaries d c wl l n w0) as H;
          destruct (cleanupLoop _ _ _ _ d c wl l n w0) as [n2 w2]
      end.
      destruct H as (evs & T & D & A & C & L & B & S).
      eexists. cbn in *. rewrite T. rewrite <- !app_assoc. cbn.
      split; [reflexivity|]. intros ok I.
      cbn [attempts] in I. rewrite attempts_app in I. cbn in I.
      rewrite app_nil_r in I. exact (K evs S A ok I).
    + eexists. cbn. rewrite <- !app_assoc. cbn.
      split; [reflexivity|]. intros ok [].
  - exists []. unfold performCleanup.
    destruct (String.eqb_spec (Getenv "CLEANUP_ENABLED") "true");
      [contradiction|]. cbn. rewrite app_nil_r. split; [reflexivity|].
    intros ok [].
Qed.

End PassProperties.

Local Open Scope Z_scope.

(** ** The age test from above *)

(** Rounding a positive mantissa of at least 53 digits, in the normal
    range and away from overflow: the result is normalized and at most one
    unit of the last place above the mantissa cut to its 53 leading
    digits. *)
Lemma binary_round_aux_upper (p : positive) (ex : Z) (lx : location) :
  let d := Zpos (digits2_pos p) in
  let n := d - 53 in
  53 <= d -> -1074 <= d + ex - 53 -> d + ex - 52 <= 971 ->
  exists m e,
    binary_round_aux 53 1024 false (Zpos p) ex lx = S754_finite false m e
    /\ 2 ^ 52 <= Zpos m < 2 ^ 53
    /\ ex + n <= e
    /\ Zpos m * 2 ^ (e - ex) <= (Zpos p / 2 ^ n + 1) * 2 ^ n.
Proof.
  cbv zeta. intros D E O.
  pose proof (shr_fexp_spec p ex lx D E) as [M1 E1].
  pose proof (div_pow2_bounds p D) as B1.
  set (n := Zpos (digits2_pos p) - 53) in *.
  assert (Hn : n = Zpos (digits2_pos p) - 53) by reflexivity.
  clearbody n.
  assert (Pn : 0 < 2 ^ n) by (apply Z.pow_pos_nonneg; lia).
  unfold binary_round_aux.
  destruct (shr_fexp 53 1024 (Zpos p) ex lx) as [mrs' e'].
  cbn [fst snd] in M1, E1.
  set (m1 := shr_m mrs') in *.
  set (m2 := round_nearest_even m1 (loc_of_shr_record mrs')).
  assert (C : m2 = m1 \/ m2 = m1 + 1) by apply round_nearest_even_cases.
  assert (B2 : 2 ^ 52 <= m2 <= 2 ^ 53) by lia.
  destruct m2 as [|q|q] eqn:Q; [lia| |lia].
  assert (Dq : Zpos (digits2_pos q) = 53 \/
               (Zpos q = 2 ^ 53 /\ Zpos (digits2_pos q) = 54)).
  { destruct (Z.eq_dec (Zpos q) (2 ^ 53)) as [Eq|Nq].
    - right. split; [exact Eq|]. apply digits2_unique. rewrite Eq.
      change (54 - 1) with 53. split; [lia|]. apply Z.pow_lt_mono_r; lia.
    - left. apply digits2_unique. change (53 - 1) with 52. lia. }
  assert (He' : -1074 <= e') by (clear - E E1 Hn; lia).
  destruct Dq as [Dq|[Eq Dq]].
  - pose proof (shr_fexp_spec q e' loc_Exact) as S2. cbv zeta in S2.
    rewrite Dq in S2.
    assert (X2 : -1074 <= 53 + e' - 53) by (clear - He'; lia).
    specialize (S2 ltac:(clear; lia) X2).
    destruct S2 as [M2 E2].
    destruct (shr_fexp 53 1024 (Zpos q) e' loc_Exact) as [mrs'' e''].
    cbn [fst snd] in M2, E2. change (53 - 53) with 0 in M2, E2.
    rewrite Z.pow_0_r, Z.div_1_r in M2. rewrite M2.
    destruct (Z.leb_spec e'' (1024 - 53)) as [_|G]; [|exfalso; lia].
    exists q, e''. split; [reflexivity|].
    pose proof (digits2_bounds q) as [_ Uq]. rewrite Dq in Uq.
    replace (e'' - ex) with n by lia. split; [lia|]. split; [lia|].
    apply Z.mul_le_mono_nonneg_r; lia.
  - pose proof (shr_fexp_spec q e' loc_Exact) as S2. cbv zeta in S2.
    rewrite Dq in S2.
    assert (X2 : -1074 <= 54 + e' - 53) by (clear - He'; lia).
    specialize (S2 ltac:(clear; lia) X2).
    destruct S2 as [M2 E2].
    destruct (shr_fexp 53 1024 (Zpos q) e' loc_Exact) as [mrs'' e''].
    cbn [fst snd] in M2, E2. change (54 - 53) with 1 in M2, E2.
    rewrite Eq in M2. change (2 ^ 53 / 2 ^ 1) with (2 ^ 52) in M2.
    rewrite M2. change (2 ^ 52) with (Zpos (2 ^ 52)%positive).
    cbv iota.
    destruct (Z.leb_spec e'' (1024 - 53)) as [_|G]; [|exfalso; lia].
    exists (2 ^ 52)%positive, e''. split; [reflexivity|].
    replace (e'' - ex) with (1 + n) by lia.
    rewrite Z.pow_add_r by lia.
    change (Zpos (2 ^ 52)%positive) with (2 ^ 52).
    split; [split; [lia | apply Z.pow_lt_mono_r; lia]|].
    split; [lia|].
    change (2 ^ 1) with 2.
    replace (2 ^ 52 * (2 * 2 ^ n)) with (2 ^ 53 * 2 ^ n)
      by (change (2 ^ 53) with (2 * 2 ^ 52); lia).
    apply Z.mul_le_mono_nonneg_r; lia.
Qed.

(** A positive normalized number is not below one of no greater value. *)
Lemma SFcompare_normal_not_lt (m1 m2 : positive) (e1 e2 u : Z) :
  2 ^ 52 <= Zpos m1 < 2 ^ 53 -> 2 ^ 52 <= Zpos m2 < 2 ^ 53 ->
  u <= e1 -> u <= e2 ->
  Zpos m2 * 2 ^ (e2 - u) <= Zpos m1 * 2 ^ (e1 - u) ->
  SFcompare (S754_finite false m1 e1) (S754_finite false m2 e2) <> Some Lt.
Proof.
  intros B1 B2 U1 U2 H. cbn [SFcompare].
  assert (P1 : 0 < 2 ^ (e1 - u)) by (apply Z.pow_pos_nonneg; lia).
  destruct (Z.compare_spec e1 e2) as [E|E|E]; [|exfalso|discriminate].
  - subst e2. change (Pos.compare_cont Eq m1 m2) with (Pos.compare m1 m2).
    assert (Zpos m2 <= Zpos m1)
      by (apply Z.mul_le_mono_pos_r with (p := 2 ^ (e1 - u)); assumption).
    intros [= C]. change (m1 < m2)%positive in C. lia.
  - assert (2 * 2 ^ (e1 - u) <= 2 ^ (e2 - u)).
    { replace (2 * 2 ^ (e1 - u)) with (2 ^ (e1 - u + 1))
        by (rewrite Z.pow_add_r by lia; lia).
      apply Z.pow_le_mono_r; lia. }
    assert (Zpos m1 * 2 ^ (e1 - u) < 2 ^ 53 * 2 ^ (e1 - u))
      by (apply Z.mul_lt_mono_pos_r; lia).
    assert (2 ^ 52 * 2 ^ (e2 - u) <= Zpos m2 * 2 ^ (e2 - u))
      by (apply Z.mul_le_mono_nonneg_r; lia).
    change (2 ^ 53) with (2 * 2 ^ 52) in *. nia.
Qed.

(** An integer is not below a positive normalized number of no greater
    value. *)
Lemma SFcompare_int_not_lt (M : Z) (m : positive) (e u : Z) :
  0 <= M < 2 ^ 53 -> 2 ^ 52 <= Zpos m < 2 ^ 53 -> u <= e -> u <= -52 ->
  Zpos m * 2 ^ (e - u) <= M * 2 ^ (- u) ->
  SFcompare (float64_of_int M) (S754_finite false m e) <> Some Lt.
Proof.
  intros HM Bm Ue U0 V.
  assert (Pu : 0 < 2 ^ (e - u)) by (apply Z.pow_pos_nonneg; lia).
  assert (Pu' : 0 < 2 ^ (- u)) by (apply Z.pow_pos_nonneg; lia).
  destruct (Z.eq_dec M 0) as [->|N]; [exfalso; nia|].
  destruct (float64_of_int_pos M ltac:(lia))
    as (mM & eM & -> & BM & EM & VM).
  apply SFcompare_normal_not_lt with (u := u); try lia.
  rewrite VM, <- Z.mul_assoc, <- Z.pow_add_r by lia.
  replace (- eM + (eM - u)) with (- u) by lia. exact V.
Qed.

(** The fraction of an hour is below one. *)
Lemma f64_div_hour_upper (ns : Z) :
  0 < ns < Hour ->
  exists mf ef,
    f64_div (float64_of_int ns) (float64_of_int 3600000000000)
    = S754_finite false mf ef
    /\ 2 ^ 52 <= Zpos mf < 2 ^ 53
    /\ -94 <= ef <= -53.
Proof.
  intros Hns.
  assert (R53 : 0 < ns < 2 ^ 53)
    by (change (2 ^ 53) with 9007199254740992; unfold Hour, Second in *; lia).
  destruct (float64_of_int_pos ns R53) as (mn & en & -> & Bn & En & Vn).
  assert (En2 : en <= -11).
  { destruct (Z.le_gt_cases en (-11)) as [|G]; [assumption|exfalso].
    assert (2 ^ (- en) <= 2 ^ 10) by (apply Z.pow_le_mono_r; lia).
    change (2 ^ 10) with 1024 in *. unfold Hour, Second in *.
    change (2 ^ 52) with 4503599627370496 in *. nia. }
  change (float64_of_int 3600000000000)
    with (S754_finite false 7372800000000000 (-11)).
  assert (Dn : Zpos (digits2_pos mn) = 53)
    by (apply digits2_unique; change (53 - 1) with 52; lia).
  unfold f64_div, SFdiv, SFdiv_core_binary, prec, emax.
  cbn [Zdigits2 xorb]. rewrite Dn.
  change (Zpos (digits2_pos 7372800000000000)) with 53.
  rewrite fexp64.
  replace (Z.min (Z.max (53 + en - (53 + -11) - 53) (-1074)) (en - -11))
    with (en - 42) by lia.
  replace (en - -11 - (en - 42)) with 53 by lia.
  cbv iota. rewrite Z.shiftl_mul_pow2 by lia.
  set (m2 := 7372800000000000%positive).
  set (m' := Zpos mn * 2 ^ 53).
  set (K := 2 ^ (42 - en)).
  assert (HK : 2 ^ 53 <= K) by (apply Z.pow_le_mono_r; lia).
  assert (Em' : m' = ns * 2048 * K).
  { unfold m', K. rewrite Vn. change 2048 with (2 ^ 11).
    rewrite <- !Z.mul_assoc, <- !Z.pow_add_r by lia. do 2 f_equal. lia. }
  assert (Q : 2 ^ 52 <= m' / Zpos m2).
  { apply Z.div_le_lower_bound; [lia|]. unfold m', m2.
    change (2 ^ 53) with 9007199254740992.
    change (2 ^ 52) with 4503599627370496 in *. lia. }
  assert (Q2 : m' / Zpos m2 <= K - 3).
  { pose proof (Z.mul_div_le m' (Zpos m2) ltac:(lia)) as L.
    clearbody m'. unfold m2 in *.
    change (2 ^ 53) with 9007199254740992 in *. unfold Hour, Second in *.
    assert (ns * 2048 * K <= 7372799999997952 * K)
      by (apply Z.mul_le_mono_nonneg_r; lia).
    lia. }
  assert (Q3 : m' / Zpos m2 < 2 ^ 54).
  { apply Z.div_lt_upper_bound; [lia|]. unfold m', m2.
    change (2 ^ 53) with 9007199254740992 in *.
    change (2 ^ 54) with 18014398509481984. lia. }
  unfold Z.div in Q, Q2, Q3. destruct (Z.div_eucl m' (Zpos m2)) as [q r].
  destruct q as [|pq|pq]; [lia| |lia].
  pose proof (digits2_bounds pq) as [Lq Uq].
  assert (Dq : 53 <= Zpos (digits2_pos pq)).
  { destruct (Z.le_gt_cases 53 (Zpos (digits2_pos pq))) as [|G];
      [assumption|exfalso].
    assert (2 ^ Zpos (digits2_pos pq) <= 2 ^ 52)
      by (apply Z.pow_le_mono_r; lia). lia. }
  assert (Dq2 : Zpos (digits2_pos pq) <= 43 - en).
  { destruct (Z.le_gt_cases (Zpos (digits2_pos pq)) (43 - en)) as [|G];
      [assumption|exfalso].
    assert (2 ^ (43 - en) <= 2 ^ (Zpos (digits2_pos pq) - 1))
      by (apply Z.pow_le_mono_r; lia).
    assert (K < 2 ^ (43 - en)) by (apply Z.pow_lt_mono_r; lia). lia. }
  destruct (binary_round_aux_upper pq (en - 42) (new_location (Zpos m2) r))
    as (m & e & R & Bm & Ee & V); try lia.
  exists m, e. split; [exact R|]. split; [exact Bm|]. split; [lia|].
  set (n := Zpos (digits2_pos pq) - 53) in *.
  assert (Pn : 0 < 2 ^ n) by (apply Z.pow_pos_nonneg; lia).
  assert (N1 : n <= 1).
  { unfold n.
    destruct (Z.le_gt_cases (Zpos (digits2_pos pq)) 54) as [|G]; [lia|].
    exfalso.
    assert (2 ^ 54 <= 2 ^ (Zpos (digits2_pos pq) - 1))
      by (apply Z.pow_le_mono_r; lia). lia. }
  assert (X : (Zpos pq / 2 ^ n + 1) * 2 ^ n < K).
  { pose proof (Z.mul_div_le (Zpos pq) (2 ^ n) Pn).
    assert (2 ^ n <= 2 ^ 1) by (apply Z.pow_le_mono_r; lia).
    change (2 ^ 1) with 2 in *. lia. }
  destruct (Z.le_gt_cases e (-53)) as [|G]; [assumption|exfalso].
  assert (2 ^ (-52 - (en - 42)) <= 2 ^ (e - (en - 42)))
    by (apply Z.pow_le_mono_r; lia).
  assert (2 ^ 52 * 2 ^ (-52 - (en - 42)) = K)
    by (unfold K; rewrite <- Z.pow_add_r by lia; f_equal; lia).
  nia.
Qed.

(** Adding a fraction below one to a whole number of hours gives at
    most the next whole number. *)
Lemma f64_add_upper (h : Z) (mh mf : positive) (eh ef : Z) :
  2 ^ 52 <= Zpos mh < 2 ^ 53 -> -52 <= eh <= 0 ->
  Zpos mh = h * 2 ^ (- eh) -> h + 1 <= 2 ^ 53 ->
  2 ^ 52 <= Zpos mf < 2 ^ 53 -> -94 <= ef <= -53 ->
  exists m e,
    f64_add (S754_finite false mh eh) (S754_finite false mf ef)
    = S754_finite false m e
    /\ 2 ^ 52 <= Zpos m < 2 ^ 53
    /\ ef <= e
    /\ Zpos m * 2 ^ (e - ef) <= (h + 1) * 2 ^ (- ef).
Proof.
  intros Bh Eh Vh Hh Bf Ef.
  unfold f64_add, SFadd, prec, emax. cbn [cond_Zopp].
  replace (Z.min eh ef) with ef by lia.
  pose proof (shl_align_value mh eh ef ltac:(lia)) as Va.
  pose proof (shl_align_value mf ef ef ltac:(lia)) as Vb.
  set (a := fst (shl_align mh eh ef)) in *.
  set (b := fst (shl_align mf ef ef)) in *.
  change (Zpos a + Zpos b) with (Zpos (a + b)).
  cbn [binary_normalize]. unfold binary_round.
  rewrite Z.sub_diag, Z.mul_1_r in Vb.
  set (k := eh - ef) in *.
  assert (K : 1 <= k) by (unfold k; lia).
  assert (Pk : 0 < 2 ^ k) by (apply Z.pow_pos_nonneg; lia).
  assert (Pf : 0 < 2 ^ (- ef)) by (apply Z.pow_pos_nonneg; lia).
  assert (Ea : Zpos a = h * 2 ^ (- ef)).
  { rewrite Va, Vh, <- Z.mul_assoc, <- Z.pow_add_r by lia.
    do 2 f_equal. unfold k. lia. }
  assert (Lb : Zpos b < 2 ^ (- ef)).
  { assert (2 ^ 53 <= 2 ^ (- ef)) by (apply Z.pow_le_mono_r; lia). lia. }
  assert (Sab : Zpos (a + b) = Zpos a + Zpos b) by reflexivity.
  assert (Up : Zpos (a + b) < (h + 1) * 2 ^ (- ef)) by lia.
  pose proof (digits2_bounds (a + b)) as [Ls Us].
  set (d := Zpos (digits2_pos (a + b))) in *.
  assert (D : 53 + k <= d).
  { destruct (Z.le_gt_cases (53 + k) d) as [|G]; [assumption|exfalso].
    assert (2 ^ d <= 2 ^ (52 + k)) by (apply Z.pow_le_mono_r; lia).
    rewrite Z.pow_add_r in H by lia. nia. }
  assert (D2 : d <= 53 - ef).
  { destruct (Z.le_gt_cases d (53 - ef)) as [|G]; [assumption|exfalso].
    assert (2 ^ (53 - ef) <= 2 ^ (d - 1)) by (apply Z.pow_le_mono_r; lia).
    assert (2 ^ (53 - ef) = 2 ^ 53 * 2 ^ (- ef))
      by (rewrite <- Z.pow_add_r by lia; f_equal; lia).
    assert ((h + 1) * 2 ^ (- ef) <= 2 ^ 53 * 2 ^ (- ef))
      by (apply Z.mul_le_mono_nonneg_r; lia).
    lia. }
  rewrite fexp64.
  assert (A : shl_align (a + b) ef (Z.max (d + ef - 53) (-1074))
              = ((a + b)%positive, ef)).
  { unfold shl_align.
    destruct (Z.max (d + ef - 53) (-1074) - ef) eqn:X; try reflexivity. lia. }
  rewrite A.
  destruct (binary_round_aux_upper (a + b) ef loc_Exact)
    as (m & e & R & Bm & Ee & V); fold d; try lia.
  exists m, e. split; [exact R|]. split; [exact Bm|].
  fold d in Ee, V. split; [lia|].
  eapply Z.le_trans; [exact V|].
  set (n := d - 53) in *.
  assert (Pn : 0 < 2 ^ n) by (apply Z.pow_pos_nonneg; lia).
  assert (ET : 2 ^ (- ef) = 2 ^ (- ef - n) * 2 ^ n)
    by (rewrite <- Z.pow_add_r by lia; f_equal; lia).
  rewrite ET, Z.mul_assoc. apply Z.mul_le_mono_nonneg_r; [lia|].
  assert (Zpos (a + b) / 2 ^ n < (h + 1) * 2 ^ (- ef - n)); [|lia].
  apply Z.div_lt_upper_bound; [lia|].
  rewrite ET, Z.mul_assoc in Up. lia.
Qed.

(** *** Ages that are not positive *)

Lemma binary_round_signed (sx : bool) (mx : positive) (ex : Z) :
  signed sx (binary_round 53 1024 sx mx ex).
Proof.
  unfold binary_round.
  destruct (shl_align mx ex _) as [mz ez].
  apply binary_round_aux_signed. lia.
Qed.

Lemma float64_of_int_nonpos (z : Z) : z <= 0 -> nonpos (float64_of_int z).
Proof.
  intros H. destruct z as [|p|p]; [left; now exists false | lia |].
  right. apply binary_round_signed.
Qed.

Lemma float64_of_int_nonneg (z : Z) :
  0 <= z -> signed false (float64_of_int z).
Proof.
  intros H. destruct z as [|p|p]; [now left | | lia].
  apply binary_round_signed.
Qed.

Lemma f64_div_nonpos (x : spec_float) (my : positive) (ey : Z) :
  nonpos x -> nonpos (f64_div x (S754_finite false my ey)).
Proof.
  intros [[s ->]|[->|[->|(mx & ex & ->)]]].
  - left. now exists (xorb s false).
  - left. now exists true.
  - right. right. now left.
  - right. unfold f64_div, SFdiv, SFdiv_core_binary.
    set (s := _ - _ - _).
    set (m' := match s with Z0 => Zpos mx | Zpos _ => Z.shiftl (Zpos mx) s
                          | Zneg _ => 0 end).
    assert (N : 0 <= m').
    { unfold m'. destruct s; try lia. apply Z.shiftl_nonneg. lia. }
    pose proof (Z.div_pos m' (Zpos my) N ltac:(lia)) as Q.
    unfold Z.div in Q. destruct (Z.div_eucl m' (Zpos my)) as [q r].
    cbn [xorb]. apply binary_round_aux_signed. exact Q.
Qed.

Lemma f64_add_nonpos (x y : spec_float) :
  nonpos x -> nonpos y -> nonpos (f64_add x y).
Proof.
  intros [[sx ->]|[->|[->|(mx & ex & ->)]]]
         [[sy ->]|[->|[->|(my & ey & ->)]]];
    unfold f64_add; cbn [SFadd Bool.eqb];
    try (left; eexists; reflexivity);
    try (right; now left);
    try (right; right; now left);
    try (right; right; right; eexists; eexists; reflexivity);
    try (destruct sx; left; eexists; reflexivity);
    try (destruct sy; left; eexists; reflexivity);
    try (destruct sx, sy; left; eexists; reflexivity).
  right. cbn [cond_Zopp].
  destruct (shl_align mx ex (Z.min ex ey)) as [a ?].
  destruct (shl_align my ey (Z.min ex ey)) as [b ?]. cbn [fst].
  change (- Zpos a + - Zpos b) with (Zneg (a + b)).
  cbn [binary_normalize]. apply binary_round_signed.
Qed.

Lemma SFcompare_nonneg_nonpos (y x : spec_float) :
  signed false y -> nonpos x -> SFcompare y x <> Some Lt.
Proof.
  intros [->|[->|(my & ey & ->)]]
         [[sx ->]|[->|[->|(mx & ex & ->)]]]; cbn; try discriminate;
    destruct sx; discriminate.
Qed.

(** The hours and the rest of an age that is not positive. *)
Lemma age_split_nonpos (age : Z) :
  age <= 0 -> Z.quot age Hour <= 0 /\ Z.rem age Hour <= 0.
Proof.
  intros H. assert (Hpos : 0 < Hour) by (unfold Hour, Second; lia).
  split.
  - rewrite <- (Z.opp_involutive age), Z.quot_opp_l by lia.
    assert (0 <= Z.quot (- age) Hour) by (apply Z.quot_pos; lia). lia.
  - rewrite <- (Z.opp_involutive age), Z.rem_opp_l by lia.
    assert (0 <= Z.rem (- age) Hour) by (apply Z.rem_nonneg; lia). lia.
Qed.

(** An age that is not positive exceeds no threshold that is not
    negative. *)
Lemma older_than_nonpos (age maxDays : Z) :
  age <= 0 -> 0 <= wrap64 (maxDays * 24) -> older_than age maxDays = false.
Proof.
  intros Ha Hm. unfold older_than, Hours, f64_gt, SFltb.
  destruct (age_split_nonpos age Ha) as [Hq Hr].
  change (float64_of_int 3600000000000)
    with (S754_finite false 7372800000000000 (-11)).
  pose proof (SFcompare_nonneg_nonpos _ _
                (float64_of_int_nonneg _ Hm)
                (f64_add_nonpos _ _
                   (float64_of_int_nonpos _ Hq)
                   (f64_div_nonpos _ 7372800000000000 (-11)
                      (float64_of_int_nonpos _ Hr)))) as C.
  destruct (SFcompare _ _) as [[| |]|]; congruence.
Qed.

(** An age up to the threshold does not exceed it. *)
Lemma older_than_within (age maxDays : Z) :
  0 <= maxDays * 24 < 2 ^ 53 ->
  age <= maxDays * 24 * Hour ->
  older_than age maxDays = false.
Proof.
  intros Hd Ha.
  assert (P53 : 2 ^ 53 = 9007199254740992) by reflexivity.
  destruct (Z.le_gt_cases age 0) as [N|P].
  { apply older_than_nonpos; [exact N|]. rewrite wrap64_small; lia. }
  unfold older_than, Hours. rewrite wrap64_small by lia.
  set (M := maxDays * 24) in *.
  assert (Hpos : 0 < Hour) by (unfold Hour, Second; lia).
  rewrite Z.quot_div_nonneg, Z.rem_mod_nonneg by lia.
  pose proof (Z.div_mod age Hour ltac:(lia)) as Ea.
  pose proof (Z.mod_pos_bound age Hour Hpos) as Hns.
  set (h := age / Hour) in *. set (ns := age mod Hour) in *.
  assert (Hh0 : 0 <= h) by (apply Z.div_pos; lia).
  assert (Hh : h <= M /\ (ns = 0 \/ h + 1 <= M)) by nia.
  unfold f64_gt, SFltb.
  match goal with
  | |- match ?c with _ => _ end = false =>
      assert (C : c <> Some Lt); [|destruct c as [[| |]|]; congruence]
  end.
  destruct (Z.eq_dec ns 0) as [Z0|NZ].
  - (* a whole number of hours *)
    rewrite Z0.
    change (f64_div (float64_of_int 0) (float64_of_int 3600000000000))
      with (S754_zero false).
    assert (H1 : 0 < h) by lia.
    destruct (float64_of_int_pos h ltac:(lia))
      as (mh & eh & -> & Bh & Eh & Vh).
    unfold f64_add. cbn [SFadd].
    apply SFcompare_int_not_lt with (u := -52); try lia.
    rewrite Vh, <- Z.mul_assoc, <- Z.pow_add_r by lia.
    replace (- eh + (eh - -52)) with (- -52) by lia.
    apply Z.mul_le_mono_nonneg_r; lia.
  - destruct (f64_div_hour_upper ns ltac:(lia))
      as (mf & ef & -> & Bf & Ef).
    assert (Pf : 0 < 2 ^ (- ef)) by (apply Z.pow_pos_nonneg; lia).
    assert (H53 : 2 ^ 53 <= 2 ^ (- ef)) by (apply Z.pow_le_mono_r; lia).
    destruct (Z.eq_dec h 0) as [->|NH].
    + (* less than an hour *)
      unfold f64_add. cbn [float64_of_int binary_normalize SFadd].
      apply SFcompare_int_not_lt with (u := ef); try lia.
      rewrite Z.sub_diag, Z.mul_1_r.
      assert (1 * 2 ^ (- ef) <= M * 2 ^ (- ef))
        by (apply Z.mul_le_mono_nonneg_r; lia).
      lia.
    + destruct (float64_of_int_pos h ltac:(lia))
        as (mh & eh & -> & Bh & Eh & Vh).
      destruct (f64_add_upper h mh mf eh ef) as (m & e & -> & Bm & Ee & V);
        try assumption; try lia.
      apply SFcompare_int_not_lt with (u := ef); try lia.
      eapply Z.le_trans; [exact V|].
      apply Z.mul_le_mono_nonneg_r; lia.
Qed.

Lemma Sub_upper (now t d : Z) :
  0 <= d -> now - t <= d -> Sub now t <= d.
Proof.
  intros Hd H. unfold Sub.
  assert (minDuration < 0) by reflexivity.
  destruct (Z.ltb_spec (now - t) minDuration); [lia|].
  destruct (Z.ltb_spec maxDuration (now - t)); lia.
Qed.

Local Close Scope Z_scope.

Section RetentionProperties.

Variable Store : Type.
Variable Object_Delete : Store -> string -> Store * bool.
Variable Local : Z -> Z.
Variable clock : nat -> Z.

(** X12: nothing is deleted early.  For a threshold of 0 days or more
    whose hours [float64] holds exactly, a timestamp that parses is not
    older than the threshold at any instant up to the timestamp plus that
    many days of 24 hours, instants before the timestamp included; and
    the turn of the loop that meets such a file keeps it, whatever the
    whitelist: no deletion is attempted and the count stays. *)
Theorem kept_within_threshold (fileName prefix timeStamp : string)
    (parsedTime maxDays : Z) :
  parseFileName fileName = (prefix, timeStamp, true) ->
  ParseInLocation Local timeStamp = Some parsedTime ->
  (0 <= maxDays <= 375299968947541)%Z ->
  (forall now,
     (now - parsedTime <= maxDays * 24 * Hour)%Z ->
     age_exceeds Local timeStamp maxDays now = false)
  /\ (forall targetDir whitelist n (w : World Store),
        (clock (reads w) - parsedTime <= maxDays * 24 * Hour)%Z ->
        cleanupFile Store Object_Delete Local clock
          targetDir maxDays whitelist n fileName w
        = (n, extend w 1
                (age_notes Local timeStamp maxDays (clock (reads w))
                 ++ [Printf (MsgNotExpired fileName)]))).
Proof.
  intros P T Hd.
  assert (A : forall now,
             (now - parsedTime <= maxDays * 24 * Hour)%Z ->
             age_exceeds Local timeStamp maxDays now = false).
  { intros now H. unfold age_exceeds. rewrite T.
    apply older_than_within.
    - change (2 ^ 53)%Z with 9007199254740992%Z. lia.
    - apply Sub_upper; [unfold Hour, Second; lia | exact H]. }
  split; [exact A|].
  intros targetDir whitelist n w H.
  rewrite cleanupFile_run, P. cbv zeta. rewrite (A _ H).
  unfold age_reads. rewrite T. reflexivity.
Qed.

(** X13: an artifact expires.  A file whose name decodes to a prefix
    off the whitelist and to the timestamp [Format] wrote for an existing
    date is deleted by the turn of the loop that meets it 2048 nanoseconds
    or more after the timestamp plus the threshold, for a threshold of 0
    to 106751 days: the turn calls [Object.Delete] for the key of the
    file, counts the file if the call succeeds and reports the failure
    if not. *)
Theorem stamped_file_expires (stamp : Civil) (fileName prefix : string)
    (maxDays : Z) :
  four_digit_year stamp = true -> valid_civil stamp = true ->
  parseFileName fileName = (prefix, Format_stamp stamp, true) ->
  (0 <= maxDays <= 106751)%Z ->
  forall targetDir whitelist n (w : World Store),
    isWhitelisted prefix whitelist = false ->
    (Local (wall_seconds stamp) * Second + maxDays * 24 * Hour + 2048
     <= clock (reads w))%Z ->
    let timeStamp := Format_stamp stamp in
    let cosPath := cosPath_of targetDir fileName in
    let ok := snd (Object_Delete (bucket w) cosPath) in
    age_exceeds Local timeStamp maxDays (clock (reads w)) = true
    /\ cleanupFile Store Object_Delete Local clock
         targetDir maxDays whitelist n fileName w
       = (if ok then S n else n,
          mkWorld (fst (Object_Delete (bucket w) cosPath)) (1 + reads w)
            (trace w
             ++ age_notes Local timeStamp maxDays (clock (reads w))
             ++ [Printf (MsgDeleting fileName prefix timeStamp);
                 ObjectDelete cosPath ok;
                 Printf (if ok then MsgDeleted cosPath
                         else MsgDeleteFailed cosPath)])).
Proof.
  intros Y V P Hd targetDir whitelist n w Wl Hn. cbv zeta.
  assert (T : ParseInLocation Local (Format_stamp stamp)
              = Some (Local (wall_seconds stamp) * Second + 0)%Z).
  { unfold ParseInLocation.
    now rewrite (parse_fields_Format_stamp stamp Y V). }
  assert (A : age_exceeds Local (Format_stamp stamp) maxDays
                (clock (reads w)) = true).
  { unfold age_exceeds. rewrite T.
    apply older_than_above_threshold; [exact Hd|].
    apply Sub_lower; [|lia].
    unfold maxDuration, max_int64, Hour, Second. lia. }
  split; [exact A|].
  rewrite cleanupFile_run, P. cbv zeta. rewrite A, Wl.
  cbn [classify negb]. unfold age_reads. rewrite T.
  now destruct (Object_Delete (bucket w) (cosPath_of targetDir fileName)).
Qed.

End RetentionProperties.

(** ** The backup *)

Lemma processed_app (a b : list backup_event) :
  processed (a ++ b) = (processed a ++ processed b)%list.
Proof.
  induction a as [|e a IH]; [reflexivity|].
  destruct e as [[]| | | | |]; cbn; now rewrite IH.
Qed.

Lemma uploads_app (a b : list backup_event) :
  uploads (a ++ b) = (uploads a ++ uploads b)%list.
Proof.
  induction a as [|e a IH]; [reflexivity|].
  destruct e; cbn; now rewrite IH.
Qed.

Lemma archives_app (a b : list backup_event) :
  archives (a ++ b) = (archives a ++ archives b)%list.
Proof.
  induction a as [|e a IH]; [reflexivity|].
  destruct e as [| | | ? ? []| |]; cbn; now rewrite IH.
Qed.

Lemma removals_app (a b : list backup_event) :
  removals (a ++ b) = (removals a ++ removals b)%list.
Proof.
  induction a as [|e a IH]; [reflexivity|].
  destruct e; cbn; now rewrite IH.
Qed.

Lemma puts_app (a b : list backup_event) :
  puts (a ++ b) = (puts a ++ puts b)%list.
Proof.
  induction a as [|e a IH]; [reflexivity|].
  destruct e; cbn; now rewrite IH.
Qed.

Lemma uploaded_app (a b : list backup_event) :
  uploaded (a ++ b) = uploaded a + uploaded b.
Proof.
  unfold uploaded. now rewrite uploads_app, filter_app, List.length_app.
Qed.

Ltac run_B :=
  unfold bind_B, print, record, call_Stat, call_Head, call_Put,
    call_zipFolder, call_PutFromFile, call_Remove, call_generateFileName,
    unit_B;
  cbn [disk objects readings output fst snd].

(** One turn of the main loop, summed up. *)
Lemma backupPath_summary (m : Machine) (targetDir : string)
    (tempFiles : list string) (successCount : nat) (sourcePath : string)
    (s : State m) :
  let '((tempFiles', successCount'), s') :=
    backupPath m targetDir tempFiles successCount sourcePath s in
  exists evs,
    output s' = (output s ++ evs)%list
    /\ processed evs = [sourcePath]
    /\ removals evs = []
    /\ puts evs = []
    /\ tempFiles' = (tempFiles ++ archives evs)%list
    /\ successCount' = successCount + uploaded evs
    /\ Forall (upload_of m targetDir sourcePath) (uploads evs)
    /\ Forall (archive_of m sourcePath) (archives evs)
    /\ uploaded evs <= 1.
Proof.
  unfold backupPath, isDirectory. run_B.
  destruct (os_Stat m (disk s) sourcePath) as [| |[|]] eqn:St; run_B;
    rewrite ?St; run_B.
  - eexists; split; [rewrite <- !app_assoc; reflexivity|].
    unfold uploaded; cbn. rewrite app_nil_r.
    repeat split; try lia; constructor.
  - eexists; split; [rewrite <- !app_assoc; reflexivity|].
    unfold uploaded; cbn. rewrite app_nil_r.
    repeat split; try lia; constructor.
  - set (name := generateFileName (time_Now_wall m (readings s))
                   sourcePath true).
    set (target := filepath_Join m (os_TempDir m) name).
    assert (Ar : archive_of m sourcePath target)
      by (now exists (readings s)).
    assert (Up : forall ok,
               upload_of m targetDir sourcePath
                 (uploadPath targetDir name, target, ok))
      by (intros ok; exists (readings s), true; now split).
    destruct (zipFolder m (disk s) sourcePath target) as [d [|]]; run_B.
    + destruct (Object_PutFromFile m (objects s) d
                  (uploadPath targetDir name) target) as [b [|]]; run_B.
      * destruct (Object_Head m b (uploadPath targetDir name)); run_B;
          (eexists; split; [rewrite <- !app_assoc; reflexivity|]);
          unfold uploaded; cbn; repeat split; try lia;
          repeat constructor; auto.
      * eexists; split; [rewrite <- !app_assoc; reflexivity|].
        unfold uploaded; cbn; repeat split; try lia;
          repeat constructor; auto.
    + eexists; split; [rewrite <- !app_assoc; reflexivity|].
      unfold uploaded; cbn. rewrite app_nil_r.
      repeat split; try lia; constructor.
  - set (name := generateFileName (time_Now_wall m (readings s))
                   sourcePath false).
    assert (Up : forall ok,
               upload_of m targetDir sourcePath
                 (uploadPath targetDir name, sourcePath, ok))
      by (intros ok; exists (readings s), false; now split).
    destruct (Object_PutFromFile m (objects s) (disk s)
                (uploadPath targetDir name) sourcePath) as [b [|]]; run_B.
    + destruct (Object_Head m b (uploadPath targetDir name)); run_B;
        (eexists; split; [rewrite <- !app_assoc; reflexivity|]);
        unfold uploaded; cbn; rewrite app_nil_r; repeat split; try lia;
        repeat constructor; auto.
    + eexists; split; [rewrite <- !app_assoc; reflexivity|].
      unfold uploaded; cbn; rewrite app_nil_r; repeat split; try lia;
        repeat constructor; auto.
Qed.

(** The main loop, summed up. *)
Lemma backupLoop_summary (m : Machine) (targetDir : string)
    (sourcePaths tempFiles : list string) (successCount : nat)
    (s : State m) :
  let '((tempFiles', successCount'), s') :=
    backupLoop m targetDir sourcePaths tempFiles successCount s in
  exists evs,
    output s' = (output s ++ evs)%list
    /\ processed evs = sourcePaths
    /\ removals evs = []
    /\ puts evs = []
    /\ tempFiles' = (tempFiles ++ archives evs)%list
    /\ successCount' = successCount + uploaded evs
    /\ Forall (fun u => exists sourcePath,
                 In sourcePath sourcePaths
                 /\ upload_of m targetDir sourcePath u) (uploads evs)
    /\ Forall (fun target => exists sourcePath,
                 In sourcePath sourcePaths
                 /\ archive_of m sourcePath target) (archives evs)
    /\ uploaded evs <= List.length sourcePaths.
Proof.
  revert tempFiles successCount s.
  induction sourcePaths as [|p rest IH]; intros tempFiles successCount s.
  - cbn. exists []. rewrite !app_nil_r, Nat.add_0_r.
    repeat split; try constructor.
  - cbn [backupLoop]. unfold bind_B at 1.
    pose proof (backupPath_summary m targetDir tempFiles successCount p s)
      as H1.
    destruct (backupPath m targetDir tempFiles successCount p s)
      as [[t1 n1] s1].
    destruct H1 as (e1 & O1 & P1 & R1 & Q1 & T1 & C1 & U1 & A1 & L1).
    cbn [fst snd]. specialize (IH t1 n1 s1).
    destruct (backupLoop m targetDir rest t1 n1 s1) as [[t2 n2] s2].
    destruct IH as (e2 & O2 & P2 & R2 & Q2 & T2 & C2 & U2 & A2 & L2).
    exists (e1 ++ e2)%list.
    rewrite processed_app, removals_app, puts_app, archives_app,
      uploads_app, uploaded_app, P1, P2, R1, R2, Q1, Q2, O2, O1, T2, T1,
      C2, C1, !app_assoc.
    repeat split; try lia.
    + apply Forall_app. split.
      * eapply Forall_impl; [|exact U1]. intros u Hu. exists p.
        split; [now left | exact Hu].
      * eapply Forall_impl; [|exact U2]. intros u (q & I & Hu). exists q.
        split; [now right | exact Hu].
    + apply Forall_app. split.
      * eapply Forall_impl; [|exact A1]. intros a Ha. exists p.
        split; [now left | exact Ha].
      * eapply Forall_impl; [|exact A2]. intros a (q & I & Ha). exists q.
        split; [now right | exact Ha].
    + cbn [List.length]. lia.
Qed.

Lemma printPaths_summary (m : Machine) (sourcePaths : list string)
    (i : nat) (s : State m) :
  exists evs,
    printPaths m i sourcePaths s
    = (tt, mkState (disk s) (objects s) (readings s)
             (output s ++ evs)%list)
    /\ processed evs = [] /\ removals evs = [] /\ puts evs = []
    /\ archives evs = [] /\ uploads evs = [].
Proof.
  revert i s; induction sourcePaths as [|p rest IH]; intros i s.
  - exists []. cbn. rewrite app_nil_r. destruct s. repeat split.
  - cbn [printPaths]. run_B.
    destruct (IH (S i) (mkState (disk s) (objects s) (readings s)
                          (output s ++ [Say (MsgPathItem (i + 1) p)])%list))
      as (evs & E & ?). rewrite E. cbn [disk objects readings output].
    exists (Say (MsgPathItem (i + 1) p) :: evs).
    rewrite <- app_assoc. repeat split; tauto.
Qed.

Lemma removeTempFiles_summary (m : Machine) (tempFiles : list string)
    (s : State m) :
  let s' := snd (removeTempFiles m tempFiles s) in
  exists evs,
    output s' = (output s ++ evs)%list
    /\ objects s' = objects s
    /\ readings s' = readings s
    /\ removals evs = tempFiles
    /\ processed evs = [] /\ puts evs = []
    /\ archives evs = [] /\ uploads evs = [].
Proof.
  cbv zeta. revert s; induction tempFiles as [|t rest IH]; intros s.
  - exists []. cbn. rewrite app_nil_r. repeat split.
  - cbn [removeTempFiles]. run_B.
    destruct (os_Remove m (disk s) t) as [d [|]]; run_B;
      match goal with
      | |- context [removeTempFiles m rest ?s0] =>
          destruct (IH s0) as (evs & O & B0 & R0 & R & P & Q & A & U)
      end;
      cbn [disk objects readings output] in *;
      eexists; (split; [rewrite O, <- !app_assoc; reflexivity|]);
      rewrite B0, R0; cbn; rewrite R;
      repeat split; assumption.
Qed.

(** A whole backup, summed up. *)
Lemma performBackup_summary (m : Machine) (targetDir : string)
    (s : State m) :
  os_Getenv m "SOURCEFOLDER" <> "" ->
  let sourcePaths :=
    parseSourcePaths (strings_TrimSpace m) (os_Getenv m "SOURCEFOLDER") in
  let s' := snd (performBackup m targetDir s) in
  exists evs,
    output s'
    = (output s
       ++ [Say MsgBackupStart;
           Say (MsgPathCount (List.length sourcePaths))]
       ++ evs
       ++ [Say MsgBackupDone;
           Say (MsgTotal (List.length sourcePaths));
           Say (MsgSucceeded (uploaded evs));
           Say (MsgFailed (Z.of_nat (List.length sourcePaths)
                             - Z.of_nat (uploaded evs)))])%list
    /\ processed evs = sourcePaths
    /\ uploaded evs <= List.length sourcePaths
    /\ Forall (fun u => exists sourcePath,
                 In sourcePath sourcePaths
                 /\ upload_of m targetDir sourcePath u) (uploads evs)
    /\ removals evs = archives evs
    /\ Forall (fun target => exists sourcePath,
                 In sourcePath sourcePaths
                 /\ archive_of m sourcePath target) (archives evs)
    /\ puts evs = [].
Proof.
  intros N. cbv zeta. unfold performBackup.
  destruct (String.eqb_spec (os_Getenv m "SOURCEFOLDER") "") as [E|_];
    [contradiction|].
  set (sourcePaths := parseSourcePaths _ _).
  run_B.
  match goal with
  | |- context [printPaths m 0 sourcePaths ?s0] =>
      destruct (printPaths_summary m sourcePaths 0 s0)
        as (e0 & E0 & P0 & R0 & Q0 & A0 & U0); rewrite E0
  end.
  cbn [disk objects readings output].
  match goal with
  | |- context [backupLoop m targetDir sourcePaths [] 0 ?s1] =>
      pose proof (backupLoop_summary m targetDir sourcePaths [] 0 s1) as H1;
      destruct (backupLoop m targetDir sourcePaths [] 0 s1)
        as [[t1 n1] s1']
  end.
  destruct H1 as (e1 & O1 & P1 & R1 & Q1 & T1 & C1 & U1 & A1 & L1).
  cbn [fst snd disk objects readings output] in *.
  pose proof (removeTempFiles_summary m t1 s1') as H2. cbv zeta in H2.
  destruct (removeTempFiles m t1 s1') as [[] s2]. cbn [snd] in H2.
  destruct H2 as (e2 & O2 & _ & _ & R2 & P2 & Q2 & A2 & U2).
  cbn [snd output].
  exists (e0 ++ e1 ++ e2)%list.
  rewrite !processed_app, !removals_app, !puts_app, !archives_app,
    !uploads_app, !uploaded_app.
  unfold uploaded at 1 3. rewrite U0, U2.
  unfold uploaded in *. rewrite U0, U2.
  rewrite P0, P1, P2, R0, R1, R2, Q0, Q1, Q2, A0, A2, O2, O1, T1, C1.
  cbn. rewrite !app_nil_r, <- !app_assoc. cbn.
  rewrite !Nat.add_0_r.
  repeat split; assumption.
Qed.

(** X14: a backup goes through every path of [SOURCEFOLDER], in the
    order given, whatever fails on the way: a path that does not exist, an
    archive that cannot be written or an upload that fails costs that path
    only.  The number of successes the backup reports is the number of
    uploads that returned without error, at most one per path; the number
    of failures is the number of the remaining paths. *)
Theorem backup_report (m : Machine) (targetDir : string) (s : State m) :
  os_Getenv m "SOURCEFOLDER" <> "" ->
  let sourcePaths :=
    parseSourcePaths (strings_TrimSpace m) (os_Getenv m "SOURCEFOLDER") in
  let s' := snd (performBackup m targetDir s) in
  exists evs,
    output s'
    = (output s
       ++ [Say MsgBackupStart;
           Say (MsgPathCount (List.length sourcePaths))]
       ++ evs
       ++ [Say MsgBackupDone;
           Say (MsgTotal (List.length sourcePaths));
           Say (MsgSucceeded (uploaded evs));
           Say (MsgFailed (Z.of_nat (List.length sourcePaths)
                             - Z.of_nat (uploaded evs)))])%list
    /\ processed evs = sourcePaths
    /\ uploaded evs <= List.length sourcePaths.
Proof.
  intros N. destruct (performBackup_summary m targetDir s N)
    as (evs & O & P & L & _).
  exists evs. repeat split; assumption.
Qed.

(** X15: a backup uploads only what it names: every upload is that of
    one of the paths of [SOURCEFOLDER], under the key built from the
    target directory and the name generated for the path at a reading of
    the clock, from the path itself or, for a directory, from its archive
    in the temporary directory; and the backup puts no other object. *)
Theorem backup_uploads_are_named (m : Machine) (targetDir : string)
    (s : State m) :
  os_Getenv m "SOURCEFOLDER" <> "" ->
  let sourcePaths :=
    parseSourcePaths (strings_TrimSpace m) (os_Getenv m "SOURCEFOLDER") in
  let s' := snd (performBackup m targetDir s) in
  exists evs,
    output s' = (output s ++ evs)%list
    /\ puts evs = []
    /\ forall cosPath localFilePath ok,
         In (cosPath, localFilePath, ok) (uploads evs) ->
         exists sourcePath k isDir,
           In sourcePath sourcePaths
           /\ (let name :=
                 generateFileName (time_Now_wall m k) sourcePath isDir in
               cosPath = uploadPath targetDir name
               /\ localFilePath
                  = if isDir then filepath_Join m (os_TempDir m) name
                    else sourcePath).
Proof.
  intros N. destruct (performBackup_summary m targetDir s N)
    as (evs & O & _ & _ & U & _ & _ & Q).
  eexists. split; [exact O|].
  rewrite !puts_app, !uploads_app, Q. cbn. rewrite app_nil_r.
  split; [reflexivity|]. intros cosPath localFilePath ok I.
  rewrite Forall_forall in U.
  destruct (U _ I) as (p & Hp & k & isDir & H1 & H2).
  exists p, k, isDir. cbn in H1, H2. now repeat split.
Qed.

(** X16: the local files a backup removes are the archives it wrote
    without error, each once and in the order written, and nothing else;
    each one is the archive of a path of [SOURCEFOLDER] under the
    temporary directory.  Without [SOURCEFOLDER] nothing is written,
    uploaded or removed. *)
Theorem backup_removes_its_archives (m : Machine) (targetDir : string)
    (s : State m) :
  let sourcePaths :=
    parseSourcePaths (strings_TrimSpace m) (os_Getenv m "SOURCEFOLDER") in
  let s' := snd (performBackup m targetDir s) in
  exists evs,
    output s' = (output s ++ evs)%list
    /\ removals evs = archives evs
    /\ (forall target,
          In target (removals evs) ->
          exists sourcePath k,
            In sourcePath sourcePaths
            /\ target
               = filepath_Join m (os_TempDir m)
                   (generateFileName (time_Now_wall m k) sourcePath true))
    /\ (os_Getenv m "SOURCEFOLDER" = "" ->
        s' = mkState (disk s) (objects s) (readings s)
               (output s ++ [Say MsgBackupStart;
                             Say MsgNoSourceFolder])%list).
Proof.
  cbv zeta.
  destruct (String.eqb_spec (os_Getenv m "SOURCEFOLDER") "") as [E|N].
  - unfold performBackup. rewrite E. cbn [String.eqb]. run_B.
    eexists. split; [rewrite <- app_assoc; reflexivity|]. cbn.
    split; [reflexivity|]. split; [intros target []|].
    intros _. now rewrite <- app_assoc.
  - destruct (performBackup_summary m targetDir s N)
      as (evs & O & _ & _ & _ & R & A & _).
    eexists. split; [exact O|].
    rewrite !removals_app, !archives_app, R. cbn. rewrite !app_nil_r.
    split; [reflexivity|]. split; [|contradiction].
    intros target I. rewrite Forall_forall in A.
    destruct (A _ I) as (p & Hp & k & Hk). now exists p, k.
Qed.

(** ** Keys *)

Lemma TrimLeft_byte_head (c : ascii) (s : string) :
  TrimLeft_byte c s = ""
  \/ exists x r, TrimLeft_byte c s = String x r /\ x <> c.
Proof.
  induction s as [|x s IH]; [now left|]. cbn.
  destruct (Ascii.eqb_spec x c) as [->|N]; [exact IH|].
  right. now exists x, s.
Qed.

Lemma TrimLeft_byte_id (c x : ascii) (r : string) :
  x <> c -> TrimLeft_byte c (String x r) = String x r.
Proof.
  intros N. cbn. destruct (Ascii.eqb_spec x c); [contradiction|reflexivity].
Qed.

Lemma TrimRight_byte_head (c x : ascii) (r : string) :
  x <> c -> exists r', TrimRight_byte c (String x r) = String x r'.
Proof.
  intros N. cbn. destruct (TrimRight_byte c r); [|eauto].
  destruct (Ascii.eqb_spec x c); [contradiction|eauto].
Qed.

(** What [strings.Trim] leaves does not begin with the byte trimmed. *)
Lemma Trim_slash_head (s : string) :
  Trim_slash s = ""
  \/ exists x r, Trim_slash s = String x r /\ x <> "/"%char.
Proof.
  unfold Trim_slash.
  destruct (TrimLeft_byte_head "/" s) as [->|(x & r & -> & N)];
    [now left|].
  destruct (TrimRight_byte_head "/" x r N) as (r' & ->).
  right. now exists x, r'.
Qed.

Lemma HasSuffix_app_slash (s : string) : HasSuffix (s ++ "/") "/" = true.
Proof.
  unfold HasSuffix. rewrite length_append. cbn [length].
  replace (length s + 1 - 1) with (length s) by lia.
  rewrite drop_app_length.
  destruct (Nat.leb_spec 1 (length s + 1)); [reflexivity|lia].
Qed.

Lemma HasSuffix_app (a b suffix : string) :
  b <> "" -> length suffix = 1 ->
  HasSuffix (a ++ b) suffix = HasSuffix b suffix.
Proof.
  intros N L. unfold HasSuffix. rewrite length_append, L.
  destruct b as [|y b]; [contradiction|]. cbn [length].
  replace (length a + S (length b) - 1) with (length a + length b) by lia.
  replace (S (length b) - 1) with (length b) by lia.
  replace (1 <=? length a + S (length b))%nat with true
    by (symmetry; apply Nat.leb_le; lia).
  cbn [Nat.leb andb]. f_equal.
  rewrite <- (drop_drop (length b) (length a)), drop_app_length.
  reflexivity.
Qed.

Lemma prefix_app (p s : string) : String.prefix p (p ++ s) = true.
Proof.
  induction p as [|c p IH]; cbn; [now destruct s|].
  destruct (ascii_dec c c); [exact IH | contradiction].
Qed.

Lemma prefix_head (c x : ascii) (r : string) :
  String.prefix (String c "") (String x r) = false -> x <> c.
Proof.
  intros H ->. cbn in H.
  destruct (ascii_dec c c); [destruct r; discriminate | contradiction].
Qed.

Lemma prefix_head_false (c x : ascii) (r : string) :
  x <> c -> String.prefix (String c "") (String x r) = false.
Proof.
  intros N.
  change (String.prefix (String c "") (String x r))
    with (if ascii_dec c x then String.prefix "" r else false).
  destruct (ascii_dec c x); [congruence | reflexivity].
Qed.

(** X17: with a target directory that does not begin with a slash, a
    name is uploaded under the key the cleanup looks for: the key has the
    prefix of the listing, a listing that holds the key gives the name
    back to the pass, and a deletion of the name goes to that key. *)
Theorem uploaded_key_is_listed_key (Store : Type)
    (Bucket_Get : Store -> string -> option (list string))
    (targetDir name : string) (keys : list string) (w : World Store) :
  targetDir <> "" -> String.prefix "/" targetDir = false ->
  name <> "" -> String.prefix "/" name = false ->
  HasSuffix name "/" = false ->
  Bucket_Get (bucket w) (Trim_slash targetDir ++ "/") = Some keys ->
  In (uploadPath targetDir name) keys ->
  String.prefix (Trim_slash targetDir ++ "/") (uploadPath targetDir name)
  = true
  /\ cosPath_of targetDir name = uploadPath targetDir name
  /\ exists fileNames,
       fst (listCOSFiles Store Bucket_Get targetDir w) = Some fileNames
       /\ In name fileNames.
Proof.
  intros Nt Pt Nn Pn Sn G I.
  assert (Et : Trim_slash targetDir = TrimRight_byte "/" targetDir).
  { unfold Trim_slash. destruct targetDir as [|x r]; [reflexivity|].
    f_equal. apply TrimLeft_byte_id. exact (prefix_head _ _ _ Pt). }
  assert (En : TrimLeft_byte "/" name = name).
  { destruct name as [|x r]; [reflexivity|].
    apply TrimLeft_byte_id. exact (prefix_head _ _ _ Pn). }
  assert (U : uploadPath targetDir name
              = (Trim_slash targetDir ++ "/") ++ name).
  { unfold uploadPath.
    destruct (String.eqb_spec targetDir ""); [contradiction|].
    now rewrite En, Et, app_assoc_s. }
  assert (P : String.prefix (Trim_slash targetDir ++ "/")
                (uploadPath targetDir name) = true)
    by (rewrite U; apply prefix_app).
  split; [exact P|]. split.
  { unfold cosPath_of. destruct (String.eqb_spec targetDir "");
      [contradiction|]. now rewrite U, app_assoc_s. }
  unfold listCOSFiles, bind, emit. cbn [bucket]. rewrite G. cbn [fst].
  eexists. split; [reflexivity|].
  apply in_map_iff. exists (uploadPath targetDir name). split.
  - unfold TrimPrefix. rewrite P, U. apply drop_app_length.
  - apply filter_In. split; [exact I|].
    rewrite U, HasSuffix_app, Sn by (assumption || reflexivity).
    reflexivity.
Qed.

(** X18: [ensureCOSDirectory] leaves the local files alone and changes
    the bucket by at most one call: it puts an empty object when, and only
    when, [Head] reports the marker of the directory missing.  The key of
    the marker is the prefix the cleanup lists, it ends in a slash and does
    not begin with one.  For the root, written as the empty path or as
    slashes only, it calls nothing. *)
Theorem ensureCOSDirectory_marker (m : Machine) (dirPath : string)
    (s : State m) :
  let marker := Trim_slash dirPath ++ "/" in
  let '(err, s') := ensureCOSDirectory m dirPath s in
  disk s' = disk s
  /\ readings s' = readings s
  /\ if String.eqb (Trim_slash dirPath) "" then err = None /\ s' = s
     else
       HasSuffix marker "/" = true
       /\ String.prefix "/" marker = false
       /\ exists evs,
            output s' = (output s ++ CallHead marker :: evs)%list
            /\ match Object_Head m (objects s) marker with
               | HeadFound _ =>
                   err = None /\ puts evs = [] /\ objects s' = objects s
               | HeadNotFound =>
                   puts evs = [(marker, "")]
                   /\ objects s' = fst (Object_Put m (objects s) marker "")
                   /\ err = if snd (Object_Put m (objects s) marker "")
                            then None else Some ErrCreateDirectory
               | HeadFailed =>
                   err = Some ErrCheckDirectory /\ puts evs = []
                   /\ objects s' = objects s
               end.
Proof.
  cbv zeta. unfold ensureCOSDirectory.
  destruct (String.eqb_spec dirPath "") as [->|N].
  { cbn. repeat split. }
  destruct (String.eqb_spec (Trim_slash dirPath) "") as [E|NE].
  { cbn. repeat split. }
  run_B.
  assert (P : String.prefix "/" (Trim_slash dirPath ++ "/") = false).
  { destruct (Trim_slash_head dirPath) as [E|(x & r & -> & Nx)];
      [contradiction|].
    change (String x r ++ "/") with (String x (r ++ "/")).
    now apply prefix_head_false. }
  destruct (Object_Head m (objects s) (Trim_slash dirPath ++ "/")); run_B.
  - repeat split; [apply HasSuffix_app_slash | exact P|].
    eexists. split; [rewrite <- app_assoc; reflexivity|]. now repeat split.
  - destruct (Object_Put m (objects s) (Trim_slash dirPath ++ "/") "")
      as [b [|]]; run_B;
      (repeat split; [apply HasSuffix_app_slash | exact P|]);
      eexists; (split; [rewrite <- !app_assoc; reflexivity|]);
      now repeat split.
  - repeat split; [apply HasSuffix_app_slash | exact P|].
    exists []. now repeat split.
Qed.

(** ** The further theorems at concrete inputs *)

Lemma kept_within_threshold_witness :
  age_exceeds demo_Local "20251021_095000" 1 (demo_clock 0) = false.
Proof.
  refine (proj1 (kept_within_threshold demo_Store demo_Object_Delete
                   demo_Local demo_clock
                   "x_20251021_095000.log" "x" "20251021_095000"
                   1761040200000000000 1 eq_refl eq_refl _) _ _).
  - lia.
  - vm_compute. discriminate.
Defined.

Lemma recognized_iff_pattern_witness :
  matches_pattern "test1_20251021_095449.txt".
Proof.
  apply (proj1 (recognized_iff_pattern "test1_20251021_095449.txt")).
  now exists "test1", "20251021_095449".
Defined.

Lemma recognized_prefix_is_shortest_witness :
  exists ext,
    canonical "a_b_20251021_095449.tar.gz" "a_b" "20251021_095449" ext
    /\ forall prefix' timeStamp' ext',
         canonical "a_b_20251021_095449.tar.gz" prefix' timeStamp' ext' ->
         3 <= length prefix'.
Proof.
  exact (recognized_prefix_is_shortest
           "a_b_20251021_095449.tar.gz" "a_b" "20251021_095449" eq_refl).
Defined.

Lemma directory_name_round_trip_witness :
  parseFileName
    (generateFileName (mkCivil 2025 10 21 9 54 49) "/data/VCPToolBox/" true)
  = ("VCPToolBox", "20251021_095449", true).
Proof.
  apply (directory_name_round_trip (mkCivil 2025 10 21 9 54 49)
           "/data/VCPToolBox/"); reflexivity.
Defined.

Lemma timestamp_round_trip_witness :
  ParseInLocation demo_Local (Format_stamp (mkCivil 2024 2 29 23 59 59))
  = Some (demo_Local (wall_seconds (mkCivil 2024 2 29 23 59 59)) * Second)%Z.
Proof.
  apply (timestamp_round_trip demo_Local (mkCivil 2024 2 29 23 59 59));
    reflexivity.
Defined.

Lemma pass_report_witness :
  demo_Getenv "CLEANUP_ENABLED" = "true"
  /\ exists evs,
       map fst (decisions evs)
       = ["backup_20200101_000000.zip"; "x_20251021_095000.log";
          "notes.txt"; "x_20251320_095000.log"]
       /\ listings evs = [].
Proof.
  split; [reflexivity|].
  pose proof (pass_report demo_Store demo_Bucket_Get demo_Object_Delete
                demo_Getenv demo_TrimSpace demo_Local demo_clock
                "bk/" demo_world eq_refl) as H.
  cbv zeta in H.
  change (demo_Bucket_Get (bucket demo_world) (Trim_slash "bk/" ++ "/"))
    with (Some demo_bucket) in H.
  cbv iota in H. destruct H as (evs & _ & L & D & _).
  exists evs. split; [exact D | exact L].
Defined.


Lemma pass_deletes_only_listed_keys_witness :
  exists evs,
    trace (snd (performCleanup demo_Store demo_Bucket_Get demo_Object_Delete
                  demo_Getenv demo_TrimSpace demo_Local demo_clock
                  "bk/" demo_world))
    = (trace demo_world ++ evs)%list
    /\ forall key ok,
         In (key, ok) (attempts evs) ->
         In key demo_bucket /\ HasSuffix key "/" = false.
Proof.
  apply (pass_deletes_only_listed_keys demo_Store demo_Bucket_Get
           demo_Object_Delete demo_Getenv demo_TrimSpace demo_Local
           demo_clock "bk/" demo_world demo_bucket).
  - discriminate.
  - reflexivity.
  - repeat constructor.
Defined.

Lemma root_pass_deletes_unslashed_keys_witness :
  let w := mkWorld ["/old_20200101_000000.zip"; "old_20200101_000000.zip"]
             0 [] in
  exists evs,
    trace (snd (performCleanup demo_Store demo_Bucket_Get demo_Object_Delete
                  demo_Getenv demo_TrimSpace demo_Local demo_clock "" w))
    = (trace w ++ evs)%list
    /\ listings evs
       = (if String.eqb (demo_Getenv "CLEANUP_ENABLED") "true"
          then ["/"] else [])
    /\ forall key ok,
         In (key, ok) (attempts evs) ->
         In ("/" ++ key) ["/old_20200101_000000.zip"].
Proof.
  cbv zeta.
  apply (root_pass_deletes_unslashed_keys demo_Store demo_Bucket_Get
           demo_Object_Delete demo_Getenv demo_TrimSpace demo_Local
           demo_clock
           (mkWorld ["/old_20200101_000000.zip"; "old_20200101_000000.zip"]
              0 [])
           ["/old_20200101_000000.zip"]).
  - reflexivity.
  - repeat constructor.
Defined.

Lemma whitelisted_is_never_deleted_witness :
  let w := mkWorld ["bk/keep_20200101_000000.zip"] 0 [] in
  exists evs,
    trace (snd (performCleanup demo_Store demo_Bucket_Get demo_Object_Delete
                  demo_Getenv demo_TrimSpace demo_Local demo_clock "bk/" w))
    = (trace w ++ evs)%list
    /\ forall ok,
         ~ In (cosPath_of "bk/" "keep_20200101_000000.zip", ok)
              (attempts evs).
Proof.
  cbv zeta.
  apply (whitelisted_is_never_deleted demo_Store demo_Bucket_Get
           demo_Object_Delete demo_Getenv demo_TrimSpace demo_Local
           demo_clock "bk/" "keep_20200101_000000.zip" "keep"
           "20200101_000000"
           (mkWorld ["bk/keep_20200101_000000.zip"] 0 []));
    reflexivity.
Defined.

Lemma comma_separated_settings_witness :
  parseSourcePaths demo_TrimSpace "/data/site, /data/notes.txt ,, /srv"
  = ["/data/site"; "/data/notes.txt"; "/srv"]
  /\ getWhiteList demo_Getenv demo_TrimSpace = ["keep"; "nightly"].
Proof.
  split.
  - apply (proj1 (comma_separated_settings demo_Getenv demo_TrimSpace
                    ["/data/site"; " /data/notes.txt "; ""; " /srv"]
                    ltac:(discriminate) ltac:(repeat constructor))).
  - apply (proj2 (comma_separated_settings demo_Getenv demo_TrimSpace
                    ["keep"; " nightly"]
                    ltac:(discriminate) ltac:(repeat constructor)));
      [reflexivity | discriminate].
Defined.

Lemma cleanup_time_is_hour_colon_minute_witness :
  exists hour minute,
    (exists a b,
       "03:30" = a ++ ":" ++ b
       /\ Atoi a = Some hour /\ Atoi b = Some minute)
    /\ fst (getNextCleanupTime demo_Store (demo_Getenv_time "03:30")
              demo_clock demo_Date_today demo_world)
       = inr (if (demo_Date_today (demo_clock 0) hour minute
                  <? demo_clock 0)%Z
              then (demo_Date_today (demo_clock 0) hour minute
                    + 24 * Hour)%Z
              else demo_Date_today (demo_clock 0) hour minute).
Proof.
  pose proof (cleanup_time_is_hour_colon_minute demo_Store
                (demo_Getenv_time "03:30") demo_clock demo_Date_today
                demo_world) as H.
  cbv zeta in H.
  destruct (getNextCleanupTime demo_Store (demo_Getenv_time "03:30")
              demo_clock demo_Date_today demo_world) as [[e|t] w'] eqn:E;
    [discriminate E|].
  destruct H as (hour & minute & A & T & _).
  exists hour, minute. split; [exact A|]. cbn [fst]. f_equal. exact T.
Defined.

Lemma backup_report_witness :
  os_Getenv demo_machine "SOURCEFOLDER" <> ""
  /\ exists evs,
       processed evs
       = ["/data/site"; "/data/notes.txt"; "/data/gone";
          "/data/secret.key"; "/sys/log"]
       /\ uploaded evs <= 5.
Proof.
  assert (N : os_Getenv demo_machine "SOURCEFOLDER" <> "") by discriminate.
  split; [exact N|].
  destruct (backup_report demo_machine "bk/" demo_state N)
    as (evs & _ & P & L).
  exists evs. split; [exact P | exact L].
Defined.

Lemma backup_uploads_are_named_witness :
  os_Getenv demo_machine "SOURCEFOLDER" <> ""
  /\ exists evs,
       output (snd (performBackup demo_machine "bk/" demo_state))
       = (output demo_state ++ evs)%list
       /\ puts evs = [].
Proof.
  assert (N : os_Getenv demo_machine "SOURCEFOLDER" <> "") by discriminate.
  split; [exact N|].
  destruct (backup_uploads_are_named demo_machine "bk/" demo_state N)
    as (evs & O & Q & _).
  exists evs. split; [exact O | exact Q].
Defined.

Lemma backup_removes_its_archives_witness :
  exists evs,
    output (snd (performBackup demo_machine "bk/" demo_state))
    = (output demo_state ++ evs)%list
    /\ removals evs = archives evs.
Proof.
  destruct (backup_removes_its_archives demo_machine "bk/" demo_state)
    as (evs & O & R & _).
  exists evs. split; [exact O | exact R].
Defined.

Lemma uploaded_key_is_listed_key_witness :
  cosPath_of "bk/" "site_20251021_095449.zip"
  = uploadPath "bk/" "site_20251021_095449.zip"
  /\ exists fileNames,
       fst (listCOSFiles demo_Store demo_Bucket_Get "bk/"
              (mkWorld ["bk/"; "bk/site_20251021_095449.zip"] 0 []))
       = Some fileNames
       /\ In "site_20251021_095449.zip" fileNames.
Proof.
  apply (uploaded_key_is_listed_key demo_Store demo_Bucket_Get
           "bk/" "site_20251021_095449.zip"
           ["bk/"; "bk/site_20251021_095449.zip"]
           (mkWorld ["bk/"; "bk/site_20251021_095449.zip"] 0 []));
    try reflexivity; try discriminate.
  right. now left.
Defined.

Lemma ensureCOSDirectory_marker_witness :
  disk (snd (ensureCOSDirectory demo_machine "/bk/" demo_state))
  = disk demo_state.
Proof.
  pose proof (ensureCOSDirectory_marker demo_machine "/bk/" demo_state)
    as H.
  cbv zeta in H.
  destruct (ensureCOSDirectory demo_machine "/bk/" demo_state) as [err s'].
  exact (proj1 H).
Defined.

Lemma stamped_file_expires_witness :
  let name :=
    generateFileName (mkCivil 2020 1 1 0 0 0) "/data/backup/" true in
  name = "backup_20200101_000000.zip"
  /\ age_exceeds demo_Local "20200101_000000" 1 (demo_clock 0) = true
  /\ fst (cleanupFile demo_Store demo_Object_Delete demo_Local demo_clock
            "bk/" 1 ["keep"] 0 name demo_world)
     = 1.
Proof.
  cbv zeta. split; [reflexivity|].
  destruct (stamped_file_expires demo_Store demo_Object_Delete demo_Local
              demo_clock (mkCivil 2020 1 1 0 0 0)
              "backup_20200101_000000.zip" "backup" 1
              eq_refl eq_refl eq_refl ltac:(lia)
              "bk/" ["keep"] 0 demo_world eq_refl
              ltac:(vm_compute; discriminate)) as [A R].
  split; [exact A|].
  change (generateFileName (mkCivil 2020 1 1 0 0 0) "/data/backup/" true)
    with "backup_20200101_000000.zip".
  rewrite R. reflexivity.
Defined.
